(** * Airdrop reconciliation engine: a shallow embedding

    The development follows the TypeScript sources of the repository:

    - [contractVerificationService.ts]  (ChainProbe)    -> [Module ChainProbe]
    - [blockchainMonitoringService.ts]  (EventMonitor)  -> [Module EventMonitor]
    - [models/VerifiedAirdrop.ts]       (record schema) -> the records, then the
                                                           methods in [Section Reconciler]
    - [airdropSyncService.ts]           (Reconciler)    -> [Section Reconciler]

    Dates are milliseconds since the epoch ([Z]); [new Date()] is the
    parameter [now] of the operation that reads the clock.  Asynchronous
    functions are modelled by their sequential effect; the places where
    the interleaving matters (the single-flight guard of the sync job and
    the reconnect timers) are modelled as explicit step functions. *)

From stdpp Require Import base option list strings gmap.
From Stdlib Require Import ZArith Lia.

Open Scope Z_scope.

(** ** JavaScript values and exceptions *)

Module Js.

(** The outcome of a call that may raise: [Throw msg] carries
    [error.message]. *)
Inductive exc (A : Type) : Type :=
| Ok (a : A)
| Throw (msg : string).
Arguments Ok {A} a.
Arguments Throw {A} msg.

Definition raises {A} (r : exc A) : bool :=
  match r with Ok _ => false | Throw _ => true end.

(** [x || d] on an optional string: absent and empty are both falsy. *)
Definition truthy (o : option string) : bool :=
  match o with
  | Some s => negb (bool_decide (s = ""%string))
  | None => false
  end.

Definition or_else (o : option string) (d : string) : string :=
  if truthy o then default d o else d.

(** [a !== b] where [a] may be [undefined]. *)
Definition differs (a b : option string) : bool :=
  negb (bool_decide (a = b)).

Definition lower_ascii (c : Ascii.ascii) : Ascii.ascii :=
  let n := Ascii.nat_of_ascii c in
  if ((65 <=? n)%nat && (n <=? 90)%nat)%bool then Ascii.ascii_of_nat (n + 32) else c.

Definition upper_ascii (c : Ascii.ascii) : Ascii.ascii :=
  let n := Ascii.nat_of_ascii c in
  if ((97 <=? n)%nat && (n <=? 122)%nat)%bool then Ascii.ascii_of_nat (n - 32) else c.

Fixpoint map_string (f : Ascii.ascii -> Ascii.ascii) (s : string) : string :=
  match s with
  | EmptyString => EmptyString
  | String c r => String (f c) (map_string f r)
  end.

Definition toLowerCase : string -> string := map_string lower_ascii.
Definition toUpperCase : string -> string := map_string upper_ascii.

(** [arr.includes(x)] on an array of strings. *)
Definition includes (arr : list string) (x : string) : bool :=
  existsb (fun y => bool_decide (y = x)) arr.

(** [s.slice(0, n)]. *)
Fixpoint slice0 (n : nat) (s : string) : string :=
  match n, s with
  | S k, String c r => String c (slice0 k r)
  | _, _ => EmptyString
  end.

End Js.
Import Js.

(** ** ChainProbe: [contractVerificationService.ts] *)

Module ChainProbe.

(** [interface ContractInfo]. *)
Record ContractInfo := mkContractInfo {
  address : string;
  blockchain : string;
  isValid : bool;
  isToken : bool;
  name : option string;
  symbol : option string;
  decimals : option Z;
  totalSupply : option string;
  isAirdropContract : option bool;
  hasClaimFunction : option bool;
  owner : option string;
  lastActivity : option Z;
  verified : bool
}.

(** The object literal built at the top of [verifyContract] and in its
    [catch] block. *)
Definition blank (addr chain : string) : ContractInfo :=
  {| address := addr; blockchain := chain; isValid := false; isToken := false;
     name := None; symbol := None; decimals := None; totalSupply := None;
     isAirdropContract := None; hasClaimFunction := None; owner := None;
     lastActivity := None; verified := false |}.

(** What the service reads from the outside world: the ethers library,
    the JSON-RPC providers, the block-explorer HTTP API.  Every call may
    raise. *)
Record ChainEnv := mkChainEnv {
  (** [ethers.isAddress(address)] *)
  ethers_isAddress : string -> exc bool;
  (** [this.providers.get(blockchain)] is defined *)
  hasProvider : string -> bool;
  (** [provider.getCode(address)] *)
  getCode : string -> string -> exc string;
  (** [config && config.apiKey] for the blockchain *)
  hasApiKey : string -> bool;
  (** the [getsourcecode] request: [None] when the status is not ['1']
      or there is no first result, else [Some SourceCode] *)
  explorer_sourceCode : string -> string -> exc (option string);
  (** [new ethers.Contract(address, abi, provider)] *)
  newContract : string -> string -> exc unit;
  erc20_name : string -> string -> exc string;
  erc20_symbol : string -> string -> exc string;
  erc20_decimals : string -> string -> exc Z;
  erc20_totalSupply : string -> string -> exc string;
  (** [contract.interface.getFunction(method)] is truthy *)
  interface_getFunction : string -> string -> string -> exc bool;
  call_owner : string -> string -> exc string;
  call_getOwner : string -> string -> exc string;
  (** the [txlist] request: timestamp (ms) of the latest transaction *)
  explorer_lastTx : string -> string -> exc (option Z);
  (** [console.log] of the finished result (with [JSON.stringify]) *)
  log_result : ContractInfo -> exc unit
}.

Section WithEnv.
Variable env : ChainEnv.

Definition isValidAddress (addr : string) : bool :=
  match ethers_isAddress env addr with
  | Ok b => b
  | Throw _ => false
  end.

Definition hasContractCode (addr chain : string) : exc bool :=
  if negb (hasProvider env chain) then Ok false
  else match getCode env chain addr with
       | Ok code => Ok (negb (bool_decide (code = "0x"%string)))
       | Throw _ => Ok false
       end.

(** Only the [verified] field of the explorer answer is used. *)
Definition getExplorerInfo (addr chain : string) : exc (option bool) :=
  if negb (hasApiKey env chain) then Ok None
  else match explorer_sourceCode env chain addr with
       | Ok (Some src) => Ok (Some (negb (bool_decide (src = ""%string))))
       | Ok None => Ok None
       | Throw _ => Ok None
       end.

Record TokenInfo := mkTokenInfo {
  t_name : string; t_symbol : string; t_decimals : Z; t_totalSupply : string
}.

(** [Promise.allSettled]: a rejected call is a value, not an exception. *)
Definition getTokenInfo (addr chain : string) : exc (option TokenInfo) :=
  if negb (hasProvider env chain) then Ok None
  else match newContract env chain addr with
       | Throw _ => Ok None
       | Ok _ =>
           match erc20_name env chain addr, erc20_symbol env chain addr with
           | Ok n, Ok s =>
               Ok (Some {| t_name := n; t_symbol := s;
                           t_decimals := match erc20_decimals env chain addr with
                                         | Ok d => d | Throw _ => 18 end;
                           t_totalSupply := match erc20_totalSupply env chain addr with
                                            | Ok t => t | Throw _ => "0"%string end |})
           | _, _ => Ok None
           end
       end.

(** The [for ... break] loops over method names. *)
Fixpoint anyFunction (addr chain : string) (methods : list string) : bool :=
  match methods with
  | [] => false
  | m :: rest =>
      match interface_getFunction env chain addr m with
      | Ok true => true
      | _ => anyFunction addr chain rest
      end
  end.

Definition claimMethods : list string := ["claim"; "claimTokens"; "claimAirdrop"]%string.
Definition checkMethods : list string := ["isClaimed"; "canClaim"]%string.

(** Returns [(isAirdropContract, hasClaimFunction)]. *)
Definition checkAirdropFunctions (addr chain : string) : exc (bool * bool) :=
  if negb (hasProvider env chain) then Ok (false, false)
  else match newContract env chain addr with
       | Throw _ => Ok (false, false)
       | Ok _ => Ok (anyFunction addr chain checkMethods,
                     anyFunction addr chain claimMethods)
       end.

Definition getContractOwner (addr chain : string) : exc (option string) :=
  if negb (hasProvider env chain) then Ok None
  else match newContract env chain addr with
       | Throw _ => Ok None
       | Ok _ =>
           match call_owner env chain addr with
           | Ok o => Ok (Some o)
           | Throw _ =>
               match call_getOwner env chain addr with
               | Ok o => Ok (Some o)
               | Throw _ => Ok None
               end
           end
       end.

Definition getLastActivity (addr chain : string) : exc (option Z) :=
  if negb (hasApiKey env chain) then Ok None
  else match explorer_lastTx env chain addr with
       | Ok t => Ok t
       | Throw _ => Ok None
       end.

End WithEnv.

(** The seven steps of [verifyContract] call these sub-checks.  They are
    gathered in a record so that the body of [verifyContract], with its
    outer [try]/[catch], can be read against arbitrary sub-checks, also
    ones that raise. *)
Record SubChecks := mkSubChecks {
  sc_isValidAddress : string -> bool;
  sc_hasContractCode : string -> string -> exc bool;
  sc_getExplorerInfo : string -> string -> exc (option bool);
  sc_getTokenInfo : string -> string -> exc (option TokenInfo);
  sc_checkAirdropFunctions : string -> string -> exc (bool * bool);
  sc_getContractOwner : string -> string -> exc (option string);
  sc_getLastActivity : string -> string -> exc (option Z);
  sc_log : ContractInfo -> exc unit
}.

Definition bind {A B} (m : exc A) (k : A -> exc B) : exc B :=
  match m with Ok a => k a | Throw e => Throw e end.

Notation "'let!' x ':=' m 'in' k" := (bind m (fun x => k))
  (at level 10, x name, m at level 100, k at level 200, only parsing).

(** The [try] block of [verifyContract]. *)
Definition verifyContract_try (sc : SubChecks) (addr chain : string) : exc ContractInfo :=
  let contractInfo := blank addr chain in
  if negb (sc_isValidAddress sc addr) then Ok contractInfo
  else
    let! hasCode := sc_hasContractCode sc addr chain in
    if negb hasCode then Ok contractInfo
    else
      let! explorerInfo := sc_getExplorerInfo sc addr chain in
      let verified' := match explorerInfo with Some v => v | None => false end in
      let! tokenInfo := sc_getTokenInfo sc addr chain in
      let! airdropInfo := sc_checkAirdropFunctions sc addr chain in
      let! owner' := sc_getContractOwner sc addr chain in
      let! lastActivity' := sc_getLastActivity sc addr chain in
      let info :=
        {| address := addr; blockchain := chain; isValid := true;
           isToken := match tokenInfo with Some _ => true | None => false end;
           name := t_name <$> tokenInfo;
           symbol := t_symbol <$> tokenInfo;
           decimals := t_decimals <$> tokenInfo;
           totalSupply := t_totalSupply <$> tokenInfo;
           isAirdropContract := Some (fst airdropInfo);
           hasClaimFunction := Some (snd airdropInfo);
           owner := owner';
           lastActivity := lastActivity';
           verified := verified' |} in
      let! _ := sc_log sc info in
      Ok info.

(** [verifyContract]: the [try] block and the [catch] that returns the
    all-false result.  The result type is still [exc], so that "never
    raises" is a theorem and not a typing fact. *)
Definition verifyContractWith (sc : SubChecks) (addr chain : string) : exc ContractInfo :=
  match verifyContract_try sc addr chain with
  | Ok info => Ok info
  | Throw _ => Ok (blank addr chain)
  end.

Definition subChecks (env : ChainEnv) : SubChecks :=
  {| sc_isValidAddress := isValidAddress env;
     sc_hasContractCode := hasContractCode env;
     sc_getExplorerInfo := getExplorerInfo env;
     sc_getTokenInfo := getTokenInfo env;
     sc_checkAirdropFunctions := checkAirdropFunctions env;
     sc_getContractOwner := getContractOwner env;
     sc_getLastActivity := getLastActivity env;
     sc_log := log_result env |}.

Definition verifyContract (env : ChainEnv) (addr chain : string) : exc ContractInfo :=
  verifyContractWith (subChecks env) addr chain.

Definition thirtyDays : Z := 30 * 24 * 60 * 60 * 1000.

(** [isAirdropActive]; [now] is the clock read by [new Date()]. *)
Definition isAirdropActive (env : ChainEnv) (now : Z) (addr chain : string) : exc bool :=
  match verifyContract env addr chain with
  | Throw _ => Ok false
  | Ok contractInfo =>
      if (negb (isValid contractInfo) || negb (default false (hasClaimFunction contractInfo)))%bool
      then Ok false
      else match lastActivity contractInfo with
           | Some t => Ok (bool_decide (now - thirtyDays < t))
           | None => Ok true
           end
  end.

End ChainProbe.

(** ** EventMonitor: the reconnect logic of [blockchainMonitoringService.ts] *)

Module EventMonitor.

(** [maxReconnectAttempts] and [reconnectInterval], read from the
    process environment when the service is constructed. *)
Record Config := mkConfig {
  maxReconnectAttempts : nat;
  reconnectInterval : Z
}.

(** [parseInt(process.env.WEBSOCKET_MAX_RETRIES || '3')] and
    [parseInt(process.env.WEBSOCKET_RECONNECT_INTERVAL || '300000')]. *)
Definition defaultConfig : Config :=
  {| maxReconnectAttempts := 3; reconnectInterval := 300000 |}.

(** A pending [setTimeout]: the closure captures [blockchain] and the
    value of [attempts] read when it was scheduled. *)
Record Timer := mkTimer {
  t_blockchain : string;
  t_attempts : nat;
  t_delay : Z
}.

Record State := mkState {
  (** [this.reconnectAttempts : Map<string, number>] *)
  reconnectAttempts : gmap string nat;
  (** timers set and not yet fired *)
  timers : list Timer;
  (** timer callbacks suspended at [await this.setupWebSocketConnection] *)
  awaiting : list string;
  (** number of [new WebSocket(...)] calls so far *)
  socketsOpened : nat;
  (** every [setTimeout] call so far, oldest first *)
  scheduled : list Timer
}.

(** After [startMonitoring]: one socket, no counter, no timer. *)
Definition started : State :=
  {| reconnectAttempts := ∅; timers := []; awaiting := [];
     socketsOpened := 1; scheduled := [] |}.

(** [Math.min(this.reconnectInterval * Math.pow(2, attempts), 600000)]. *)
Definition backoffDelay (cfg : Config) (attempts : nat) : Z :=
  Z.min (reconnectInterval cfg * 2 ^ Z.of_nat attempts) 600000.

(** [reconnectWebSocket], up to and including the [setTimeout] call. *)
Definition reconnectWebSocket (cfg : Config) (b : string) (st : State) : State :=
  let attempts := default 0%nat (reconnectAttempts st !! b) in
  if (maxReconnectAttempts cfg <=? attempts)%nat then st
  else
    let t := {| t_blockchain := b; t_attempts := attempts;
                t_delay := backoffDelay cfg attempts |} in
    {| reconnectAttempts := reconnectAttempts st;
       timers := timers st ++ [t];
       awaiting := awaiting st;
       socketsOpened := socketsOpened st;
       scheduled := scheduled st ++ [t] |}.

(** [setupWebSocketConnection]: the whole body is inside [try]/[catch],
    so the returned promise never rejects, and it resolves as soon as
    the handlers are registered (it does not wait for ['open']).
    [ctor_ok] tells whether [new WebSocket] returned or raised. *)
Definition setupWebSocketConnection (ctor_ok : bool) (st : State) : State :=
  if ctor_ok then
    {| reconnectAttempts := reconnectAttempts st; timers := timers st;
       awaiting := awaiting st; socketsOpened := S (socketsOpened st);
       scheduled := scheduled st |}
  else st.

Definition setAttempts (b : string) (n : nat) (st : State) : State :=
  {| reconnectAttempts := <[b := n]> (reconnectAttempts st); timers := timers st;
     awaiting := awaiting st; socketsOpened := socketsOpened st;
     scheduled := scheduled st |}.

(** The timer callback up to its [await]. *)
Definition timerCallback (t : Timer) (ctor_ok : bool) (st : State) : State :=
  let st1 := setAttempts (t_blockchain t) (S (t_attempts t)) st in
  let st2 := setupWebSocketConnection ctor_ok st1 in
  {| reconnectAttempts := reconnectAttempts st2; timers := timers st2;
     awaiting := awaiting st2 ++ [t_blockchain t];
     socketsOpened := socketsOpened st2; scheduled := scheduled st2 |}.

(** The rest of the callback, after the [await]:
    [this.reconnectAttempts.set(blockchain, 0)]. *)
Definition timerResume (b : string) (st : State) : State :=
  setAttempts b 0 st.

(** What can happen to the service, one event-loop turn at a time. *)
Inductive Event :=
| WsOpen (b : string)
| WsError (b : string)
| WsClose (b : string)
| TimerFire (i : nat) (ctor_ok : bool)
| Resume.

Definition step (cfg : Config) (st : State) (e : Event) : State :=
  match e with
  | WsOpen _ => st
  | WsError b => reconnectWebSocket cfg b st
  | WsClose b => reconnectWebSocket cfg b st
  | TimerFire i ctor_ok =>
      match timers st !! i with
      | Some t =>
          timerCallback t ctor_ok
            {| reconnectAttempts := reconnectAttempts st;
               timers := delete i (timers st);
               awaiting := awaiting st; socketsOpened := socketsOpened st;
               scheduled := scheduled st |}
      | None => st
      end
  | Resume =>
      match awaiting st with
      | b :: rest =>
          timerResume b
            {| reconnectAttempts := reconnectAttempts st; timers := timers st;
               awaiting := rest; socketsOpened := socketsOpened st;
               scheduled := scheduled st |}
      | [] => st
      end
  end.

Definition run (cfg : Config) (st : State) (trace : list Event) : State :=
  fold_left (step cfg) trace st.

(** One failed reconnect cycle for [b]: the socket closes, the timer
    fires and opens a new socket, the callback resumes; no ['open']
    event arrives before the next close. *)
Definition failedCycle (b : string) : list Event :=
  [WsClose b; TimerFire 0 true; Resume].

Definition opened (e : Event) : bool :=
  match e with WsOpen _ => true | _ => false end.

End EventMonitor.

(** ** The verified-airdrop schema: [models/VerifiedAirdrop.ts] *)

Inductive Status := upcoming | active | ended | paused | cancelled.
Inductive VerificationLevel := unverified | community | official | scam.
Inductive RiskLevel := low | medium | high | critical.
Inductive SourceType := api | scraping | monitoring | manual.
Inductive DistributionMethod := claim | airdrop | vesting | lottery.

#[global] Instance Status_eq_dec : EqDecision Status.
Proof. solve_decision. Defined.
#[global] Instance VerificationLevel_eq_dec : EqDecision VerificationLevel.
Proof. solve_decision. Defined.
#[global] Instance RiskLevel_eq_dec : EqDecision RiskLevel.
Proof. solve_decision. Defined.
#[global] Instance SourceType_eq_dec : EqDecision SourceType.
Proof. solve_decision. Defined.
#[global] Instance DistributionMethod_eq_dec : EqDecision DistributionMethod.
Proof. solve_decision. Defined.

Definition status_name (s : Status) : string :=
  match s with
  | upcoming => "upcoming" | active => "active" | ended => "ended"
  | paused => "paused" | cancelled => "cancelled"
  end.

Definition level_name (l : VerificationLevel) : string :=
  match l with
  | unverified => "unverified" | community => "community"
  | official => "official" | scam => "scam"
  end.

Definition method_name (m : DistributionMethod) : string :=
  match m with
  | claim => "claim" | airdrop => "airdrop" | vesting => "vesting" | lottery => "lottery"
  end.

(** The trust ratchet of the glossary: unverified < community < official,
    with scam as the terminal override above them. *)
Definition level_rank (l : VerificationLevel) : nat :=
  match l with
  | unverified => 0 | community => 1 | official => 2 | scam => 3
  end.

Record Source := mkSource {
  src_type : SourceType;
  url : string;
  lastUpdated : Z;
  confidence : Z
}.

Record ContractInfoDoc := mkContractInfoDoc {
  ci_verified : bool;
  ci_hasClaimFunction : bool;
  ci_owner : option string;
  ci_lastActivity : option Z
}.

Record Requirements := mkRequirements {
  whitelistOnly : bool;
  kyc : bool
}.

Record Risks := mkRisks {
  risk_level : RiskLevel;
  factors : list string;
  warnings : list string
}.

(** An entry of [metadata.verificationHistory]: [date], [action], [by],
    [details]. *)
Record HistoryEntry := mkHistoryEntry {
  h_date : Z;
  h_action : string;
  h_by : string;
  h_details : option string
}.

Record Metadata := mkMetadata {
  addedBy : string;
  addedAt : Z;
  lastVerified : Z;
  verificationHistory : list HistoryEntry
}.

Record Analytics := mkAnalytics {
  views : nat;
  claims : nat;
  successfulClaims : nat
}.

Record VerifiedAirdrop := mkVerifiedAirdrop {
  name : string;
  symbol : string;
  contractAddress : string;
  tokenAddress : string;
  blockchain : string;
  description : string;
  website : option string;
  twitter : option string;
  endDate : option Z;
  claimDeadline : option Z;
  totalValue : option string;
  requirements : Requirements;
  status : Status;
  verificationLevel : VerificationLevel;
  sources : list Source;
  contractInfo : ContractInfoDoc;
  distribution_method : DistributionMethod;
  risks : Risks;
  tags : list string;
  metadata : Metadata;
  analytics : Analytics
}.

#[global] Instance Source_eq_dec : EqDecision Source.
Proof. solve_decision. Defined.
#[global] Instance ContractInfoDoc_eq_dec : EqDecision ContractInfoDoc.
Proof. solve_decision. Defined.
#[global] Instance Requirements_eq_dec : EqDecision Requirements.
Proof. solve_decision. Defined.
#[global] Instance Risks_eq_dec : EqDecision Risks.
Proof. solve_decision. Defined.
#[global] Instance HistoryEntry_eq_dec : EqDecision HistoryEntry.
Proof. solve_decision. Defined.
#[global] Instance Metadata_eq_dec : EqDecision Metadata.
Proof. solve_decision. Defined.
#[global] Instance Analytics_eq_dec : EqDecision Analytics.
Proof. solve_decision. Defined.
#[global] Instance VerifiedAirdrop_eq_dec : EqDecision VerifiedAirdrop.
Proof. solve_decision. Defined.

(** *** Field assignments *)

Definition set_description (v : string) (r : VerifiedAirdrop) : VerifiedAirdrop :=
  mkVerifiedAirdrop (name r) (symbol r) (contractAddress r) (tokenAddress r) (blockchain r)
    v (website r) (twitter r) (endDate r) (claimDeadline r) (totalValue r)
    (requirements r) (status r) (verificationLevel r) (sources r) (contractInfo r)
    (distribution_method r) (risks r) (tags r) (metadata r) (analytics r).

Definition set_website (v : option string) (r : VerifiedAirdrop) : VerifiedAirdrop :=
  mkVerifiedAirdrop (name r) (symbol r) (contractAddress r) (tokenAddress r) (blockchain r)
    (description r) v (twitter r) (endDate r) (claimDeadline r) (totalValue r)
    (requirements r) (status r) (verificationLevel r) (sources r) (contractInfo r)
    (distribution_method r) (risks r) (tags r) (metadata r) (analytics r).

Definition set_endDate (v : option Z) (r : VerifiedAirdrop) : VerifiedAirdrop :=
  mkVerifiedAirdrop (name r) (symbol r) (contractAddress r) (tokenAddress r) (blockchain r)
    (description r) (website r) (twitter r) v (claimDeadline r) (totalValue r)
    (requirements r) (status r) (verificationLevel r) (sources r) (contractInfo r)
    (distribution_method r) (risks r) (tags r) (metadata r) (analytics r).

Definition set_totalValue (v : option string) (r : VerifiedAirdrop) : VerifiedAirdrop :=
  mkVerifiedAirdrop (name r) (symbol r) (contractAddress r) (tokenAddress r) (blockchain r)
    (description r) (website r) (twitter r) (endDate r) (claimDeadline r) v
    (requirements r) (status r) (verificationLevel r) (sources r) (contractInfo r)
    (distribution_method r) (risks r) (tags r) (metadata r) (analytics r).

Definition set_status (v : Status) (r : VerifiedAirdrop) : VerifiedAirdrop :=
  mkVerifiedAirdrop (name r) (symbol r) (contractAddress r) (tokenAddress r) (blockchain r)
    (description r) (website r) (twitter r) (endDate r) (claimDeadline r) (totalValue r)
    (requirements r) v (verificationLevel r) (sources r) (contractInfo r)
    (distribution_method r) (risks r) (tags r) (metadata r) (analytics r).

Definition set_verificationLevel (v : VerificationLevel) (r : VerifiedAirdrop) : VerifiedAirdrop :=
  mkVerifiedAirdrop (name r) (symbol r) (contractAddress r) (tokenAddress r) (blockchain r)
    (description r) (website r) (twitter r) (endDate r) (claimDeadline r) (totalValue r)
    (requirements r) (status r) v (sources r) (contractInfo r)
    (distribution_method r) (risks r) (tags r) (metadata r) (analytics r).

Definition set_sources (v : list Source) (r : VerifiedAirdrop) : VerifiedAirdrop :=
  mkVerifiedAirdrop (name r) (symbol r) (contractAddress r) (tokenAddress r) (blockchain r)
    (description r) (website r) (twitter r) (endDate r) (claimDeadline r) (totalValue r)
    (requirements r) (status r) (verificationLevel r) v (contractInfo r)
    (distribution_method r) (risks r) (tags r) (metadata r) (analytics r).

Definition set_contractInfo (v : ContractInfoDoc) (r : VerifiedAirdrop) : VerifiedAirdrop :=
  mkVerifiedAirdrop (name r) (symbol r) (contractAddress r) (tokenAddress r) (blockchain r)
    (description r) (website r) (twitter r) (endDate r) (claimDeadline r) (totalValue r)
    (requirements r) (status r) (verificationLevel r) (sources r) v
    (distribution_method r) (risks r) (tags r) (metadata r) (analytics r).

Definition set_risks (v : Risks) (r : VerifiedAirdrop) : VerifiedAirdrop :=
  mkVerifiedAirdrop (name r) (symbol r) (contractAddress r) (tokenAddress r) (blockchain r)
    (description r) (website r) (twitter r) (endDate r) (claimDeadline r) (totalValue r)
    (requirements r) (status r) (verificationLevel r) (sources r) (contractInfo r)
    (distribution_method r) v (tags r) (metadata r) (analytics r).

Definition set_tags (v : list string) (r : VerifiedAirdrop) : VerifiedAirdrop :=
  mkVerifiedAirdrop (name r) (symbol r) (contractAddress r) (tokenAddress r) (blockchain r)
    (description r) (website r) (twitter r) (endDate r) (claimDeadline r) (totalValue r)
    (requirements r) (status r) (verificationLevel r) (sources r) (contractInfo r)
    (distribution_method r) (risks r) v (metadata r) (analytics r).

Definition set_metadata (v : Metadata) (r : VerifiedAirdrop) : VerifiedAirdrop :=
  mkVerifiedAirdrop (name r) (symbol r) (contractAddress r) (tokenAddress r) (blockchain r)
    (description r) (website r) (twitter r) (endDate r) (claimDeadline r) (totalValue r)
    (requirements r) (status r) (verificationLevel r) (sources r) (contractInfo r)
    (distribution_method r) (risks r) (tags r) v (analytics r).

Definition set_analytics (v : Analytics) (r : VerifiedAirdrop) : VerifiedAirdrop :=
  mkVerifiedAirdrop (name r) (symbol r) (contractAddress r) (tokenAddress r) (blockchain r)
    (description r) (website r) (twitter r) (endDate r) (claimDeadline r) (totalValue r)
    (requirements r) (status r) (verificationLevel r) (sources r) (contractInfo r)
    (distribution_method r) (risks r) (tags r) (metadata r) v.

(** [this.metadata.lastVerified = v] *)
Definition set_lastVerified (v : Z) (r : VerifiedAirdrop) : VerifiedAirdrop :=
  set_metadata
    (mkMetadata (addedBy (metadata r)) (addedAt (metadata r)) v
       (verificationHistory (metadata r))) r.

(** [this.metadata.verificationHistory.push(e)] *)
Definition push_history (e : HistoryEntry) (r : VerifiedAirdrop) : VerifiedAirdrop :=
  set_metadata
    (mkMetadata (addedBy (metadata r)) (addedAt (metadata r)) (lastVerified (metadata r))
       (verificationHistory (metadata r) ++ [e])) r.

(** [this.risks.level = v] *)
Definition set_risk_level (v : RiskLevel) (r : VerifiedAirdrop) : VerifiedAirdrop :=
  set_risks (mkRisks v (factors (risks r)) (warnings (risks r))) r.

(** Schema setters: [trim: true], [lowercase: true], [uppercase: true]. *)
Fixpoint trimStart (s : string) : string :=
  match s with
  | EmptyString => EmptyString
  | String a r => if Ascii.is_space a then trimStart r else s
  end.

Definition trim (s : string) : string :=
  String.rev (trimStart (String.rev (trimStart s))).

(** [[...new Set(tags)]]: the first occurrence of each element is kept. *)
Fixpoint dedupe (seen l : list string) : list string :=
  match l with
  | [] => []
  | x :: rest =>
      if includes seen x then dedupe seen rest else x :: dedupe (x :: seen) rest
  end.

(** A candidate record ([airdropData: any], produced by the source
    fetchers as [RealAirdropData] or synthesised by the event-driven
    path).  A field that may be [undefined] is an [option]; [endDate] is
    the timestamp that [new Date(airdropData.endDate)] yields, [None]
    when the field is absent or empty. *)
Record Candidate := mkCandidate {
  c_name : string;
  c_symbol : string;
  c_contractAddress : option string;
  c_tokenAddress : option string;
  c_blockchain : option string;
  c_description : option string;
  c_website : option string;
  c_twitter : option string;
  c_endDate : option Z;
  c_totalValue : option string;
  c_status : option Status;
  c_source : string
}.

(** An event emitted by the monitoring service. *)
Record AirdropEvent := mkAirdropEvent {
  e_contractAddress : string;
  e_tokenAddress : option string;
  e_blockchain : string;
  e_timestamp : Z
}.

(** [interface SyncResult]. *)
Record SyncResult := mkSyncResult {
  newAirdrops : nat;
  updatedAirdrops : nat;
  verifiedContracts : nat;
  errors : list string;
  lastSync : Z
}.

(** The collaborator imported as [contractVerificationService]. *)
Record ContractVerificationService := mkContractVerificationService {
  verifyContract : string -> string -> exc ChainProbe.ContractInfo;
  isAirdropActive : string -> string -> exc bool
}.

(** The service of [Module ChainProbe] over a chain environment, with the
    clock reading [now]. *)
Definition chainProbeService (env : ChainProbe.ChainEnv) (now : Z)
  : ContractVerificationService :=
  {| verifyContract := ChainProbe.verifyContract env;
     isAirdropActive := ChainProbe.isAirdropActive env now |}.

(** The collection of verified airdrops.  A document lives in a slot of
    the collection and its [_id] is the slot number; [deleteMany] empties
    slots and a new document takes a new slot at the end, so an [_id] is
    never reused.  [findOne] returns the first match in slot order.  The
    collection is in memory: a query or an update never raises, and
    [save()] raises for a failed validation, a duplicate key or a
    document that is gone.  The [catch] blocks of the service that only
    a database failure can reach have no counterpart here. *)
Abbreviation Store := (list (option VerifiedAirdrop)).

Section Reconciler.

(** Schema validation run by the ODM on [save()] ([required], [enum],
    [min]/[max]); it is not part of the repository. *)
Variable validate : VerifiedAirdrop -> bool.

(** [parseFloat(totalValue.replace(/[,$]/g, '')) > n]; floating point
    parsing is not modelled. *)
Variable parseFloat_gt : string -> Z -> bool.

(** [threeMonthsAgo.setMonth(getMonth() - 3)]: calendar arithmetic. *)
Variable threeMonthsBefore : Z -> Z.

Variable contractVerificationService : ContractVerificationService.

(** *** Schema methods and the pre-save hook *)

(** [VerifiedAirdropSchema.methods.generateAutoTags] *)
Definition generateAutoTags (r : VerifiedAirdrop) : list string :=
  let tags0 := [blockchain r; method_name (distribution_method r)] in
  let tags1 := if bool_decide (verificationLevel r = official)
               then tags0 ++ ["verified"] else tags0 in
  let tags2 := if ci_verified (contractInfo r)
               then tags1 ++ ["contract-verified"] else tags1 in
  let tags3 := if kyc (requirements r) then tags2 ++ ["kyc-required"] else tags2 in
  let tags4 := if whitelistOnly (requirements r)
               then tags3 ++ ["whitelist-only"] else tags3 in
  let tags5 :=
    if truthy (totalValue r) then
      let v := default "" (totalValue r) in
      if parseFloat_gt v 1000000 then tags4 ++ ["high-value"]
      else if parseFloat_gt v 100000 then tags4 ++ ["medium-value"]
      else tags4 ++ ["low-value"]
    else tags4 in
  dedupe [] (tags5 ++ [status_name (status r)]).

(** [VerifiedAirdropSchema.pre('save', ...)].  [isNew] and [loaded]
    stand for the change tracking of the document: [loaded] is the
    document as it was read from the collection, and every path of a
    new document counts as modified. *)
Definition preSave (now : Z) (isNew : bool) (loaded r : VerifiedAirdrop)
  : VerifiedAirdrop :=
  let r1 :=
    if (isNew || negb (bool_decide (verificationLevel loaded = verificationLevel r)))%bool
    then push_history
           {| h_date := now;
              h_action := "Verification level changed to " +:+ level_name (verificationLevel r);
              h_by := "system";
              h_details := Some "Previous level: true" |} r
    else r in
  let r2 :=
    if (isNew || negb (bool_decide (loaded = r1)))%bool
    then set_lastVerified now r1 else r1 in
  match tags r2 with
  | [] => set_tags (toLowerCase <$> generateAutoTags r2) r2
  | _ :: _ => r2
  end.

(** *** The collection *)

Fixpoint findFrom (q : VerifiedAirdrop -> bool) (i : nat) (s : Store)
  : option (nat * VerifiedAirdrop) :=
  match s with
  | [] => None
  | Some r :: rest => if q r then Some (i, r) else findFrom q (S i) rest
  | None :: rest => findFrom q (S i) rest
  end.

(** [Model.findOne(q)] *)
Definition findOne (q : VerifiedAirdrop -> bool) (s : Store)
  : option (nat * VerifiedAirdrop) :=
  findFrom q 0 s.

Fixpoint findAllFrom (q : VerifiedAirdrop -> bool) (i : nat) (s : Store)
  : list (nat * VerifiedAirdrop) :=
  match s with
  | [] => []
  | Some r :: rest =>
      if q r then (i, r) :: findAllFrom q (S i) rest else findAllFrom q (S i) rest
  | None :: rest => findAllFrom q (S i) rest
  end.

(** [Model.find(q)] *)
Definition findAll (q : VerifiedAirdrop -> bool) (s : Store)
  : list (nat * VerifiedAirdrop) :=
  findAllFrom q 0 s.

(** [Model.updateOne(q, { $set: ... })]: the first match is updated; no
    document middleware runs. *)
Fixpoint updateOne (q : VerifiedAirdrop -> bool) (f : VerifiedAirdrop -> VerifiedAirdrop)
  (s : Store) : Store :=
  match s with
  | [] => []
  | Some r :: rest =>
      if q r then Some (f r) :: rest else Some r :: updateOne q f rest
  | None :: rest => None :: updateOne q f rest
  end.

(** [Model.updateMany(q, { $set: ... })] *)
Definition updateMany (q : VerifiedAirdrop -> bool) (f : VerifiedAirdrop -> VerifiedAirdrop)
  (s : Store) : Store :=
  (fun o : option VerifiedAirdrop =>
     match o with
     | Some r => Some (if q r then f r else r)
     | None => None
     end) <$> s.

(** [Model.deleteMany(q)] *)
Definition deleteMany (q : VerifiedAirdrop -> bool) (s : Store) : Store :=
  (fun o : option VerifiedAirdrop =>
     match o with
     | Some r => if q r then None else Some r
     | None => None
     end) <$> s.

(** The unique index declared by [contractAddress: { ..., unique: true }]:
    the key is the contract address alone. *)
Definition uniqueKeyTaken (r : VerifiedAirdrop) (s : Store) : bool :=
  existsb (fun o => match o with
                    | Some r' => bool_decide (contractAddress r' = contractAddress r)
                    | None => false
                    end) s.

(** [doc.save()] of a new document: validation, the pre-save hook, then
    the insert, which the unique index may refuse. *)
Definition saveNew (now : Z) (r : VerifiedAirdrop) (s : Store)
  : exc VerifiedAirdrop * Store :=
  if negb (validate r) then (Throw "VerifiedAirdrop validation failed", s)
  else
    let r' := preSave now true r r in
    if uniqueKeyTaken r' s then (Throw "E11000 duplicate key error", s)
    else (Ok r', s ++ [Some r']).

(** [doc.save()] of a document read from slot [i] as [loaded] and
    changed in memory to [r]. *)
Definition saveExisting (now : Z) (i : nat) (loaded r : VerifiedAirdrop) (s : Store)
  : exc VerifiedAirdrop * Store :=
  if negb (validate r) then (Throw "VerifiedAirdrop validation failed", s)
  else
    let r' := preSave now false loaded r in
    match s !! i with
    | Some (Some _) => (Ok r', <[i := Some r']> s)
    | _ => (Throw "No document found for query", s)
    end.

(** [VerifiedAirdropSchema.methods.incrementViews], the in-memory part *)
Definition incrementViews_doc (r : VerifiedAirdrop) : VerifiedAirdrop :=
  set_analytics
    (mkAnalytics (S (views (analytics r))) (claims (analytics r))
       (successfulClaims (analytics r))) r.

(** [VerifiedAirdropSchema.methods.updateVerificationLevel], the
    in-memory part *)
Definition updateVerificationLevel_doc (now : Z) (newLevel : VerificationLevel)
  (updatedBy : string) (details : option string) (r : VerifiedAirdrop) : VerifiedAirdrop :=
  let oldLevel := verificationLevel r in
  push_history
    {| h_date := now;
       h_action := "Verification level changed from " +:+ level_name oldLevel
                   +:+ " to " +:+ level_name newLevel;
       h_by := updatedBy;
       h_details := details |}
    (set_verificationLevel newLevel r).

(** [VerifiedAirdropSchema.methods.addRiskWarning], the in-memory part *)
Definition addRiskWarning_doc (warning : string) (factor : option string)
  (r : VerifiedAirdrop) : VerifiedAirdrop :=
  let warnings1 :=
    if negb (includes (warnings (risks r)) warning)
    then warnings (risks r) ++ [warning] else warnings (risks r) in
  let factors1 :=
    if (truthy factor && negb (includes (factors (risks r)) (default "" factor)))%bool
    then factors (risks r) ++ [default "" factor] else factors (risks r) in
  let level1 :=
    if (3 <=? length warnings1)%nat then high
    else if (2 <=? length warnings1)%nat then medium
    else risk_level (risks r) in
  set_risks (mkRisks level1 factors1 warnings1) r.

(** The three methods end with [return this.save()]. *)
Definition incrementViews (now : Z) (i : nat) (r : VerifiedAirdrop) (s : Store)
  : exc VerifiedAirdrop * Store :=
  saveExisting now i r (incrementViews_doc r) s.

Definition updateVerificationLevel (now : Z) (i : nat) (r : VerifiedAirdrop)
  (newLevel : VerificationLevel) (updatedBy : string) (details : option string)
  (s : Store) : exc VerifiedAirdrop * Store :=
  saveExisting now i r (updateVerificationLevel_doc now newLevel updatedBy details r) s.

Definition addRiskWarning (now : Z) (i : nat) (r : VerifiedAirdrop)
  (warning : string) (factor : option string) (s : Store)
  : exc VerifiedAirdrop * Store :=
  saveExisting now i r (addRiskWarning_doc warning factor r) s.

(** *** The sync service: [airdropSyncService.ts] *)

(** [mapSourceType] *)
Definition mapSourceType (source : string) : SourceType :=
  if includes ["coingecko"; "github"] source then api
  else if includes ["airdrop-alert"] source then scraping
  else if includes ["known-defi"] source then manual
  else api.

(** [calculateSourceConfidence]: [confidenceMap[source] || 50] *)
Definition calculateSourceConfidence (source : string) : Z :=
  if bool_decide (source = "coingecko") then 90
  else if bool_decide (source = "known-defi") then 95
  else if bool_decide (source = "airdrop-alert") then 70
  else if bool_decide (source = "github") then 60
  else 50.

(** [airdropData.website || 'https://unknown.com'] *)
Definition sourceUrl (c : Candidate) : string :=
  or_else (c_website c) "https://unknown.com".

Definition newSource (now : Z) (c : Candidate) : Source :=
  {| src_type := mapSourceType (c_source c);
     url := sourceUrl c;
     lastUpdated := now;
     confidence := calculateSourceConfidence (c_source c) |}.

Definition trusted (source : string) : bool :=
  includes ["coingecko"; "known-defi"] source.

(** The document built by [new VerifiedAirdrop({...})] in
    [createNewVerifiedAirdrop], schema setters and defaults applied. *)
Definition newVerifiedAirdrop (now : Z) (c : Candidate) : VerifiedAirdrop :=
  let verificationLevel0 := if trusted (c_source c) then community else unverified in
  let riskLevel := if trusted (c_source c) then low else medium in
  {| name := trim (c_name c);
     symbol := toUpperCase (trim (c_symbol c));
     contractAddress := toLowerCase (or_else (c_contractAddress c) "");
     tokenAddress :=
       toLowerCase (or_else (c_tokenAddress c) (or_else (c_contractAddress c) ""));
     blockchain := or_else (c_blockchain c) "ethereum";
     description := or_else (c_description c) (c_name c +:+ " token airdrop");
     website := trim <$> c_website c;
     twitter := trim <$> c_twitter c;
     endDate := c_endDate c;
     claimDeadline := None;
     totalValue := c_totalValue c;
     requirements := {| whitelistOnly := false; kyc := false |};
     status := default active (c_status c);
     verificationLevel := verificationLevel0;
     sources := [newSource now c];
     contractInfo := {| ci_verified := false; ci_hasClaimFunction := false;
                        ci_owner := None; ci_lastActivity := None |};
     distribution_method := claim;
     risks := {| risk_level := riskLevel; factors := []; warnings := [] |};
     tags := [];
     metadata :=
       {| addedBy := "system"; addedAt := now; lastVerified := now;
          verificationHistory :=
            [ {| h_date := now;
                 h_action := "Airdrop created from external source";
                 h_by := "system";
                 h_details := Some ("Source: " +:+ c_source c) |} ] |};
     analytics := {| views := 0; claims := 0; successfulClaims := 0 |} |}.

(** [createNewVerifiedAirdrop]: [null] is [None].  The mirrored legacy
    record goes to a collection of its own and [createLegacyAirdrop]
    swallows its errors, so it has no effect on this collection or on
    the result. *)
Definition createNewVerifiedAirdrop (now : Z) (c : Candidate) (s : Store)
  : option VerifiedAirdrop * Store :=
  match saveNew now (newVerifiedAirdrop now c) s with
  | (Ok saved, s') => (Some saved, s')
  | (Throw _, s') => (None, s')
  end.

(** The assignments of [updateExistingAirdrop] on the document in
    memory, before [save()]. *)
Definition mergeCandidate (now : Z) (existing : VerifiedAirdrop) (newData : Candidate)
  : VerifiedAirdrop :=
  let r1 :=
    if (truthy (c_description newData)
        && differs (c_description newData) (Some (description existing)))%bool
    then set_description (default "" (c_description newData)) existing
    else existing in
  let r2 :=
    if (truthy (c_website newData) && differs (c_website newData) (website r1))%bool
    then set_website (trim <$> c_website newData) r1
    else r1 in
  let r3 :=
    match c_endDate newData with
    | Some newEndDate =>
        match endDate r2 with
        | None => set_endDate (Some newEndDate) r2
        | Some old =>
            if negb (bool_decide (newEndDate = old))
            then set_endDate (Some newEndDate) r2 else r2
        end
    | None => r2
    end in
  let r4 :=
    if (truthy (c_totalValue newData)
        && differs (c_totalValue newData) (totalValue r3))%bool
    then set_totalValue (c_totalValue newData) r3
    else r3 in
  let sourceExists :=
    existsb (fun source => bool_decide (url source = sourceUrl newData)) (sources r4) in
  let r5 :=
    if negb sourceExists
    then set_sources (sources r4 ++ [newSource now newData]) r4
    else r4 in
  set_lastVerified now r5.

(** [updateExistingAirdrop]: the error of [save()] is logged and thrown
    again. *)
Definition updateExistingAirdrop (now : Z) (i : nat) (existingAirdrop : VerifiedAirdrop)
  (newData : Candidate) (s : Store) : exc unit * Store :=
  match saveExisting now i existingAirdrop (mergeCandidate now existingAirdrop newData) s with
  | (Ok _, s') => (Ok tt, s')
  | (Throw e, s') => (Throw e, s')
  end.

(** The first [$set] of [verifyAndUpdateContract]. *)
Definition setContractInfo (now : Z) (info : ChainProbe.ContractInfo)
  (r : VerifiedAirdrop) : VerifiedAirdrop :=
  set_lastVerified now
    (set_contractInfo
       {| ci_verified := ChainProbe.verified info;
          ci_hasClaimFunction := default false (ChainProbe.hasClaimFunction info);
          ci_owner := toLowerCase <$> ChainProbe.owner info;
          ci_lastActivity := ChainProbe.lastActivity info |} r).

(** The second [$set]: [verificationLevel: 'community', 'risks.level': 'low']. *)
Definition raiseToCommunity (r : VerifiedAirdrop) : VerifiedAirdrop :=
  set_risk_level low (set_verificationLevel community r).

Definition hasAddress (addr : string) (r : VerifiedAirdrop) : bool :=
  bool_decide (contractAddress r = toLowerCase addr).

(** [verifyAndUpdateContract]: every error is caught and logged. *)
Definition verifyAndUpdateContract (now : Z) (addr chain : string) (s : Store) : Store :=
  match verifyContract contractVerificationService addr chain with
  | Throw _ => s
  | Ok contractInfo =>
      let s1 := updateOne (hasAddress addr) (setContractInfo now contractInfo) s in
      if (ChainProbe.verified contractInfo && ChainProbe.isValid contractInfo)%bool
      then updateOne
             (fun r => (hasAddress addr r
                        && bool_decide (verificationLevel r = unverified))%bool)
             raiseToCommunity s1
      else s1
  end.

(** The [$or] filter of [processAirdropData]. *)
Definition identityQuery (c : Candidate) (r : VerifiedAirdrop) : bool :=
  (bool_decide (c_contractAddress c = Some (contractAddress r))
   || bool_decide (c_tokenAddress c = Some (tokenAddress r))
   || (bool_decide (c_name c = name r) && bool_decide (c_symbol c = symbol r)))%bool.

Definition incNew (res : SyncResult) : SyncResult :=
  mkSyncResult (S (newAirdrops res)) (updatedAirdrops res) (verifiedContracts res)
    (errors res) (lastSync res).
Definition incUpdated (res : SyncResult) : SyncResult :=
  mkSyncResult (newAirdrops res) (S (updatedAirdrops res)) (verifiedContracts res)
    (errors res) (lastSync res).
Definition incVerified (res : SyncResult) : SyncResult :=
  mkSyncResult (newAirdrops res) (updatedAirdrops res) (S (verifiedContracts res))
    (errors res) (lastSync res).
Definition pushError (msg : string) (res : SyncResult) : SyncResult :=
  mkSyncResult (newAirdrops res) (updatedAirdrops res) (verifiedContracts res)
    (errors res ++ [msg]) (lastSync res).

(** [processAirdropData]: the outcome, the [result] object and the
    collection after the call. *)
Definition processAirdropData (now : Z) (airdropData : Candidate)
  (result : SyncResult) (s : Store) : exc unit * SyncResult * Store :=
  let step1 :=
    match findOne (identityQuery airdropData) s with
    | Some (i, existingAirdrop) =>
        match updateExistingAirdrop now i existingAirdrop airdropData s with
        | (Ok _, s') => (Ok tt, incUpdated result, s')
        | (Throw e, s') => (Throw e, result, s')
        end
    | None =>
        match createNewVerifiedAirdrop now airdropData s with
        | (Some _, s') => (Ok tt, incNew result, s')
        | (None, s') => (Ok tt, result, s')
        end
    end in
  match step1 with
  | (Throw e, result1, s1) => (Throw e, result1, s1)
  | (Ok _, result1, s1) =>
      if truthy (c_contractAddress airdropData)
      then (Ok tt, incVerified result1,
            verifyAndUpdateContract now (default "" (c_contractAddress airdropData))
              (default "ethereum" (c_blockchain airdropData)) s1)
      else (Ok tt, result1, s1)
  end.

Definition isOpen (r : VerifiedAirdrop) : bool :=
  (bool_decide (status r = active) || bool_decide (status r = upcoming))%bool.

(** [{ field: { $lt: now } }]: an absent date does not match. *)
Definition dateBefore (d : option Z) (now : Z) : bool :=
  match d with Some t => bool_decide (t < now) | None => false end.

Definition expiredQuery (now : Z) (r : VerifiedAirdrop) : bool :=
  (isOpen r && (dateBefore (endDate r) now || dateBefore (claimDeadline r) now))%bool.

Definition livenessQuery (r : VerifiedAirdrop) : bool :=
  (isOpen r && negb (bool_decide (contractAddress r = "")))%bool.

(** One turn of the liveness loop of [updateExistingAirdrops]; the
    [catch] of the loop body continues with the next document. *)
Definition livenessStep (now : Z) (s : Store) (ia : nat * VerifiedAirdrop) : Store :=
  let '(i, a) := ia in
  match isAirdropActive contractVerificationService (contractAddress a) (blockchain a) with
  | Throw _ => s
  | Ok isActive =>
      if (negb isActive && bool_decide (status a = active))%bool
      then snd (saveExisting now i a (set_status ended a) s)
      else s
  end.

(** [updateExistingAirdrops]: the maintenance pass. *)
Definition updateExistingAirdrops (now : Z) (s : Store) : Store :=
  let s1 := updateMany (expiredQuery now) (set_status ended) s in
  let activeAirdrops := findAll livenessQuery s1 in
  fold_left (livenessStep now) activeAirdrops s1.

Definition obsoleteQuery (now : Z) (r : VerifiedAirdrop) : bool :=
  (bool_decide (status r = ended)
   && bool_decide (lastVerified (metadata r) < threeMonthsBefore now)
   && bool_decide (views (analytics r) < 10)%nat
   && bool_decide (verificationLevel r = unverified))%bool.

(** [cleanupObsoleteData] *)
Definition cleanupObsoleteData (now : Z) (s : Store) : Store :=
  deleteMany (obsoleteQuery now) s.

(** [updateAirdropStatus] *)
Definition updateAirdropStatus (now : Z) (addr : string) (st : Status) (s : Store) : Store :=
  updateOne (hasAddress addr) (fun r => set_lastVerified now (set_status st r)) s.

(** [existing.contractInfo.lastActivity = event.timestamp] *)
Definition set_lastActivity (t : Z) (r : VerifiedAirdrop) : VerifiedAirdrop :=
  set_contractInfo
    (mkContractInfoDoc (ci_verified (contractInfo r)) (ci_hasClaimFunction (contractInfo r))
       (ci_owner (contractInfo r)) (Some t)) r.

(** The candidate synthesised by [processDetectedAirdrop]. *)
Definition detectedCandidate (event : AirdropEvent) (info : ChainProbe.ContractInfo)
  : Candidate :=
  {| c_name := or_else (ChainProbe.name info)
                 ("Token " +:+ slice0 8 (e_contractAddress event));
     c_symbol := or_else (ChainProbe.symbol info) "UNKNOWN";
     c_contractAddress := Some (e_contractAddress event);
     c_tokenAddress := Some (or_else (e_tokenAddress event) (e_contractAddress event));
     c_blockchain := Some (e_blockchain event);
     c_description :=
       Some ("Airdrop detectado automáticamente en blockchain " +:+ e_blockchain event);
     c_website := None; c_twitter := None; c_endDate := None; c_totalValue := None;
     c_status := Some active;
     c_source := "monitoring" |}.

(** [processDetectedAirdrop]: the event-driven path. *)
Definition processDetectedAirdrop (now : Z) (event : AirdropEvent) (s : Store) : Store :=
  match findOne (hasAddress (e_contractAddress event)) s with
  | Some (i, existing) =>
      snd (saveExisting now i existing
             (set_lastVerified now (set_lastActivity (e_timestamp event) existing)) s)
  | None =>
      match verifyContract contractVerificationService
              (e_contractAddress event) (e_blockchain event) with
      | Throw _ => s
      | Ok contractInfo =>
          if negb (ChainProbe.isValid contractInfo) then s
          else snd (createNewVerifiedAirdrop now (detectedCandidate event contractInfo) s)
      end
  end.

(** *** [syncRealAirdrops] and its single-flight guard *)

(** The fields of the service object. *)
Record Service := mkService {
  isSyncing : bool;
  lastSyncResult : option SyncResult
}.

Definition syncInProgressMessage : string := "Ya hay una sincronización en progreso".

Definition freshResult (now : Z) : SyncResult :=
  {| newAirdrops := 0; updatedAirdrops := 0; verifiedContracts := 0;
     errors := []; lastSync := now |}.

(** The head of [syncRealAirdrops], up to the [try]: the check of the
    flag, its setting and the fresh [result].  No [await] separates the
    check from the setting. *)
Definition syncEnter (now : Z) (svc : Service) : exc SyncResult * Service :=
  if isSyncing svc then (Throw syncInProgressMessage, svc)
  else (Ok (freshResult now),
        {| isSyncing := true; lastSyncResult := lastSyncResult svc |}).

(** The [for] loop over the fetched candidates, with its [catch]. *)
Definition processCandidates (now : Z) (realAirdrops : list Candidate)
  (result : SyncResult) (s : Store) : SyncResult * Store :=
  fold_left
    (fun (acc : SyncResult * Store) airdropData =>
       match processAirdropData now airdropData (fst acc) (snd acc) with
       | (Ok _, result', s') => (result', s')
       | (Throw e, result', s') =>
           (pushError ("Error procesando " +:+ c_name airdropData +:+ ": " +:+ e) result', s')
       end)
    realAirdrops (result, s).

(** The [try] block and the [catch] of [syncRealAirdrops].  [fetched]
    is the outcome of [realAirdropService.fetchRealAirdrops()];
    [updateStatistics] only reads and logs. *)
Definition syncTry (now : Z) (fetched : exc (list Candidate)) (result : SyncResult)
  (svc : Service) (s : Store) : SyncResult * Service * Store :=
  match fetched with
  | Ok realAirdrops =>
      let '(result1, s1) := processCandidates now realAirdrops result s in
      let s2 := updateExistingAirdrops now s1 in
      let s3 := cleanupObsoleteData now s2 in
      (result1, {| isSyncing := isSyncing svc; lastSyncResult := Some result1 |}, s3)
  | Throw e =>
      (pushError ("Error general: " +:+ e) result, svc, s)
  end.

(** The [finally] block. *)
Definition syncFinally (svc : Service) : Service :=
  {| isSyncing := false; lastSyncResult := lastSyncResult svc |}.


(** The service under concurrent callers.  An invocation suspends at
    its first [await]; [running] holds the [result] objects of the
    invocations that are past the guard and not yet settled. *)
Record Sys := mkSys {
  service : Service;
  store : Store;
  running : list SyncResult
}.

Inductive Call :=
| Invoke (now : Z)
| Settle (now : Z) (fetched : exc (list Candidate)).

(** One turn: the new state and what the turn answers to its caller
    ([None] when nothing is answered yet). *)
Definition sysStep (sys : Sys) (c : Call) : Sys * option (exc SyncResult) :=
  match c with
  | Invoke now =>
      match syncEnter now (service sys) with
      | (Throw e, svc') =>
          ({| service := svc'; store := store sys; running := running sys |},
           Some (Throw e))
      | (Ok result, svc') =>
          ({| service := svc'; store := store sys; running := running sys ++ [result] |},
           None)
      end
  | Settle now fetched =>
      match running sys with
      | [] => (sys, None)
      | result :: rest =>
          let '(result', svc', s') := syncTry now fetched result (service sys) (store sys) in
          ({| service := syncFinally svc'; store := s'; running := rest |},
           Some (Ok result'))
      end
  end.

Definition sysRun (sys : Sys) (calls : list Call) : Sys :=
  fold_left (fun st c => fst (sysStep st c)) calls sys.

Definition idle (s : Store) : Sys :=
  {| service := {| isSyncing := false; lastSyncResult := None |};
     store := s; running := [] |}.

(** *** Predicates used in the statements *)

(** The collection respects its unique index. *)
Definition addresses (s : Store) : list string :=
  omap (fun o : option VerifiedAirdrop => contractAddress <$> o) s.

Definition uniqueIndex (s : Store) : Prop := NoDup (addresses s).

(** At most one document of the collection satisfies [q]. *)
Definition atMostOne (q : VerifiedAirdrop -> bool) (s : Store) : Prop :=
  forall i j r1 r2,
    s !! i = Some (Some r1) -> s !! j = Some (Some r2) ->
    q r1 = true -> q r2 = true -> i = j.

(** The probe reports the contract verified and code-valid. *)
Definition probeConfirms (addr chain : string) : bool :=
  match verifyContract contractVerificationService addr chain with
  | Ok contractInfo => (ChainProbe.verified contractInfo && ChainProbe.isValid contractInfo)%bool
  | Throw _ => false
  end.

(** What the liveness loop may leave in a slot: the document it found
    there, or that document saved with status [ended]. *)
Definition livenessOutcome (now : Z) (x y : VerifiedAirdrop) : Prop :=
  y = x \/
  (livenessQuery x = true /\ status x = active /\
   y = preSave now false x (set_status ended x)).

(** The audit log of a record. *)
Definition history (r : VerifiedAirdrop) : list HistoryEntry :=
  verificationHistory (metadata r).

(** From [s] to [s'] no record lost an entry of its audit log: a slot
    keeps its record with the old log as a prefix of the new one, or
    the record was deleted as a whole; an emptied slot stays empty. *)
Definition historyGrows (s s' : Store) : Prop :=
  forall i,
    match s !! i with
    | Some (Some r) =>
        s' !! i = Some None \/
        exists r', s' !! i = Some (Some r') /\ history r `prefix_of` history r'
    | Some None => s' !! i = Some None
    | None => True
    end.

(** The operations that write the collection.  A schema method is
    called on the document just read from its slot.  [recordClaim] is
    left out: it computes with floating point numbers, and it writes
    [analytics] and [claimedUsers] only. *)
Inductive Op :=
| OpSync (now : Z) (fetched : exc (list Candidate))
| OpDetected (now : Z) (event : AirdropEvent)
| OpClaimOpened (now : Z) (addr : string)
| OpIncrementViews (now : Z) (i : nat)
| OpUpdateVerificationLevel (now : Z) (i : nat) (newLevel : VerificationLevel)
    (updatedBy : string) (details : option string)
| OpAddRiskWarning (now : Z) (i : nat) (warning : string) (factor : option string).

Definition withDocument (i : nat) (s : Store)
  (method : VerifiedAirdrop -> exc VerifiedAirdrop * Store) : Store :=
  match s !! i with
  | Some (Some r) => snd (method r)
  | _ => s
  end.

Definition applyOp (op : Op) (s : Store) : Store :=
  match op with
  | OpSync now fetched =>
      snd (syncTry now fetched (freshResult now)
             {| isSyncing := true; lastSyncResult := None |} s)
  | OpDetected now event => processDetectedAirdrop now event s
  | OpClaimOpened now addr => updateAirdropStatus now addr active s
  | OpIncrementViews now i =>
      withDocument i s (fun r => incrementViews now i r s)
  | OpUpdateVerificationLevel now i newLevel updatedBy details =>
      withDocument i s (fun r => updateVerificationLevel now i r newLevel updatedBy details s)
  | OpAddRiskWarning now i warning factor =>
      withDocument i s (fun r => addRiskWarning now i r warning factor s)
  end.

(** *** Facts about the collection operations *)

Lemma findFrom_spec q : forall s k i r,
  findFrom q k s = Some (i, r) ->
  exists j, i = (k + j)%nat /\ s !! j = Some (Some r) /\ q r = true /\
    forall j' r', (j' < j)%nat -> s !! j' = Some (Some r') -> q r' = false.
Proof.
  induction s as [|[x|] s IH]; intros k i r H; simpl in H; [discriminate| |].
  - destruct (q x) eqn:Hq.
    + inversion H; subst. exists 0%nat.
      split; [lia|]. split; [reflexivity|]. split; [exact Hq|].
      intros j' r' Hlt _. lia.
    + apply IH in H as (j & -> & Hj & Hqr & Hmin).
      exists (S j).
      split; [lia|]. split; [exact Hj|]. split; [exact Hqr|].
      intros [|j'] r' Hlt Hl; simpl in Hl.
      * inversion Hl; subst; exact Hq.
      * apply (Hmin j'); [lia|exact Hl].
  - apply IH in H as (j & -> & Hj & Hqr & Hmin).
    exists (S j).
    split; [lia|]. split; [exact Hj|]. split; [exact Hqr|].
    intros [|j'] r' Hlt Hl; simpl in Hl; [discriminate|].
    apply (Hmin j'); [lia|exact Hl].
Qed.

Lemma findFrom_none q : forall s k,
  findFrom q k s = None ->
  forall j r, s !! j = Some (Some r) -> q r = false.
Proof.
  induction s as [|[x|] s IH]; intros k H j r Hl; simpl in H.
  - destruct j; discriminate.
  - destruct (q x) eqn:Hq; [discriminate|].
    destruct j as [|j]; simpl in Hl.
    + inversion Hl; subst; exact Hq.
    + eapply IH; eauto.
  - destruct j as [|j]; simpl in Hl; [discriminate|]. eapply IH; eauto.
Qed.

Lemma findOne_spec q s i r :
  findOne q s = Some (i, r) ->
  s !! i = Some (Some r) /\ q r = true /\
  forall j r', (j < i)%nat -> s !! j = Some (Some r') -> q r' = false.
Proof.
  intros H. apply findFrom_spec in H as (j & -> & H1 & H2 & H3). auto.
Qed.

Lemma findOne_none q s :
  findOne q s = None -> forall j r, s !! j = Some (Some r) -> q r = false.
Proof. apply findFrom_none. Qed.

Lemma updateMany_lookup q f (s : Store) i :
  updateMany q f s !! i =
  match s !! i with
  | Some (Some r) => Some (Some (if q r then f r else r))
  | Some None => Some None
  | None => None
  end.
Proof.
  unfold updateMany. rewrite list_lookup_fmap.
  destruct (s !! i) as [[r|]|]; reflexivity.
Qed.

Lemma deleteMany_lookup q (s : Store) i :
  deleteMany q s !! i =
  match s !! i with
  | Some (Some r) => Some (if q r then None else Some r)
  | Some None => Some None
  | None => None
  end.
Proof.
  unfold deleteMany. rewrite list_lookup_fmap.
  destruct (s !! i) as [[r|]|]; reflexivity.
Qed.

(** [updateOne] changes at most the documents that satisfy the filter,
    and changes them by [f]. *)
Lemma updateOne_lookup q f : forall (s : Store) i,
  updateOne q f s !! i =
  match s !! i with
  | Some (Some r) =>
      Some (Some (if bool_decide (fst <$> findOne q s = Some i) then f r else r))
  | Some None => Some None
  | None => None
  end.
Proof.
  unfold findOne.
  assert (G : forall (s : Store) k i,
    updateOne q f s !! i =
    match s !! i with
    | Some (Some r) =>
        Some (Some (if bool_decide (fst <$> findFrom q k s = Some (k + i)%nat)
                    then f r else r))
    | Some None => Some None
    | None => None
    end).
  { induction s as [|[x|] s IH]; intros k i; simpl.
    - reflexivity.
    - destruct (q x) eqn:Hq.
      + destruct i as [|i]; simpl.
        * rewrite bool_decide_eq_true_2; [reflexivity|f_equal; lia].
        * destruct (s !! i) as [[r|]|]; try reflexivity.
          rewrite bool_decide_eq_false_2; [reflexivity|].
          intros E. inversion E. lia.
      + destruct i as [|i]; simpl.
        * rewrite bool_decide_eq_false_2; [reflexivity|].
          destruct (findFrom q (S k) s) as [[j r]|] eqn:E; [|discriminate].
          apply findFrom_spec in E as (j' & -> & _). simpl. intros E. inversion E. lia.
        * rewrite (IH (S k) i).
          replace (S k + i)%nat with (k + S i)%nat by lia. reflexivity.
    - destruct i as [|i]; simpl; [reflexivity|].
      rewrite (IH (S k) i).
      replace (S k + i)%nat with (k + S i)%nat by lia. reflexivity. }
  intros s i. apply (G s 0%nat i).
Qed.

Lemma updateOne_length q f (s : Store) : length (updateOne q f s) = length s.
Proof.
  induction s as [|[x|] s IH]; simpl; [reflexivity| |]; [destruct (q x)|]; simpl; congruence.
Qed.

Lemma updateMany_length q f (s : Store) : length (updateMany q f s) = length s.
Proof. unfold updateMany. apply length_fmap. Qed.

(** Under a filter that at most one document satisfies, [updateOne]
    acts as [updateMany]. *)
Lemma updateOne_unique q f (s : Store) :
  atMostOne q s -> updateOne q f s = updateMany q f s.
Proof.
  intros Hu. apply list_eq. intros i.
  rewrite updateOne_lookup, updateMany_lookup.
  destruct (s !! i) as [[r|]|] eqn:Hi; try reflexivity.
  do 2 f_equal.
  destruct (findOne q s) as [[j r']|] eqn:Hf; simpl.
  - apply findOne_spec in Hf as (Hj & Hq & _).
    destruct (q r) eqn:Hqr.
    + rewrite bool_decide_eq_true_2; [reflexivity|].
      f_equal. eapply Hu; eauto.
    + rewrite bool_decide_eq_false_2; [reflexivity|].
      intros E. inversion E; subst. congruence.
  - rewrite (findOne_none _ _ Hf _ _ Hi).
    first [reflexivity | case_bool_decide; [discriminate|reflexivity]].
Qed.

Lemma addresses_lookup : forall (s : Store) i r,
  s !! i = Some (Some r) -> contractAddress r ∈ addresses s.
Proof.
  intros s i r H. unfold addresses. apply list_elem_of_omap.
  exists (Some r). split; [|reflexivity]. eapply list_elem_of_lookup_2; eauto.
Qed.

Lemma uniqueIndex_lookup : forall (s : Store) i j r1 r2,
  uniqueIndex s ->
  s !! i = Some (Some r1) -> s !! j = Some (Some r2) ->
  contractAddress r1 = contractAddress r2 -> i = j.
Proof.
  unfold uniqueIndex.
  induction s as [|[x|] s IH]; intros i j r1 r2 Hu Hi Hj E.
  - destruct i; discriminate.
  - simpl in Hu. apply NoDup_cons in Hu as [Hx Hu].
    destruct i as [|i], j as [|j]; simpl in *; auto.
    + inversion Hi; subst. exfalso. apply Hx. rewrite E.
      eapply addresses_lookup; eauto.
    + inversion Hj; subst. exfalso. apply Hx. rewrite <- E.
      eapply addresses_lookup; eauto.
    + f_equal. eapply IH; eauto.
  - simpl in Hu. destruct i as [|i], j as [|j]; simpl in *; try discriminate.
    f_equal. eapply IH; eauto.
Qed.

Lemma uniqueIndex_atMostOne addr (s : Store) :
  uniqueIndex s -> atMostOne (hasAddress addr) s.
Proof.
  intros Hu i j r1 r2 Hi Hj H1 H2. unfold hasAddress in *.
  apply bool_decide_eq_true in H1, H2.
  eapply uniqueIndex_lookup; eauto. congruence.
Qed.

(** *** Frame of the pre-save hook *)

(** The hook writes [metadata] and [tags] and nothing else. *)
Lemma preSave_frame now isNew loaded r :
  let r' := preSave now isNew loaded r in
  name r' = name r /\ symbol r' = symbol r /\
  contractAddress r' = contractAddress r /\ tokenAddress r' = tokenAddress r /\
  blockchain r' = blockchain r /\ description r' = description r /\
  website r' = website r /\ twitter r' = twitter r /\
  endDate r' = endDate r /\ claimDeadline r' = claimDeadline r /\
  totalValue r' = totalValue r /\ requirements r' = requirements r /\
  status r' = status r /\ verificationLevel r' = verificationLevel r /\
  sources r' = sources r /\ contractInfo r' = contractInfo r /\
  distribution_method r' = distribution_method r /\ risks r' = risks r /\
  analytics r' = analytics r.
Proof.
  unfold preSave.
  destruct (isNew || negb (bool_decide (verificationLevel loaded = verificationLevel r)))%bool;
    match goal with
    | |- context [ (isNew || negb (bool_decide (loaded = ?x)))%bool ] =>
        destruct (isNew || negb (bool_decide (loaded = x)))%bool
    end;
    match goal with
    | |- context [ tags ?x ] => destruct (tags x)
    end; simpl; repeat split; reflexivity.
Qed.

Lemma preSave_status now isNew loaded r :
  status (preSave now isNew loaded r) = status r.
Proof. apply (preSave_frame now isNew loaded r). Qed.

Lemma preSave_verificationLevel now isNew loaded r :
  verificationLevel (preSave now isNew loaded r) = verificationLevel r.
Proof. apply (preSave_frame now isNew loaded r). Qed.

Lemma preSave_contractAddress now isNew loaded r :
  contractAddress (preSave now isNew loaded r) = contractAddress r.
Proof. apply (preSave_frame now isNew loaded r). Qed.

Lemma preSave_risks now isNew loaded r :
  risks (preSave now isNew loaded r) = risks r.
Proof. apply (preSave_frame now isNew loaded r). Qed.

(** What the hook does to the audit log: one entry when the level is
    modified, none otherwise. *)
Lemma preSave_history now isNew loaded r :
  verificationHistory (metadata (preSave now isNew loaded r)) =
  if (isNew || negb (bool_decide (verificationLevel loaded = verificationLevel r)))%bool
  then verificationHistory (metadata r) ++
       [ {| h_date := now;
            h_action := "Verification level changed to " +:+ level_name (verificationLevel r);
            h_by := "system";
            h_details := Some "Previous level: true" |} ]
  else verificationHistory (metadata r).
Proof.
  unfold preSave.
  destruct (isNew || negb (bool_decide (verificationLevel loaded = verificationLevel r)))%bool;
    match goal with
    | |- context [ (isNew || negb (bool_decide (loaded = ?x)))%bool ] =>
        destruct (isNew || negb (bool_decide (loaded = x)))%bool
    end;
    match goal with
    | |- context [ tags ?x ] => destruct (tags x)
    end; reflexivity.
Qed.

Lemma preSave_history_prefix now isNew loaded r :
  verificationHistory (metadata r) `prefix_of`
  verificationHistory (metadata (preSave now isNew loaded r)).
Proof.
  rewrite preSave_history.
  destruct (isNew || _)%bool; [apply prefix_app_r|]; reflexivity.
Qed.

(** What [saveExisting] leaves in the collection. *)
Lemma saveExisting_spec now i loaded r (s : Store) :
  match saveExisting now i loaded r s with
  | (Ok saved, s') =>
      validate r = true /\ saved = preSave now false loaded r /\
      is_Some (s !! i ≫= id) /\ s' = <[i := Some saved]> s
  | (Throw _, s') => s' = s
  end.
Proof.
  unfold saveExisting. destruct (validate r); simpl; [|reflexivity].
  destruct (s !! i) as [[x|]|] eqn:Hi; simpl; try reflexivity.
  repeat split; eauto.
Qed.

Lemma saveNew_spec now r (s : Store) :
  match saveNew now r s with
  | (Ok saved, s') =>
      validate r = true /\ saved = preSave now true r r /\
      uniqueKeyTaken saved s = false /\ s' = s ++ [Some saved]
  | (Throw _, s') => s' = s
  end.
Proof.
  unfold saveNew. destruct (validate r); simpl; [|reflexivity].
  destruct (uniqueKeyTaken _ s) eqn:E; simpl; auto.
Qed.

(** *** Contract enrichment *)

Lemma atMostOne_updateMany q q' f (s : Store) :
  (forall r, q' r = true -> q r = true) ->
  atMostOne q s -> atMostOne q' (updateMany q f s).
Proof.
  intros Hq' Hu i j r1 r2 Hi Hj H1 H2.
  rewrite updateMany_lookup in Hi, Hj.
  destruct (s !! i) as [[x|]|] eqn:Ei; try discriminate.
  destruct (s !! j) as [[y|]|] eqn:Ej; try discriminate.
  inversion Hi; inversion Hj; subst; clear Hi Hj.
  apply Hq' in H1, H2.
  apply (Hu i j x y Ei Ej).
  - destruct (q x) eqn:E; [reflexivity|congruence].
  - destruct (q y) eqn:E; [reflexivity|congruence].
Qed.

(** Whatever the collection holds, a slot keeps its level or goes from
    [unverified] to [community]. *)
Lemma verifyAndUpdateContract_slot now addr chain (s : Store) i r :
  s !! i = Some (Some r) ->
  exists r', verifyAndUpdateContract now addr chain s !! i = Some (Some r') /\
    (verificationLevel r' = verificationLevel r \/
     (verificationLevel r = unverified /\ verificationLevel r' = community /\
      risk_level (risks r') = low /\ probeConfirms addr chain = true /\
      hasAddress addr r = true)) /\
    verificationHistory (metadata r') = verificationHistory (metadata r) /\
    contractAddress r' = contractAddress r /\ status r' = status r.
Proof.
  intros Hi. unfold verifyAndUpdateContract, probeConfirms.
  destruct (verifyContract contractVerificationService addr chain) as [info|e].
  2:{ exists r. auto. }
  set (s1 := updateOne (hasAddress addr) (setContractInfo now info) s).
  assert (H1 : exists r1, s1 !! i = Some (Some r1) /\
            verificationLevel r1 = verificationLevel r /\
            verificationHistory (metadata r1) = verificationHistory (metadata r) /\
            contractAddress r1 = contractAddress r /\ status r1 = status r /\
            hasAddress addr r1 = hasAddress addr r).
  { unfold s1. rewrite updateOne_lookup, Hi.
    eexists; split; [reflexivity|]. case_bool_decide; simpl; auto. }
  destruct H1 as (r1 & Hs1 & Hl1 & Hh1 & Ha1 & Hst1 & Hq1).
  destruct (ChainProbe.verified info && ChainProbe.isValid info)%bool eqn:Hc.
  2:{ exists r1. auto 10. }
  rewrite updateOne_lookup, Hs1.
  eexists; split; [reflexivity|].
  case_bool_decide as Hf; simpl; [|auto 10].
  destruct (findOne _ s1) as [[j x]|] eqn:Ef; [|discriminate].
  simpl in Hf. inversion Hf; subst j.
  apply findOne_spec in Ef as (Hx & Hq & _).
  rewrite Hs1 in Hx. inversion Hx; subst x.
  apply andb_true_iff in Hq as [Hq Hu]. apply bool_decide_eq_true in Hu.
  split; [right|auto].
  repeat split; congruence.
Qed.

(** ** C1: the ratchet of contract enrichment *)

(** C1.  In a collection that respects its unique index, the enrichment
    step with any probe result (a raised error included) leaves every
    record in its slot; the record with the probed address that is
    [unverified] goes to [community] with [risks.level] [low] when the
    probe reports verified and code-valid; in every other case the
    level of the record is unchanged.  The level never decreases. *)
Theorem enrichment_ratchet now addr chain (s : Store) i r :
  uniqueIndex s ->
  s !! i = Some (Some r) ->
  exists r', verifyAndUpdateContract now addr chain s !! i = Some (Some r') /\
    (level_rank (verificationLevel r) <= level_rank (verificationLevel r'))%nat /\
    if (probeConfirms addr chain && hasAddress addr r
        && bool_decide (verificationLevel r = unverified))%bool
    then verificationLevel r' = community /\ risk_level (risks r') = low
    else verificationLevel r' = verificationLevel r.
Proof.
  intros Hu Hi.
  destruct (verifyAndUpdateContract_slot now addr chain s i r Hi)
    as (r' & Hr' & Hlev & _).
  exists r'. split; [exact Hr'|]. split.
  { destruct Hlev as [->|(-> & -> & _)]; simpl; lia. }
  destruct (probeConfirms addr chain && hasAddress addr r
            && bool_decide (verificationLevel r = unverified))%bool eqn:Hc.
  - apply andb_true_iff in Hc as [Hc Hunv]. apply andb_true_iff in Hc as [Hp Ha].
    apply bool_decide_eq_true in Hunv.
    revert Hr' Hp. unfold verifyAndUpdateContract, probeConfirms.
    destruct (verifyContract contractVerificationService addr chain) as [info|e];
      [|discriminate].
    intros Hr' Hp. rewrite Hp in Hr'.
    rewrite (updateOne_unique (hasAddress addr)) in Hr'
      by (apply uniqueIndex_atMostOne; exact Hu).
    rewrite updateOne_unique in Hr'.
    2:{ apply (atMostOne_updateMany (hasAddress addr)).
        - intros x Hx. apply andb_true_iff in Hx as [Hx _]. exact Hx.
        - apply uniqueIndex_atMostOne; exact Hu. }
    rewrite !updateMany_lookup, Hi, Ha in Hr'. simpl in Hr'.
    unfold hasAddress in Ha, Hr'. simpl in Hr'. rewrite Ha, Hunv in Hr'. simpl in Hr'.
    inversion Hr'; subst r'. simpl. auto.
  - destruct Hlev as [E|(Hunv & _ & _ & Hp & Ha)]; [exact E|].
    rewrite Hp, Ha, Hunv in Hc. discriminate.
Qed.

(** ** C9: the risk level after [addRiskWarning] *)

(** C9.  After [addRiskWarning] the risk level is [high] when the
    record has three warnings or more, [medium] when it has two, and
    the level it had before otherwise; a warning that is already
    present is not appended again; [save()] stores the record with
    these risks. *)
Theorem addRiskWarning_level_by_count warning factor r :
  let r' := addRiskWarning_doc warning factor r in
  let n := length (warnings (risks r')) in
  risk_level (risks r') =
    (if (3 <=? n)%nat then high
     else if (2 <=? n)%nat then medium
     else risk_level (risks r)) /\
  warnings (risks r') =
    (if includes (warnings (risks r)) warning
     then warnings (risks r)
     else warnings (risks r) ++ [warning]) /\
  forall now i (s : Store),
    match addRiskWarning now i r warning factor s with
    | (Ok saved, s') => risks saved = risks r' /\ s' !! i = Some (Some saved)
    | (Throw _, s') => s' = s
    end.
Proof.
  unfold addRiskWarning_doc. simpl.
  split; [reflexivity|]. split.
  { destruct (includes (warnings (risks r)) warning); reflexivity. }
  intros now i s. unfold addRiskWarning.
  pose proof (saveExisting_spec now i r (addRiskWarning_doc warning factor r) s) as H.
  destruct (saveExisting _ _ _ _ _) as [[saved|e] s']; [|exact H].
  destruct H as (_ & -> & Hsome & ->).
  split; [apply preSave_risks|].
  apply list_lookup_insert_eq.
  destruct (s !! i) eqn:E; [|destruct Hsome; discriminate].
  eapply lookup_lt_Some; eauto.
Qed.

(** *** Identity resolution *)

(** ** C4: the identity key *)


(** *** Merge *)

(** The fields of the record after the assignments of the merge. *)
Lemma mergeCandidate_fields now existing c :
  forall m, m = mergeCandidate now existing c ->
    description m =
      (if (truthy (c_description c)
           && differs (c_description c) (Some (description existing)))%bool
       then default "" (c_description c) else description existing) /\
    website m =
      (if (truthy (c_website c) && differs (c_website c) (website existing))%bool
       then trim <$> c_website c else website existing) /\
    endDate m =
      match c_endDate c with
      | Some t => if bool_decide (endDate existing = Some t) then endDate existing else Some t
      | None => endDate existing
      end /\
    totalValue m =
      (if (truthy (c_totalValue c) && differs (c_totalValue c) (totalValue existing))%bool
       then c_totalValue c else totalValue existing) /\
    sources m =
      (if existsb (fun source => bool_decide (url source = sourceUrl c)) (sources existing)
       then sources existing else sources existing ++ [newSource now c]) /\
    metadata m =
      mkMetadata (addedBy (metadata existing)) (addedAt (metadata existing)) now
        (verificationHistory (metadata existing)) /\
    (status m = status existing /\ verificationLevel m = verificationLevel existing /\
     name m = name existing /\ symbol m = symbol existing /\
     contractAddress m = contractAddress existing /\
     tokenAddress m = tokenAddress existing /\ blockchain m = blockchain existing /\
     twitter m = twitter existing /\ claimDeadline m = claimDeadline existing /\
     requirements m = requirements existing /\ contractInfo m = contractInfo existing /\
     distribution_method m = distribution_method existing /\ risks m = risks existing /\
     tags m = tags existing /\ analytics m = analytics existing).
Proof.
  intros m ->. unfold mergeCandidate.
  destruct (truthy (c_description c)
            && differs (c_description c) (Some (description existing)))%bool;
  destruct (truthy (c_website c) && differs (c_website c) (website _))%bool;
  simpl;
  (destruct (c_endDate c) as [t|]; simpl;
   [destruct (endDate existing) as [old|] eqn:Eold; simpl;
    [destruct (bool_decide (t = old)) eqn:Et; simpl;
     [apply bool_decide_eq_true in Et; subst old;
      rewrite (bool_decide_eq_true_2 (Some t = Some t) eq_refl)
     |apply bool_decide_eq_false in Et;
      rewrite (bool_decide_eq_false_2 (Some old = Some t)) by congruence]
    |]
   |]);
  destruct (truthy (c_totalValue c) && differs (c_totalValue c) (totalValue _))%bool;
  simpl;
  destruct (existsb (fun source => bool_decide (url source = sourceUrl c))
              (sources existing));
  simpl; rewrite ?Eold; repeat split; reflexivity.
Qed.

(** ** C5: what a merge writes *)

(** C5 (as the code has it).  A merge overwrites description, website,
    endDate and totalValue, each only when the candidate's value is
    present and differs, and never with an empty or absent value; it
    appends a source entry only when the candidate's URL is not in
    [sources], so the old sources stay as a prefix; it sets
    [metadata.lastVerified] to the current time; it writes no other
    field, [status] in particular.  The saved record has these values,
    and the audit log of the record before the merge. *)
Theorem merge_writes now existing c :
  let m := mergeCandidate now existing c in
  description m =
    (if (truthy (c_description c)
         && differs (c_description c) (Some (description existing)))%bool
     then default "" (c_description c) else description existing) /\
  website m =
    (if (truthy (c_website c) && differs (c_website c) (website existing))%bool
     then trim <$> c_website c else website existing) /\
  endDate m =
    match c_endDate c with
    | Some t => if bool_decide (endDate existing = Some t) then endDate existing else Some t
    | None => endDate existing
    end /\
  totalValue m =
    (if (truthy (c_totalValue c) && differs (c_totalValue c) (totalValue existing))%bool
     then c_totalValue c else totalValue existing) /\
  sources m =
    (if existsb (fun source => bool_decide (url source = sourceUrl c)) (sources existing)
     then sources existing else sources existing ++ [newSource now c]) /\
  sources existing `prefix_of` sources m /\
  (length (sources existing) <= length (sources m))%nat /\
  metadata m =
    mkMetadata (addedBy (metadata existing)) (addedAt (metadata existing)) now
      (verificationHistory (metadata existing)) /\
  (status m = status existing /\ verificationLevel m = verificationLevel existing /\
   name m = name existing /\ symbol m = symbol existing /\
   contractAddress m = contractAddress existing /\
   tokenAddress m = tokenAddress existing /\ blockchain m = blockchain existing /\
   twitter m = twitter existing /\ claimDeadline m = claimDeadline existing /\
   requirements m = requirements existing /\ contractInfo m = contractInfo existing /\
   distribution_method m = distribution_method existing /\ risks m = risks existing /\
   tags m = tags existing /\ analytics m = analytics existing) /\
  forall i (s : Store),
    match updateExistingAirdrop now i existing c s with
    | (Ok _, s') =>
        exists saved, s' !! i = Some (Some saved) /\
          description saved = description m /\ website saved = website m /\
          endDate saved = endDate m /\ totalValue saved = totalValue m /\
          sources saved = sources m /\ status saved = status existing /\
          verificationLevel saved = verificationLevel existing /\
          verificationHistory (metadata saved) = verificationHistory (metadata existing)
    | (Throw _, s') => s' = s
    end.
Proof.
  pose proof (mergeCandidate_fields now existing c) as Hm.
  intros m.
  destruct (Hm m eq_refl) as (Hd & Hw & He & Ht & Hs & Hmeta & Hrest).
  split; [exact Hd|]. split; [exact Hw|]. split; [exact He|]. split; [exact Ht|].
  split; [exact Hs|].
  split; [rewrite Hs; destruct (existsb _ _); [reflexivity|apply prefix_app_r; reflexivity]|].
  split; [rewrite Hs; destruct (existsb _ _); [lia|rewrite length_app; simpl; lia]|].
  split; [exact Hmeta|]. split; [exact Hrest|].
  intros i s. unfold updateExistingAirdrop.
  change (mergeCandidate now existing c) with m.
  pose proof (saveExisting_spec now i existing m s) as H.
  destruct (saveExisting _ _ _ _ _) as [[saved|e] s']; [|exact H].
  destruct H as (_ & -> & Hsome & ->).
  eexists. split.
  { apply list_lookup_insert_eq.
    destruct (s !! i) eqn:E; [|destruct Hsome; discriminate].
    eapply lookup_lt_Some; eauto. }
  pose proof (preSave_frame now false existing m) as F.
  cbv zeta in F. destruct F as
    (_ & _ & _ & _ & _ & Fd & Fw & _ & Fe & _ & Ft & _ & Fst & Fl & Fs & _).
  destruct Hrest as (Hst & Hlv & _).
  rewrite Fd, Fw, Fe, Ft, Fs, Fst, Fl.
  repeat split; try assumption.
  rewrite preSave_history. rewrite Hlv.
  rewrite bool_decide_eq_true_2 by reflexivity. cbn [orb negb].
  rewrite Hmeta. reflexivity.
Qed.

(** *** The maintenance pass *)

Lemma findAllFrom_spec q : forall (s : Store) k j a,
  (j, a) ∈ findAllFrom q k s ->
  exists j', j = (k + j')%nat /\ s !! j' = Some (Some a) /\ q a = true.
Proof.
  induction s as [|[x|] s IH]; intros k j a H; simpl in H.
  - inversion H.
  - destruct (q x) eqn:Hq.
    + apply elem_of_cons in H as [H|H].
      * inversion H; subst. exists 0%nat. split; [lia|]. split; [reflexivity|exact Hq].
      * apply IH in H as (j' & -> & Hj & Ha). exists (S j'). split; [lia|]. auto.
    + apply IH in H as (j' & -> & Hj & Ha). exists (S j'). split; [lia|]. auto.
  - apply IH in H as (j' & -> & Hj & Ha). exists (S j'). split; [lia|]. auto.
Qed.

Lemma findAll_spec q (s : Store) j a :
  (j, a) ∈ findAll q s -> s !! j = Some (Some a) /\ q a = true.
Proof.
  intros H. apply findAllFrom_spec in H as (j' & -> & H1 & H2). auto.
Qed.

Lemma liveness_fold now (s1 : Store) : forall snapshot (st : Store),
  (forall j a, (j, a) ∈ snapshot -> s1 !! j = Some (Some a) /\ livenessQuery a = true) ->
  (forall j, match s1 !! j with
             | Some (Some x) => exists y, st !! j = Some (Some y) /\ livenessOutcome now x y
             | other => st !! j = other
             end) ->
  forall j, match s1 !! j with
            | Some (Some x) =>
                exists y, fold_left (livenessStep now) snapshot st !! j = Some (Some y) /\
                          livenessOutcome now x y
            | other => fold_left (livenessStep now) snapshot st !! j = other
            end.
Proof.
  induction snapshot as [|[k a] snapshot IH]; intros st Hsnap Hinv; simpl; [exact Hinv|].
  apply IH.
  { intros j b Hb. apply Hsnap. apply elem_of_cons. auto. }
  destruct (Hsnap k a) as [Hk Hq]; [apply elem_of_cons; auto|].
  intros j. specialize (Hinv j). unfold livenessStep.
  destruct (isAirdropActive contractVerificationService _ _) as [isActive|e]; [|exact Hinv].
  destruct (negb isActive && bool_decide (status a = active))%bool eqn:Hc; [|exact Hinv].
  apply andb_true_iff in Hc as [_ Hact]. apply bool_decide_eq_true in Hact.
  pose proof (saveExisting_spec now k a (set_status ended a) st) as H.
  destruct (saveExisting _ _ _ _ _) as [[saved|e] st']; simpl;
    [|subst st'; exact Hinv].
  destruct H as (_ & -> & Hsome & ->).
  destruct (decide (j = k)) as [->|Hne].
  - rewrite Hk. rewrite Hk in Hinv. destruct Hinv as (y & Hy & _).
    eexists. split.
    + apply list_lookup_insert_eq. eapply lookup_lt_Some; eauto.
    + right. auto.
  - rewrite list_lookup_insert_ne by congruence. exact Hinv.
Qed.

Lemma maintenance_slot now (s : Store) i r :
  s !! i = Some (Some r) ->
  exists y, updateExistingAirdrops now s !! i = Some (Some y) /\
    livenessOutcome now (if expiredQuery now r then set_status ended r else r) y.
Proof.
  intros Hi. unfold updateExistingAirdrops.
  set (s1 := updateMany (expiredQuery now) (set_status ended) s).
  pose proof (liveness_fold now s1 (findAll livenessQuery s1) s1) as H.
  assert (Hs1 : s1 !! i = Some (Some (if expiredQuery now r then set_status ended r else r))).
  { unfold s1. rewrite updateMany_lookup, Hi. reflexivity. }
  specialize (H (fun j a => findAll_spec livenessQuery s1 j a)).
  assert (Hinv : forall j, match s1 !! j with
             | Some (Some x) => exists y, s1 !! j = Some (Some y) /\ livenessOutcome now x y
             | other => s1 !! j = other
             end).
  { intros j. destruct (s1 !! j) as [[x|]|]; try reflexivity.
    exists x. split; [reflexivity|left; reflexivity]. }
  specialize (H Hinv i). rewrite Hs1 in H. exact H.
Qed.

Lemma maintenance_tombstone now (s : Store) i :
  s !! i = Some None -> updateExistingAirdrops now s !! i = Some None.
Proof.
  intros Hi. unfold updateExistingAirdrops.
  set (s1 := updateMany (expiredQuery now) (set_status ended) s).
  pose proof (liveness_fold now s1 (findAll livenessQuery s1) s1) as H.
  assert (Hs1 : s1 !! i = Some None).
  { unfold s1. rewrite updateMany_lookup, Hi. reflexivity. }
  specialize (H (fun j a => findAll_spec livenessQuery s1 j a)).
  assert (Hinv : forall j, match s1 !! j with
             | Some (Some x) => exists y, s1 !! j = Some (Some y) /\ livenessOutcome now x y
             | other => s1 !! j = other
             end).
  { intros j. destruct (s1 !! j) as [[x|]|]; try reflexivity.
    exists x. split; [reflexivity|left; reflexivity]. }
  specialize (H Hinv i). rewrite Hs1 in H. exact H.
Qed.

Lemma isOpen_ended r : status r = ended -> isOpen r = false.
Proof. unfold isOpen. intros ->. reflexivity. Qed.

(** ** C6: expiry and its idempotence *)

(** C6.  The maintenance pass leaves every record in its slot; a record
    that is [active] or [upcoming] with [endDate] or [claimDeadline]
    before the current time has status [ended] afterwards; a record
    that is already [ended] is left exactly as it was; hence a second
    pass, at any later time, leaves the expired record as the first
    pass left it. *)
Theorem maintenance_expires now (s : Store) i r :
  s !! i = Some (Some r) ->
  exists r', updateExistingAirdrops now s !! i = Some (Some r') /\
    (expiredQuery now r = true -> status r' = ended) /\
    (status r = ended -> r' = r) /\
    (expiredQuery now r = true ->
     forall now', updateExistingAirdrops now' (updateExistingAirdrops now s) !! i
                  = Some (Some r')).
Proof.
  assert (Hended : forall now0 (s0 : Store) r0,
    s0 !! i = Some (Some r0) -> status r0 = ended ->
    updateExistingAirdrops now0 s0 !! i = Some (Some r0)).
  { intros now0 s0 r0 H0 Hst.
    destruct (maintenance_slot now0 s0 i r0 H0) as (y & Hy & Hout).
    assert (E : expiredQuery now0 r0 = false).
    { unfold expiredQuery. rewrite (isOpen_ended _ Hst). reflexivity. }
    rewrite E in Hout. destruct Hout as [->|(_ & Hact & _)]; [exact Hy|congruence]. }
  intros Hi.
  destruct (maintenance_slot now s i r Hi) as (y & Hy & Hout).
  exists y. split; [exact Hy|].
  assert (Hexp : expiredQuery now r = true -> status y = ended).
  { intros E. rewrite E in Hout.
    destruct Hout as [->|(_ & Hact & _)]; [reflexivity|discriminate]. }
  split; [exact Hexp|]. split.
  - intros Hst. rewrite (Hended now s r Hi Hst) in Hy. congruence.
  - intros E now'. apply Hended; auto.
Qed.

(** *** The unique index *)

Lemma uniqueKeyTaken_iff r (s : Store) :
  uniqueKeyTaken r s = true <-> contractAddress r ∈ addresses s.
Proof.
  unfold uniqueKeyTaken, addresses. rewrite existsb_exists. split.
  - intros ([x|] & Hin & Hx); [|discriminate].
    apply bool_decide_eq_true in Hx.
    apply list_elem_of_omap. exists (Some x). split.
    + apply list_elem_of_In; exact Hin.
    + simpl. congruence.
  - intros H. apply list_elem_of_omap in H as ([x|] & Hin & Hx); [|discriminate].
    simpl in Hx. inversion Hx.
    exists (Some x). split; [apply list_elem_of_In; exact Hin|].
    apply bool_decide_eq_true. congruence.
Qed.

Lemma saveNew_uniqueIndex now r (s : Store) :
  uniqueIndex s -> uniqueIndex (snd (saveNew now r s)).
Proof.
  intros Hu. pose proof (saveNew_spec now r s) as H.
  destruct (saveNew now r s) as [[saved|e] s']; simpl; [|subst; exact Hu].
  destruct H as (_ & _ & Hk & ->).
  unfold uniqueIndex, addresses in *. rewrite omap_app. simpl.
  apply NoDup_app. split; [exact Hu|]. split; [|apply NoDup_singleton].
  intros a Ha Hin. apply list_elem_of_singleton in Hin. subst a.
  apply uniqueKeyTaken_iff in Ha. congruence.
Qed.


Lemma newVerifiedAirdrop_no_address now c :
  truthy (c_contractAddress c) = false ->
  contractAddress (newVerifiedAirdrop now c) = "".
Proof.
  intros H. unfold newVerifiedAirdrop. simpl. unfold or_else. rewrite H. reflexivity.
Qed.

(** ** C10: the unique index and candidates without an address *)


(** *** The single-flight guard *)

(** ** C3: [syncRealAirdrops] is single-flight *)

(** C3.  While a sync is in progress an invocation is answered at once
    with the in-progress error and changes nothing: no work starts.
    Starting from an idle service, at most one sync is ever running,
    and the flag is set exactly while one is.  The flag goes from set
    to cleared only in the turn in which the running sync settles, and
    that turn clears it whether the fetch succeeded or raised.  After
    it, the next invocation is accepted. *)
Theorem sync_single_flight :
  (forall sys now,
     isSyncing (service sys) = true ->
     sysStep sys (Invoke now) = (sys, Some (Throw syncInProgressMessage))) /\
  (forall s0 calls,
     let sys := sysRun (idle s0) calls in
     (length (running sys) <= 1)%nat /\
     isSyncing (service sys) = bool_decide (running sys <> [])) /\
  (forall sys c,
     isSyncing (service sys) = true ->
     isSyncing (service (fst (sysStep sys c))) = false ->
     exists now fetched result,
       c = Settle now fetched /\ running sys <> [] /\
       snd (sysStep sys c) = Some (Ok result)) /\
  (forall sys now fetched,
     running sys <> [] ->
     isSyncing (service (fst (sysStep sys (Settle now fetched)))) = false) /\
  (forall sys now,
     isSyncing (service sys) = false ->
     sysStep sys (Invoke now) =
       ({| service := {| isSyncing := true;
                         lastSyncResult := lastSyncResult (service sys) |};
           store := store sys;
           running := running sys ++ [freshResult now] |}, None)).
Proof.
  split.
  { intros [svc st run] now H. simpl in *. unfold syncEnter. rewrite H. reflexivity. }
  split.
  { intros s0 calls. unfold sysRun.
    assert (G : forall sys,
      (length (running sys) <= 1)%nat /\
      isSyncing (service sys) = bool_decide (running sys <> []) ->
      let sys' := fold_left (fun st c => fst (sysStep st c)) calls sys in
      (length (running sys') <= 1)%nat /\
      isSyncing (service sys') = bool_decide (running sys' <> [])).
    { induction calls as [|c calls IH]; intros sys Hinv; [exact Hinv|].
      simpl. apply IH. clear IH.
      destruct sys as [svc st run]. destruct Hinv as [Hlen Hflag]. simpl in *.
      destruct c as [now|now fetched]; simpl.
      - unfold syncEnter. destruct (isSyncing svc) eqn:E; simpl.
        + split; [exact Hlen|congruence].
        + assert (Hr : bool_decide (run <> []) = false) by congruence.
          apply bool_decide_eq_false in Hr.
          destruct run; [|exfalso; apply Hr; discriminate].
          simpl. split; [lia|]. reflexivity.
      - destruct run as [|result rest]; simpl; [auto|].
        destruct (syncTry now fetched result svc st) as [[result' svc'] s'].
        simpl in *. destruct rest; simpl in *; [|lia].
        split; [lia|reflexivity]. }
    apply G. simpl. split; [lia|reflexivity]. }
  split.
  { intros [svc st run] c Hon Hoff. simpl in *.
    destruct c as [now|now fetched]; simpl in *.
    - unfold syncEnter in Hoff. rewrite Hon in Hoff. simpl in Hoff. congruence.
    - destruct run as [|result rest]; simpl in *; [congruence|].
      destruct (syncTry now fetched result svc st) as [[result' svc'] s'] eqn:E.
      exists now, fetched, result'.
      split; [reflexivity|]. split; [discriminate|]. simpl. rewrite ?E. reflexivity. }
  split.
  { intros [svc st run] now fetched Hrun. simpl in *.
    destruct run as [|result rest]; [congruence|].
    destruct (syncTry now fetched result svc st) as [[result' svc'] s']. reflexivity. }
  intros [svc st run] now H. simpl in *. unfold syncEnter. rewrite H. reflexivity.
Qed.

(** *** The audit log *)

Lemma historyGrows_refl (s : Store) : historyGrows s s.
Proof.
  intros i. destruct (s !! i) as [[r|]|]; auto. right. exists r. split; reflexivity.
Qed.

Lemma historyGrows_trans (s1 s2 s3 : Store) :
  historyGrows s1 s2 -> historyGrows s2 s3 -> historyGrows s1 s3.
Proof.
  intros H12 H23 i. specialize (H12 i). specialize (H23 i).
  destruct (s1 !! i) as [[r|]|]; [| |exact I].
  - destruct H12 as [E|(r' & E & Hp)]; rewrite E in H23; [left; exact H23|].
    destruct H23 as [E3|(r'' & E3 & Hp')]; [left; exact E3|].
    right. exists r''. split; [exact E3|]. etrans; eauto.
  - rewrite H12 in H23. exact H23.
Qed.

Lemma updateOne_grows q f (s : Store) :
  (forall r, history r `prefix_of` history (f r)) ->
  historyGrows s (updateOne q f s).
Proof.
  intros Hf i. rewrite updateOne_lookup.
  destruct (s !! i) as [[r|]|]; auto.
  right. eexists. split; [reflexivity|].
  case_bool_decide; [apply Hf|reflexivity].
Qed.

Lemma updateMany_grows q f (s : Store) :
  (forall r, history r `prefix_of` history (f r)) ->
  historyGrows s (updateMany q f s).
Proof.
  intros Hf i. rewrite updateMany_lookup.
  destruct (s !! i) as [[r|]|]; auto.
  right. eexists. split; [reflexivity|].
  destruct (q r); [apply Hf|reflexivity].
Qed.

Lemma deleteMany_grows q (s : Store) : historyGrows s (deleteMany q s).
Proof.
  intros i. rewrite deleteMany_lookup.
  destruct (s !! i) as [[r|]|]; auto.
  destruct (q r); [left; reflexivity|].
  right. exists r. split; reflexivity.
Qed.

Lemma saveNew_grows now r (s : Store) : historyGrows s (snd (saveNew now r s)).
Proof.
  pose proof (saveNew_spec now r s) as H.
  destruct (saveNew now r s) as [[saved|e] s']; simpl;
    [|subst; apply historyGrows_refl].
  destruct H as (_ & _ & _ & ->). intros i.
  destruct (s !! i) as [[x|]|] eqn:E; [| |exact I].
  - right. exists x. split; [|reflexivity].
    rewrite lookup_app_l; [exact E|]. eapply lookup_lt_Some; eauto.
  - rewrite lookup_app_l; [exact E|]. eapply lookup_lt_Some; eauto.
Qed.

Lemma saveExisting_grows now i loaded r (s : Store) :
  s !! i = Some (Some loaded) ->
  history loaded `prefix_of` history r ->
  historyGrows s (snd (saveExisting now i loaded r s)).
Proof.
  intros Hi Hp. pose proof (saveExisting_spec now i loaded r s) as H.
  destruct (saveExisting now i loaded r s) as [[saved|e] s']; simpl;
    [|subst; apply historyGrows_refl].
  destruct H as (_ & -> & _ & ->). intros j.
  destruct (decide (j = i)) as [->|Hne].
  - rewrite Hi. right. eexists. split.
    + apply list_lookup_insert_eq. eapply lookup_lt_Some; eauto.
    + etrans; [exact Hp|]. apply preSave_history_prefix.
  - rewrite list_lookup_insert_ne by congruence.
    destruct (s !! j) as [[x|]|]; auto.
    right. exists x. split; reflexivity.
Qed.

Lemma verifyAndUpdateContract_grows now addr chain (s : Store) :
  historyGrows s (verifyAndUpdateContract now addr chain s).
Proof.
  unfold verifyAndUpdateContract.
  destruct (verifyContract contractVerificationService addr chain) as [info|e];
    [|apply historyGrows_refl].
  destruct (ChainProbe.verified info && ChainProbe.isValid info)%bool.
  - eapply historyGrows_trans; apply updateOne_grows; intros r; reflexivity.
  - apply updateOne_grows; intros r; reflexivity.
Qed.

Lemma mergeCandidate_history now existing c :
  history (mergeCandidate now existing c) = history existing.
Proof.
  unfold history.
  destruct (mergeCandidate_fields now existing c _ eq_refl) as (_ & _ & _ & _ & _ & -> & _).
  reflexivity.
Qed.

Lemma createNewVerifiedAirdrop_grows now c (s : Store) :
  historyGrows s (snd (createNewVerifiedAirdrop now c s)).
Proof.
  unfold createNewVerifiedAirdrop.
  pose proof (saveNew_grows now (newVerifiedAirdrop now c) s) as H.
  destruct (saveNew _ _ s) as [[saved|e] s']; exact H.
Qed.

Lemma processAirdropData_grows now c result (s : Store) :
  historyGrows s (snd (processAirdropData now c result s)).
Proof.
  unfold processAirdropData.
  destruct (findOne (identityQuery c) s) as [[i existing]|] eqn:Ef.
  - apply findOne_spec in Ef as (Hi & _).
    unfold updateExistingAirdrop.
    pose proof (saveExisting_grows now i existing (mergeCandidate now existing c) s Hi) as H.
    rewrite mergeCandidate_history in H. specialize (H (reflexivity _)).
    destruct (saveExisting _ _ _ _ _) as [[saved|e] s']; simpl in *; [|exact H].
    destruct (truthy (c_contractAddress c)); simpl; [|exact H].
    eapply historyGrows_trans; [exact H|apply verifyAndUpdateContract_grows].
  - pose proof (createNewVerifiedAirdrop_grows now c s) as H.
    destruct (createNewVerifiedAirdrop now c s) as [[saved|] s']; simpl in *;
      (destruct (truthy (c_contractAddress c)); simpl; [|exact H];
       eapply historyGrows_trans; [exact H|apply verifyAndUpdateContract_grows]).
Qed.

Lemma processCandidates_grows now cands : forall result (s : Store),
  historyGrows s (snd (processCandidates now cands result s)).
Proof.
  unfold processCandidates.
  induction cands as [|c cands IH]; intros result s; simpl; [apply historyGrows_refl|].
  pose proof (processAirdropData_grows now c result s) as H.
  destruct (processAirdropData now c result s) as [[[u|e] result'] s']; simpl in *;
    (eapply historyGrows_trans; [exact H|apply IH]).
Qed.

Lemma livenessOutcome_history now x y :
  livenessOutcome now x y -> history y = history x /\ (status y = status x \/ status y = ended).
Proof.
  intros [->|(_ & _ & ->)]; [auto|].
  unfold history. rewrite preSave_history, preSave_status. simpl.
  rewrite bool_decide_eq_true_2 by reflexivity. simpl. auto.
Qed.

(** The maintenance pass moves statuses and leaves every audit log as
    it was. *)
Lemma maintenance_history now (s : Store) i r :
  s !! i = Some (Some r) ->
  exists r', updateExistingAirdrops now s !! i = Some (Some r') /\
    history r' = history r.
Proof.
  intros Hi. destruct (maintenance_slot now s i r Hi) as (y & Hy & Hout).
  exists y. split; [exact Hy|].
  apply livenessOutcome_history in Hout as [-> _].
  destruct (expiredQuery now r); reflexivity.
Qed.

Lemma updateExistingAirdrops_grows now (s : Store) :
  historyGrows s (updateExistingAirdrops now s).
Proof.
  intros i. destruct (s !! i) as [[r|]|] eqn:Hi; [| |exact I].
  - destruct (maintenance_history now s i r Hi) as (y & Hy & E).
    right. exists y. split; [exact Hy|]. rewrite E. reflexivity.
  - apply maintenance_tombstone; exact Hi.
Qed.

Lemma syncTry_grows now fetched result svc (s : Store) :
  historyGrows s (snd (syncTry now fetched result svc s)).
Proof.
  unfold syncTry. destruct fetched as [cands|e]; simpl; [|apply historyGrows_refl].
  pose proof (processCandidates_grows now cands result s) as H.
  destruct (processCandidates now cands result s) as [result1 s1]. simpl in *.
  eapply historyGrows_trans; [exact H|].
  eapply historyGrows_trans; [apply updateExistingAirdrops_grows|].
  apply deleteMany_grows.
Qed.

Lemma processDetectedAirdrop_grows now event (s : Store) :
  historyGrows s (processDetectedAirdrop now event s).
Proof.
  unfold processDetectedAirdrop.
  destruct (findOne _ s) as [[i existing]|] eqn:Ef.
  - apply findOne_spec in Ef as (Hi & _).
    apply saveExisting_grows; [exact Hi|reflexivity].
  - destruct (verifyContract _ _ _) as [info|e]; [|apply historyGrows_refl].
    destruct (negb (ChainProbe.isValid info)); [apply historyGrows_refl|].
    apply createNewVerifiedAirdrop_grows.
Qed.

Lemma applyOp_grows op (s : Store) : historyGrows s (applyOp op s).
Proof.
  destruct op; simpl.
  - apply syncTry_grows.
  - apply processDetectedAirdrop_grows.
  - apply updateOne_grows. intros r. reflexivity.
  - unfold withDocument. destruct (s !! i) as [[r|]|] eqn:Hi; try apply historyGrows_refl.
    apply saveExisting_grows; [exact Hi|reflexivity].
  - unfold withDocument. destruct (s !! i) as [[r|]|] eqn:Hi; try apply historyGrows_refl.
    apply saveExisting_grows; [exact Hi|].
    unfold history. simpl. apply prefix_app_r. reflexivity.
  - unfold withDocument. destruct (s !! i) as [[r|]|] eqn:Hi; try apply historyGrows_refl.
    apply saveExisting_grows; [exact Hi|reflexivity].
Qed.

Lemma updateAirdropStatus_history now addr st (s : Store) i r :
  s !! i = Some (Some r) ->
  exists r', updateAirdropStatus now addr st s !! i = Some (Some r') /\
    history r' = history r.
Proof.
  intros Hi. unfold updateAirdropStatus. rewrite updateOne_lookup, Hi.
  eexists. split; [reflexivity|]. case_bool_decide; reflexivity.
Qed.

(** ** C7: the audit log is append-only *)

(** C7 (as the code has it).  No operation on the collection removes
    or shortens [metadata.verificationHistory]: after every operation
    each record still in the collection has its old log as a prefix of
    its new one.  A change of level made with
    [updateVerificationLevel] appends an entry with the current time
    and the given actor, and the pre-save hook appends an entry by
    [system] whenever a save modifies the level.  The status
    transitions of the maintenance pass and of [updateAirdropStatus]
    append no entry. *)
Theorem history_append_only :
  (forall op (s : Store), historyGrows s (applyOp op s)) /\
  (forall now i r newLevel updatedBy details (s : Store),
     match updateVerificationLevel now i r newLevel updatedBy details s with
     | (Ok saved, s') =>
         s' !! i = Some (Some saved) /\ verificationLevel saved = newLevel /\
         (history r ++
            [ {| h_date := now;
                 h_action := "Verification level changed from "
                             +:+ level_name (verificationLevel r)
                             +:+ " to " +:+ level_name newLevel;
                 h_by := updatedBy;
                 h_details := details |} ]) `prefix_of` history saved
     | (Throw _, s') => s' = s
     end) /\
  (forall now loaded r,
     verificationLevel loaded <> verificationLevel r ->
     history (preSave now false loaded r) =
     history r ++
       [ {| h_date := now;
            h_action := "Verification level changed to " +:+ level_name (verificationLevel r);
            h_by := "system";
            h_details := Some "Previous level: true" |} ]) /\
  (forall now (s : Store) i r,
     s !! i = Some (Some r) ->
     exists r', updateExistingAirdrops now s !! i = Some (Some r') /\
       history r' = history r) /\
  (forall now addr st (s : Store) i r,
     s !! i = Some (Some r) ->
     exists r', updateAirdropStatus now addr st s !! i = Some (Some r') /\
       history r' = history r).
Proof.
  split; [exact applyOp_grows|]. split.
  { intros now i r newLevel updatedBy details s. unfold updateVerificationLevel.
    pose proof (saveExisting_spec now i r
                  (updateVerificationLevel_doc now newLevel updatedBy details r) s) as H.
    destruct (saveExisting _ _ _ _ _) as [[saved|e] s']; [|exact H].
    destruct H as (_ & -> & Hsome & ->).
    split.
    { apply list_lookup_insert_eq.
      destruct (s !! i) eqn:E; [|destruct Hsome; discriminate].
      eapply lookup_lt_Some; eauto. }
    split; [rewrite preSave_verificationLevel; reflexivity|].
    apply preSave_history_prefix. }
  split.
  { intros now loaded r Hne. unfold history. rewrite preSave_history.
    rewrite bool_decide_eq_false_2 by exact Hne. reflexivity. }
  split; [exact maintenance_history|exact updateAirdropStatus_history].
Qed.

(** * Further properties of the sync service *)

(** *** The unique index under every operation *)

(** The contract address held by each slot. *)
Definition addressView (s : Store) : list (option string) :=
  (fun o : option VerifiedAirdrop => contractAddress <$> o) <$> s.

Lemma addresses_view (s : Store) : addresses s = omap id (addressView s).
Proof.
  unfold addresses, addressView.
  induction s as [|[x|] s IH]; simpl; [reflexivity|f_equal; exact IH|exact IH].
Qed.

Lemma addresses_same (s s' : Store) :
  (forall i, (fun o : option VerifiedAirdrop => contractAddress <$> o) <$> (s !! i)
           = (fun o : option VerifiedAirdrop => contractAddress <$> o) <$> (s' !! i)) ->
  addresses s = addresses s'.
Proof.
  intros H. rewrite !addresses_view. f_equal.
  apply list_eq. intros i. unfold addressView. rewrite !list_lookup_fmap. apply H.
Qed.

Lemma updateOne_addresses q f (s : Store) :
  (forall r, contractAddress (f r) = contractAddress r) ->
  addresses (updateOne q f s) = addresses s.
Proof.
  intros Hf. apply addresses_same. intros i. rewrite updateOne_lookup.
  destruct (s !! i) as [[r|]|]; simpl; try reflexivity.
  case_bool_decide; simpl; rewrite ?Hf; reflexivity.
Qed.

Lemma updateMany_addresses q f (s : Store) :
  (forall r, contractAddress (f r) = contractAddress r) ->
  addresses (updateMany q f s) = addresses s.
Proof.
  intros Hf. apply addresses_same. intros i. rewrite updateMany_lookup.
  destruct (s !! i) as [[r|]|]; simpl; try reflexivity.
  destruct (q r); simpl; rewrite ?Hf; reflexivity.
Qed.

Lemma deleteMany_uniqueIndex q (s : Store) :
  uniqueIndex s -> uniqueIndex (deleteMany q s).
Proof.
  unfold uniqueIndex. intros Hn.
  apply (sublist_NoDup _ (addresses s)); [exact Hn|]. clear Hn.
  unfold addresses, deleteMany.
  induction s as [|[x|] s IH]; simpl; [constructor| |exact IH].
  destruct (q x); simpl; [apply sublist_cons|apply sublist_skip]; exact IH.
Qed.

Lemma saveExisting_addresses now i loaded r (s : Store) :
  s !! i = Some (Some loaded) ->
  contractAddress r = contractAddress loaded ->
  addresses (snd (saveExisting now i loaded r s)) = addresses s.
Proof.
  intros Hi Ha. pose proof (saveExisting_spec now i loaded r s) as H.
  destruct (saveExisting now i loaded r s) as [[saved|e] s']; simpl; [|subst; reflexivity].
  destruct H as (_ & -> & _ & ->).
  apply addresses_same. intros j.
  destruct (decide (j = i)) as [->|Hne].
  - rewrite list_lookup_insert_eq by (eapply lookup_lt_Some; eauto).
    rewrite Hi. simpl. rewrite preSave_contractAddress, Ha. reflexivity.
  - rewrite list_lookup_insert_ne by congruence. reflexivity.
Qed.

Lemma verifyAndUpdateContract_addresses now addr chain (s : Store) :
  addresses (verifyAndUpdateContract now addr chain s) = addresses s.
Proof.
  unfold verifyAndUpdateContract.
  destruct (verifyContract contractVerificationService addr chain) as [info|e];
    [|reflexivity].
  destruct (ChainProbe.verified info && ChainProbe.isValid info)%bool;
    rewrite ?updateOne_addresses; auto.
Qed.

Lemma mergeCandidate_contractAddress now existing c :
  contractAddress (mergeCandidate now existing c) = contractAddress existing.
Proof.
  destruct (mergeCandidate_fields now existing c _ eq_refl)
    as (_ & _ & _ & _ & _ & _ & _ & _ & _ & _ & H & _).
  exact H.
Qed.

Lemma processAirdropData_uniqueIndex now c result (s : Store) :
  uniqueIndex s -> uniqueIndex (snd (processAirdropData now c result s)).
Proof.
  intros Hu. unfold processAirdropData.
  destruct (findOne (identityQuery c) s) as [[i existing]|] eqn:Ef.
  - apply findOne_spec in Ef as (Hi & _). unfold updateExistingAirdrop.
    pose proof (saveExisting_addresses now i existing (mergeCandidate now existing c) s Hi
                  (mergeCandidate_contractAddress now existing c)) as H.
    destruct (saveExisting _ _ _ _ _) as [[saved|e] s']; simpl in *.
    + destruct (truthy (c_contractAddress c)); simpl; unfold uniqueIndex;
        rewrite ?verifyAndUpdateContract_addresses, H; exact Hu.
    + unfold uniqueIndex. rewrite H. exact Hu.
  - unfold createNewVerifiedAirdrop.
    pose proof (saveNew_uniqueIndex now (newVerifiedAirdrop now c) s Hu) as H.
    destruct (saveNew _ _ s) as [[saved|e] s']; simpl in *;
      (destruct (truthy (c_contractAddress c)); simpl; unfold uniqueIndex;
       rewrite ?verifyAndUpdateContract_addresses; exact H).
Qed.

Lemma processCandidates_uniqueIndex now cands : forall result (s : Store),
  uniqueIndex s -> uniqueIndex (snd (processCandidates now cands result s)).
Proof.
  unfold processCandidates.
  induction cands as [|c cands IH]; intros result s Hu; simpl; [exact Hu|].
  pose proof (processAirdropData_uniqueIndex now c result s Hu) as H.
  destruct (processAirdropData now c result s) as [[[u|e] result'] s']; simpl in *;
    apply IH; exact H.
Qed.

(** Every slot after the maintenance pass, in terms of the slot before. *)
Lemma maintenance_lookup now (s : Store) i :
  match s !! i with
  | Some (Some r) =>
      exists y, updateExistingAirdrops now s !! i = Some (Some y) /\
        livenessOutcome now (if expiredQuery now r then set_status ended r else r) y
  | other => updateExistingAirdrops now s !! i = other
  end.
Proof.
  unfold updateExistingAirdrops.
  set (s1 := updateMany (expiredQuery now) (set_status ended) s).
  pose proof (liveness_fold now s1 (findAll livenessQuery s1) s1
                (fun j a => findAll_spec livenessQuery s1 j a)) as H.
  assert (Hinv : forall j, match s1 !! j with
             | Some (Some x) => exists y, s1 !! j = Some (Some y) /\ livenessOutcome now x y
             | other => s1 !! j = other
             end).
  { intros j. destruct (s1 !! j) as [[x|]|]; try reflexivity.
    exists x. split; [reflexivity|left; reflexivity]. }
  specialize (H Hinv i). unfold s1 in H at 1. rewrite updateMany_lookup in H.
  destruct (s !! i) as [[r|]|]; exact H.
Qed.

Lemma livenessOutcome_contractAddress now x y :
  livenessOutcome now x y -> contractAddress y = contractAddress x.
Proof.
  intros [->|(_ & _ & ->)]; [reflexivity|]. rewrite preSave_contractAddress. reflexivity.
Qed.

Lemma updateExistingAirdrops_addresses now (s : Store) :
  addresses (updateExistingAirdrops now s) = addresses s.
Proof.
  apply addresses_same. intros i. pose proof (maintenance_lookup now s i) as H.
  destruct (s !! i) as [[r|]|].
  - destruct H as (y & -> & Hout). simpl.
    rewrite (livenessOutcome_contractAddress _ _ _ Hout).
    destruct (expiredQuery now r); reflexivity.
  - rewrite H. reflexivity.
  - rewrite H. reflexivity.
Qed.

Lemma applyOp_uniqueIndex op (s : Store) :
  uniqueIndex s -> uniqueIndex (applyOp op s).
Proof.
  intros Hu. destruct op; simpl.
  - unfold syncTry. destruct fetched as [cands|e]; simpl; [|exact Hu].
    pose proof (processCandidates_uniqueIndex now cands (freshResult now) s Hu) as H.
    destruct (processCandidates now cands (freshResult now) s) as [result1 s1]. simpl in *.
    apply deleteMany_uniqueIndex. unfold uniqueIndex.
    rewrite updateExistingAirdrops_addresses. exact H.
  - unfold processDetectedAirdrop.
    destruct (findOne _ s) as [[i existing]|] eqn:Ef.
    + apply findOne_spec in Ef as (Hi & _). unfold uniqueIndex.
      rewrite saveExisting_addresses; [exact Hu|exact Hi|reflexivity].
    + destruct (verifyContract _ _ _) as [info|e]; [|exact Hu].
      destruct (negb (ChainProbe.isValid info)); [exact Hu|].
      unfold createNewVerifiedAirdrop.
      pose proof (saveNew_uniqueIndex now
                    (newVerifiedAirdrop now (detectedCandidate event info)) s Hu) as H.
      destruct (saveNew _ _ s) as [[saved|e] s']; exact H.
  - unfold updateAirdropStatus, uniqueIndex. rewrite updateOne_addresses; auto.
  - unfold withDocument. destruct (s !! i) as [[r|]|] eqn:Hi; try exact Hu.
    unfold incrementViews, uniqueIndex.
    rewrite saveExisting_addresses; [exact Hu|exact Hi|reflexivity].
  - unfold withDocument. destruct (s !! i) as [[r|]|] eqn:Hi; try exact Hu.
    unfold updateVerificationLevel, uniqueIndex.
    rewrite saveExisting_addresses; [exact Hu|exact Hi|reflexivity].
  - unfold withDocument. destruct (s !! i) as [[r|]|] eqn:Hi; try exact Hu.
    unfold addRiskWarning, uniqueIndex.
    rewrite saveExisting_addresses; [exact Hu|exact Hi|reflexivity].
Qed.

(** X1.  Every operation of the service and of the schema methods keeps
    the unique index respected: from a collection in which no two
    records share a contractAddress, a sync run, an event of the
    monitoring service, a claim-opened signal or a schema method leads
    to a collection in which no two records share one, over any
    sequence of operations. *)
Theorem uniqueIndex_invariant ops (s : Store) :
  uniqueIndex s ->
  uniqueIndex (fold_left (fun st op => applyOp op st) ops s).
Proof.
  revert s. induction ops as [|op ops IH]; intros s Hu; simpl; [exact Hu|].
  apply IH. apply applyOp_uniqueIndex. exact Hu.
Qed.

(** *** The counters of a sync run *)





(** *** Processing a candidate again *)

(** The enrichment step leaves name and symbol of every record. *)
Lemma verifyAndUpdateContract_identity now addr chain (s : Store) i r :
  s !! i = Some (Some r) ->
  exists r', verifyAndUpdateContract now addr chain s !! i = Some (Some r') /\
    name r' = name r /\ symbol r' = symbol r.
Proof.
  intros Hi. unfold verifyAndUpdateContract.
  destruct (verifyContract contractVerificationService addr chain) as [info|e];
    [|exists r; auto].
  assert (H1 : exists r1,
            updateOne (hasAddress addr) (setContractInfo now info) s !! i = Some (Some r1) /\
            name r1 = name r /\ symbol r1 = symbol r).
  { rewrite updateOne_lookup, Hi. eexists. split; [reflexivity|].
    case_bool_decide; auto. }
  destruct H1 as (r1 & H1 & Hn & Hs).
  destruct (ChainProbe.verified info && ChainProbe.isValid info)%bool;
    [|exists r1; auto].
  rewrite updateOne_lookup, H1. eexists. split; [reflexivity|].
  case_bool_decide; simpl; auto.
Qed.

Lemma verifyAndUpdateContract_length now addr chain (s : Store) :
  length (verifyAndUpdateContract now addr chain s) = length s.
Proof.
  unfold verifyAndUpdateContract.
  destruct (verifyContract contractVerificationService addr chain) as [info|e];
    [|reflexivity].
  destruct (ChainProbe.verified info && ChainProbe.isValid info)%bool;
    rewrite ?updateOne_length; reflexivity.
Qed.

Lemma saveExisting_length now i loaded r (s : Store) :
  length (snd (saveExisting now i loaded r s)) = length s.
Proof.
  pose proof (saveExisting_spec now i loaded r s) as H.
  destruct (saveExisting now i loaded r s) as [[saved|e] s']; simpl; [|subst; reflexivity].
  destruct H as (_ & _ & _ & ->). apply length_insert.
Qed.

(** Once some record matches the filter, processing creates nothing. *)
Lemma processAirdropData_matched now c res (s : Store) j r :
  s !! j = Some (Some r) -> identityQuery c r = true ->
  length (snd (processAirdropData now c res s)) = length s /\
  newAirdrops (snd (fst (processAirdropData now c res s))) = newAirdrops res.
Proof.
  intros Hj Hq. unfold processAirdropData.
  destruct (findOne (identityQuery c) s) as [[i existing]|] eqn:Ef.
  2:{ rewrite (findOne_none _ _ Ef _ _ Hj) in Hq. discriminate. }
  unfold updateExistingAirdrop.
  pose proof (saveExisting_length now i existing (mergeCandidate now existing c) s) as H.
  destruct (saveExisting _ _ _ _ _) as [[saved|e] s']; simpl in *; [|auto].
  destruct (truthy (c_contractAddress c)); simpl;
    rewrite ?verifyAndUpdateContract_length; auto.
Qed.

(** X3.  A candidate whose name is trimmed and whose symbol is trimmed
    upper case is created at most once: when processing it created a
    record, processing it again, at any later time, leaves the size of
    the collection and [newAirdrops] as they are (the candidate is
    merged, or its merge fails; no second record appears). *)
Theorem candidate_created_once now c res (s : Store) res1 s1 :
  trim (c_name c) = c_name c ->
  toUpperCase (trim (c_symbol c)) = c_symbol c ->
  processAirdropData now c res s = (Ok tt, res1, s1) ->
  newAirdrops res1 = S (newAirdrops res) ->
  length s1 = S (length s) /\
  forall now' res',
    length (snd (processAirdropData now' c res' s1)) = length s1 /\
    newAirdrops (snd (fst (processAirdropData now' c res' s1))) = newAirdrops res'.
Proof.
  intros Hname Hsym Hrun Hnew.
  assert (Hcreated : exists saved s' ,
    s' !! length s = Some (Some saved) /\ length s' = S (length s) /\
    name saved = c_name c /\ symbol saved = c_symbol c /\
    (s1 = s' \/ exists addr chain, s1 = verifyAndUpdateContract now addr chain s')).
  { revert Hrun. unfold processAirdropData.
    destruct (findOne (identityQuery c) s) as [[i existing]|].
    { destruct (updateExistingAirdrop now i existing c s) as [[u|e] s'];
        [|discriminate].
      destruct (truthy (c_contractAddress c)); intros H; inversion H; subst;
        simpl in Hnew; lia. }
    unfold createNewVerifiedAirdrop.
    pose proof (saveNew_spec now (newVerifiedAirdrop now c) s) as Hs.
    destruct (saveNew _ _ s) as [[saved|e] s'].
    2:{ destruct (truthy (c_contractAddress c)); intros H; inversion H; subst;
          simpl in Hnew; lia. }
    destruct Hs as (_ & Hsaved & _ & ->).
    assert (Hfields : name saved = c_name c /\ symbol saved = c_symbol c).
    { subst saved.
      destruct (preSave_frame now true (newVerifiedAirdrop now c) (newVerifiedAirdrop now c))
        as (Fn & Fs & _).
      rewrite Fn, Fs. simpl. auto. }
    destruct Hfields as [Fn Fs].
    intros H. exists saved, (s ++ [Some saved]).
    split; [apply list_lookup_middle; reflexivity|].
    split; [rewrite length_app; simpl; lia|].
    split; [exact Fn|]. split; [exact Fs|].
    destruct (truthy (c_contractAddress c)); inversion H; subst; eauto. }
  destruct Hcreated as (saved & s' & Hslot & Hlen & Hn & Hs & Hs1).
  assert (Hmatch : exists r, s1 !! length s = Some (Some r) /\ identityQuery c r = true).
  { assert (Hq : forall r, name r = c_name c -> symbol r = c_symbol c ->
                           identityQuery c r = true).
    { intros r En Es. unfold identityQuery.
      rewrite (bool_decide_eq_true_2 (c_name c = name r)) by congruence.
      rewrite (bool_decide_eq_true_2 (c_symbol c = symbol r)) by congruence.
      apply orb_true_r. }
    destruct Hs1 as [->|(addr & chain & ->)].
    - exists saved. auto.
    - destruct (verifyAndUpdateContract_identity now addr chain s' _ _ Hslot)
        as (r' & Hr' & En & Es).
      exists r'. split; [exact Hr'|]. apply Hq; congruence. }
  destruct Hmatch as (r & Hr & Hq).
  split.
  - destruct Hs1 as [->|(addr & chain & ->)];
      rewrite ?verifyAndUpdateContract_length; exact Hlen.
  - intros now' res'. eapply processAirdropData_matched; eauto.
Qed.

(** *** Maintenance, then the retention sweep *)

Lemma livenessOutcome_frame now x y :
  livenessOutcome now x y ->
  verificationLevel y = verificationLevel x /\ analytics y = analytics x /\
  endDate y = endDate x /\ claimDeadline y = claimDeadline x /\
  contractAddress y = contractAddress x.
Proof.
  intros [->|(_ & _ & ->)]; [auto 6|].
  destruct (preSave_frame now false x (set_status ended x))
    as (_ & _ & Fa & _ & _ & _ & _ & _ & Fe & Fc & _ & _ & _ & Fl & _ & _ & _ & _ & Fan).
  rewrite Fl, Fan, Fe, Fc, Fa. auto 6.
Qed.

(** X4.  In one sync run the maintenance pass is followed by the
    retention sweep, at the same clock reading.  A record that the pass
    expires is deleted by the sweep of the same run when it is
    unverified, has fewer than ten views and was last verified before
    the three-month threshold.  A record that is not unverified, or has
    ten views or more, survives both steps. *)
Theorem expired_then_swept now (s : Store) i r :
  s !! i = Some (Some r) ->
  (expiredQuery now r = true ->
   verificationLevel r = unverified ->
   (views (analytics r) < 10)%nat ->
   lastVerified (metadata r) < threeMonthsBefore now ->
   cleanupObsoleteData now (updateExistingAirdrops now s) !! i = Some None) /\
  (verificationLevel r <> unverified \/ (10 <= views (analytics r))%nat ->
   exists r', cleanupObsoleteData now (updateExistingAirdrops now s) !! i = Some (Some r')).
Proof.
  intros Hi. pose proof (maintenance_lookup now s i) as H. rewrite Hi in H.
  destruct H as (y & Hy & Hout).
  unfold cleanupObsoleteData. rewrite deleteMany_lookup, Hy. split.
  - intros Hexp Hlev Hviews Hold. rewrite Hexp in Hout.
    destruct Hout as [->|(_ & Hact & _)]; [|discriminate].
    unfold obsoleteQuery. simpl.
    rewrite Hlev, !bool_decide_eq_true_2 by (reflexivity || assumption). reflexivity.
  - intros Hkeep. apply livenessOutcome_frame in Hout as (Hlev & Han & _).
    assert (E : obsoleteQuery now y = false).
    { unfold obsoleteQuery. rewrite Hlev, Han.
      assert (L : verificationLevel (if expiredQuery now r then set_status ended r else r)
                  = verificationLevel r) by (destruct (expiredQuery now r); reflexivity).
      assert (A : analytics (if expiredQuery now r then set_status ended r else r)
                  = analytics r) by (destruct (expiredQuery now r); reflexivity).
      rewrite L, A.
      destruct Hkeep as [Hk|Hk].
      - rewrite (bool_decide_eq_false_2 (verificationLevel r = unverified)) by exact Hk.
        apply andb_false_r.
      - rewrite (bool_decide_eq_false_2 (views (analytics r) < 10)%nat) by lia.
        rewrite andb_false_r. reflexivity. }
    rewrite E. eauto.
Qed.

(** *** A claim-opened signal on an expired record *)

(** X5.  [updateAirdropStatus] sets the status of the first record with
    the address to the given status, whatever it was; it looks at no
    date.  So a claim-opened signal makes an expired record [active]
    again, and the next maintenance pass ends it again. *)
Theorem claim_opened_until_next_pass now now' addr (s : Store) i r :
  findOne (hasAddress addr) s = Some (i, r) ->
  (dateBefore (endDate r) now' || dateBefore (claimDeadline r) now')%bool = true ->
  exists r1 r2,
    updateAirdropStatus now addr active s !! i = Some (Some r1) /\
    status r1 = active /\ lastVerified (metadata r1) = now /\
    updateExistingAirdrops now' (updateAirdropStatus now addr active s) !! i
      = Some (Some r2) /\
    status r2 = ended.
Proof.
  intros Hf Hd. pose proof Hf as Hf'. apply findOne_spec in Hf' as (Hi & _).
  assert (H1 : updateAirdropStatus now addr active s !! i
               = Some (Some (set_lastVerified now (set_status active r)))).
  { unfold updateAirdropStatus. rewrite updateOne_lookup, Hi, Hf. simpl.
    rewrite bool_decide_eq_true_2 by reflexivity. reflexivity. }
  pose proof (maintenance_lookup now' (updateAirdropStatus now addr active s) i) as H.
  rewrite H1 in H. destruct H as (y & Hy & Hout).
  assert (E : expiredQuery now' (set_lastVerified now (set_status active r)) = true).
  { unfold expiredQuery. simpl. exact Hd. }
  rewrite E in Hout.
  exists (set_lastVerified now (set_status active r)), y.
  split; [exact H1|]. split; [reflexivity|]. split; [reflexivity|].
  split; [exact Hy|].
  destruct Hout as [->|(_ & Hact & _)]; [reflexivity|discriminate].
Qed.

(** *** A record created by the event-driven path *)

Lemma addresses_elem (s : Store) a :
  a ∈ addresses s -> exists i r, s !! i = Some (Some r) /\ contractAddress r = a.
Proof.
  unfold addresses. intros H.
  apply list_elem_of_omap in H as ([r|] & Hin & Hr); [|discriminate].
  simpl in Hr. inversion Hr; subst.
  apply list_elem_of_lookup_1 in Hin as [i Hi]. eauto.
Qed.

Lemma toLowerCase_or_else_empty addr :
  toLowerCase (or_else (Some addr) "") = toLowerCase addr.
Proof.
  unfold or_else, truthy. case_bool_decide as E; simpl; [subst; reflexivity|reflexivity].
Qed.

(** X6.  When no record has the address of an event and the probe finds
    a valid contract, the event-driven path appends one record (if the
    schema validation accepts it): [active], [unverified], risk
    [medium], with the lower-case address, one source entry of type
    [api] with confidence 50 and the placeholder URL, and
    [contractInfo] at its defaults.  This holds whatever the probe
    reports as [verified]: the path does not run the enrichment step. *)
Theorem detected_airdrop_record now event (s : Store) info :
  findOne (hasAddress (e_contractAddress event)) s = None ->
  verifyContract contractVerificationService (e_contractAddress event) (e_blockchain event)
    = Ok info ->
  ChainProbe.isValid info = true ->
  validate (newVerifiedAirdrop now (detectedCandidate event info)) = true ->
  exists saved,
    processDetectedAirdrop now event s = s ++ [Some saved] /\
    contractAddress saved = toLowerCase (e_contractAddress event) /\
    status saved = active /\ verificationLevel saved = unverified /\
    risk_level (risks saved) = medium /\
    sources saved = [ {| src_type := api; url := "https://unknown.com";
                         lastUpdated := now; confidence := 50 |} ] /\
    contractInfo saved = {| ci_verified := false; ci_hasClaimFunction := false;
                            ci_owner := None; ci_lastActivity := None |}.
Proof.
  intros Hf Hv Hvalid Hval. unfold processDetectedAirdrop.
  rewrite Hf, Hv, Hvalid. simpl. unfold createNewVerifiedAirdrop, saveNew.
  rewrite Hval. simpl.
  set (d := newVerifiedAirdrop now (detectedCandidate event info)).
  assert (Ha : contractAddress (preSave now true d d) = toLowerCase (e_contractAddress event)).
  { rewrite preSave_contractAddress. unfold d. simpl. apply toLowerCase_or_else_empty. }
  assert (Hk : uniqueKeyTaken (preSave now true d d) s = false).
  { destruct (uniqueKeyTaken (preSave now true d d) s) eqn:E; [|reflexivity].
    apply uniqueKeyTaken_iff in E. apply addresses_elem in E as (i & r & Hi & Hr).
    pose proof (findOne_none _ _ Hf _ _ Hi) as Hn. unfold hasAddress in Hn.
    apply bool_decide_eq_false in Hn. exfalso. apply Hn. congruence. }
  rewrite Hk. simpl. eexists. split; [reflexivity|].
  split; [exact Ha|].
  destruct (preSave_frame now true d d)
    as (_ & _ & _ & _ & _ & _ & _ & _ & _ & _ & _ & _ & Fst & Fl & Fs & Fci & _ & Fr & _).
  rewrite Fst, Fl, Fs, Fci, Fr. unfold d. simpl. repeat split; reflexivity.
Qed.

(** *** Merging the same candidate again *)

Lemma VerifiedAirdrop_ext (r r' : VerifiedAirdrop) :
  name r = name r' -> symbol r = symbol r' ->
  contractAddress r = contractAddress r' -> tokenAddress r = tokenAddress r' ->
  blockchain r = blockchain r' -> description r = description r' ->
  website r = website r' -> twitter r = twitter r' ->
  endDate r = endDate r' -> claimDeadline r = claimDeadline r' ->
  totalValue r = totalValue r' -> requirements r = requirements r' ->
  status r = status r' -> verificationLevel r = verificationLevel r' ->
  sources r = sources r' -> contractInfo r = contractInfo r' ->
  distribution_method r = distribution_method r' -> risks r = risks r' ->
  tags r = tags r' -> metadata r = metadata r' -> analytics r = analytics r' ->
  r = r'.
Proof. destruct r, r'. simpl. intros. subst. reflexivity. Qed.

Lemma truthy_Some o : truthy o = true -> o = Some (default "" o).
Proof. destruct o; [reflexivity|discriminate]. Qed.

Lemma differs_false a b : differs a b = false -> a = b.
Proof.
  unfold differs. intros H. apply negb_false_iff in H.
  apply bool_decide_eq_true in H. exact H.
Qed.

Lemma differs_same a : differs a a = false.
Proof. unfold differs. rewrite bool_decide_eq_true_2 by reflexivity. reflexivity. Qed.

Lemma sourceExists_after_merge now r c :
  existsb (fun source => bool_decide (url source = sourceUrl c))
    (if existsb (fun source => bool_decide (url source = sourceUrl c)) (sources r)
     then sources r else sources r ++ [newSource now c]) = true.
Proof.
  destruct (existsb _ (sources r)) eqn:E; [exact E|].
  rewrite existsb_app. simpl.
  rewrite bool_decide_eq_true_2 by reflexivity. rewrite orb_true_r. reflexivity.
Qed.

(** X7.  Merging is idempotent up to the time stamp: merging the same
    candidate a second time gives the record of the first merge with
    [metadata.lastVerified] set to the time of the second; in
    particular no second source entry is appended, and one merge
    appends at most one. *)
Theorem merge_twice now now' r c :
  mergeCandidate now' (mergeCandidate now r c) c
    = set_lastVerified now' (mergeCandidate now r c) /\
  (length (sources (mergeCandidate now r c)) <= S (length (sources r)))%nat.
Proof.
  set (m := mergeCandidate now r c).
  destruct (mergeCandidate_fields now r c m eq_refl)
    as (Hd & Hw & He & Ht & Hs & Hmeta & Hrest).
  destruct (mergeCandidate_fields now' m c _ eq_refl)
    as (Hd2 & Hw2 & He2 & Ht2 & Hs2 & Hmeta2 & Hrest2).
  destruct Hrest2 as (R1 & R2 & R3 & R4 & R5 & R6 & R7 & R8 & R9 & R10 & R11 & R12
                      & R13 & R14 & R15).
  set (m2 := mergeCandidate now' m c) in *. clearbody m2. clearbody m.
  split.
  - apply VerifiedAirdrop_ext; simpl; try assumption.
    + (* description *)
      rewrite Hd2.
      destruct (truthy (c_description c)) eqn:Tr; simpl; [|reflexivity].
      destruct (differs (c_description c) (Some (description m))) eqn:D; [|reflexivity].
      exfalso. revert D. rewrite Hd. rewrite ?Tr. simpl.
      destruct (differs (c_description c) (Some (description r))) eqn:D1.
      * rewrite <- (truthy_Some _ Tr). rewrite differs_same. discriminate.
      * rewrite D1. discriminate.
    + (* website *)
      rewrite Hw2.
      destruct (truthy (c_website c)) eqn:Tr; simpl; [|reflexivity].
      destruct (differs (c_website c) (website m)) eqn:D; [|reflexivity].
      revert D. rewrite Hw. rewrite ?Tr. simpl.
      destruct (differs (c_website c) (website r)) eqn:D1; [reflexivity|].
      rewrite D1. discriminate.
    + (* endDate *)
      rewrite He2. destruct (c_endDate c) as [t|]; [|reflexivity].
      case_bool_decide as E; [reflexivity|].
      exfalso. apply E. rewrite He. case_bool_decide; congruence.
    + (* totalValue *)
      rewrite Ht2.
      destruct (truthy (c_totalValue c)) eqn:Tr; simpl; [|reflexivity].
      destruct (differs (c_totalValue c) (totalValue m)) eqn:D; [|reflexivity].
      revert D. rewrite Ht. rewrite ?Tr. simpl.
      destruct (differs (c_totalValue c) (totalValue r)) eqn:D1.
      * rewrite differs_same. discriminate.
      * rewrite D1. discriminate.
    + (* sources *)
      rewrite Hs2. rewrite Hs at 1. rewrite sourceExists_after_merge. reflexivity.
  - rewrite Hs. destruct (existsb _ _); [lia|]. rewrite length_app. simpl. lia.
Qed.

(** X8.  A merge keeps the URLs of the source entries distinct: when no
    two entries of a record share a URL, no two entries of the merged
    record do, and the record that [save()] stores has the sources of
    the merged one. *)
Theorem merge_sources_distinct now existing c :
  NoDup (url <$> sources existing) ->
  NoDup (url <$> sources (mergeCandidate now existing c)) /\
  forall i (s : Store),
    match saveExisting now i existing (mergeCandidate now existing c) s with
    | (Ok saved, _) => NoDup (url <$> sources saved)
    | (Throw _, s') => s' = s
    end.
Proof.
  intros Hn.
  assert (Hm : NoDup (url <$> sources (mergeCandidate now existing c))).
  { destruct (mergeCandidate_fields now existing c _ eq_refl)
      as (_ & _ & _ & _ & Hs & _).
    rewrite Hs. destruct (existsb _ (sources existing)) eqn:E; [exact Hn|].
    rewrite fmap_app. simpl. apply NoDup_app. split; [exact Hn|].
    split; [|apply NoDup_singleton].
    intros u Hu Hin. apply list_elem_of_singleton in Hin. subst u.
    apply list_elem_of_fmap in Hu as (src & Hsrc & Hin).
    assert (existsb (fun source => bool_decide (url source = sourceUrl c))
              (sources existing) = true); [|congruence].
    apply existsb_exists. exists src. split; [apply list_elem_of_In; exact Hin|].
    apply bool_decide_eq_true. auto. }
  split; [exact Hm|]. intros i s.
  pose proof (saveExisting_spec now i existing (mergeCandidate now existing c) s) as H.
  destruct (saveExisting _ _ _ _ _) as [[saved|e] s']; [|exact H].
  destruct H as (_ & -> & _).
  destruct (preSave_frame now false existing (mergeCandidate now existing c))
    as (_ & _ & _ & _ & _ & _ & _ & _ & _ & _ & _ & _ & _ & _ & Fs & _).
  rewrite Fs. exact Hm.
Qed.

(** * Further properties of the schema *)

(** *** Tags *)

Lemma includes_elem (l : list string) x : includes l x = true <-> x ∈ l.
Proof.
  unfold includes. rewrite existsb_exists. split.
  - intros (y & Hin & Hy). apply bool_decide_eq_true in Hy. subst.
    apply list_elem_of_In. exact Hin.
  - intros H. exists x. split; [apply list_elem_of_In; exact H|].
    apply bool_decide_eq_true. reflexivity.
Qed.

Lemma dedupe_spec : forall l seen,
  NoDup (dedupe seen l) /\
  (forall x, x ∈ dedupe seen l <-> x ∈ l /\ x ∉ seen).
Proof.
  induction l as [|a l IH]; intros seen; simpl.
  { split; [constructor|]. intros x. split; [intros H; inversion H|intros [H _]; inversion H]. }
  destruct (includes seen a) eqn:E.
  - destruct (IH seen) as [Hn Hm]. split; [exact Hn|].
    intros x. rewrite Hm. apply includes_elem in E. split.
    + intros [H1 H2]. split; [right; exact H1|exact H2].
    + intros [H1 H2]. split; [|exact H2].
      apply elem_of_cons in H1 as [->|H1]; [contradiction|exact H1].
  - destruct (IH (a :: seen)) as [Hn Hm].
    assert (Ha : a ∉ seen).
    { intros H. apply includes_elem in H. congruence. }
    split.
    + constructor; [|exact Hn]. rewrite Hm. intros [_ H]. apply H. left.
    + intros x. rewrite elem_of_cons, Hm. split.
      * intros [->|[H1 H2]]; [split; [left|exact Ha]|].
        split; [right; exact H1|]. intros H. apply H2. right. exact H.
      * intros [H1 H2]. apply elem_of_cons in H1 as [->|H1]; [left; reflexivity|].
        destruct (decide (x = a)) as [->|Hne]; [left; reflexivity|].
        right. split; [exact H1|]. intros H. apply elem_of_cons in H as [H|H]; auto.
Qed.

Lemma generateAutoTags_head r :
  exists rest, generateAutoTags r = blockchain r :: rest.
Proof.
  unfold generateAutoTags.
  assert (H : forall l : list string,
            exists rest, dedupe [] ((blockchain r :: l)) = blockchain r :: rest).
  { intros l. simpl. eauto. }
  destruct (bool_decide (verificationLevel r = official));
    destruct (ci_verified (contractInfo r));
    destruct (kyc (requirements r));
    destruct (whitelistOnly (requirements r));
    destruct (truthy (totalValue r));
    try destruct (parseFloat_gt (default "" (totalValue r)) 1000000);
    try destruct (parseFloat_gt (default "" (totalValue r)) 100000);
    apply H.
Qed.

(** X9.  The generated tags have no duplicates, begin with the
    blockchain and contain the name of the status.  The pre-save hook
    generates them only for a record without tags: a saved record
    always has tags, and a record that has tags keeps exactly those on
    every later save, whatever has changed in it (its status
    included). *)
Theorem tags_generated_once now isNew loaded r :
  NoDup (generateAutoTags r) /\
  head (generateAutoTags r) = Some (blockchain r) /\
  status_name (status r) ∈ generateAutoTags r /\
  tags (preSave now isNew loaded r) <> [] /\
  (tags r <> [] -> tags (preSave now isNew loaded r) = tags r).
Proof.
  split; [apply dedupe_spec|]. split.
  { destruct (generateAutoTags_head r) as [rest ->]. reflexivity. }
  split.
  { unfold generateAutoTags. apply dedupe_spec. split; [|intros H; inversion H].
    apply elem_of_app. right. left. }
  assert (Htags : forall x : VerifiedAirdrop,
    tags match tags x with
         | [] => set_tags (toLowerCase <$> generateAutoTags x) x
         | _ :: _ => x
         end <> [] /\
    (tags x <> [] ->
     tags match tags x with
          | [] => set_tags (toLowerCase <$> generateAutoTags x) x
          | _ :: _ => x
          end = tags x)).
  { intros x. destruct (tags x) as [|t ts] eqn:E.
    - split; [|congruence]. simpl.
      destruct (generateAutoTags_head x) as [rest ->]. discriminate.
    - rewrite E. split; [discriminate|reflexivity]. }
  unfold preSave.
  destruct (isNew || negb (bool_decide (verificationLevel loaded = verificationLevel r)))%bool;
    match goal with
    | |- context [ (isNew || negb (bool_decide (loaded = ?x)))%bool ] =>
        destruct (isNew || negb (bool_decide (loaded = x)))%bool
    end;
    match goal with
    | |- context [ match tags ?x with _ => _ end ] =>
        destruct (Htags x) as [H1 H2]
    end; (split; [exact H1|exact H2]).
Qed.

(** *** The virtuals [isActive] and [daysUntilExpiry] *)

(** [VerifiedAirdropSchema.virtual('isActive')] *)
Definition isActive (now : Z) (r : VerifiedAirdrop) : bool :=
  (bool_decide (status r = active)
   && match endDate r with None => true | Some t => bool_decide (now < t) end
   && match claimDeadline r with None => true | Some t => bool_decide (now < t) end)%bool.

(** [{ $or: [{ field: { $gt: now } }, { field: { $exists: false } }] }] *)
Definition afterOrAbsent (d : option Z) (now : Z) : bool :=
  (match d with Some t => bool_decide (now < t) | None => false end
   || match d with Some _ => false | None => true end)%bool.

(** The filter of [VerifiedAirdropSchema.statics.findActiveAirdrops]
    and of the route [GET /active]. *)
Definition activeFilter (now : Z) (r : VerifiedAirdrop) : bool :=
  (bool_decide (status r = active)
   && (afterOrAbsent (endDate r) now && afterOrAbsent (claimDeadline r) now))%bool.

(** X10.  The filter of [findActiveAirdrops] selects exactly the
    records whose virtual [isActive] holds.  A record that is active in
    this sense is not expired by the maintenance pass at the same time;
    a record with status [active] that is neither active in this sense
    nor expired has a date equal to the current time (the one side
    compares with "later than", the other with "earlier than"). *)
Theorem active_filter_and_virtual now r :
  activeFilter now r = isActive now r /\
  (isActive now r = true -> expiredQuery now r = false) /\
  (status r = active -> isActive now r = false -> expiredQuery now r = false ->
   endDate r = Some now \/ claimDeadline r = Some now).
Proof.
  unfold activeFilter, isActive, afterOrAbsent, expiredQuery, isOpen, dateBefore.
  split; [|split].
  - destruct (endDate r), (claimDeadline r); simpl;
      rewrite ?orb_false_r, ?andb_true_r; try rewrite andb_assoc; reflexivity.
  - intros H. apply andb_true_iff in H as [H H3]. apply andb_true_iff in H as [H1 H2].
    rewrite H1. simpl.
    destruct (endDate r) as [t1|], (claimDeadline r) as [t2|]; simpl;
      repeat match goal with
             | H : bool_decide _ = true |- _ => apply bool_decide_eq_true in H
             end;
      rewrite ?bool_decide_eq_false_2 by lia; reflexivity.
  - intros Hst. rewrite Hst.
    rewrite (bool_decide_eq_true_2 (active = active)) by reflexivity. simpl.
    destruct (endDate r) as [t1|], (claimDeadline r) as [t2|]; simpl;
      repeat case_bool_decide; simpl; try discriminate; intros _ _;
      first [left; f_equal; lia | right; f_equal; lia].
Qed.






(** *** Schema methods *)

(** A save of a record that differs from the loaded one, with or
    without the entry of the hook, refreshes [lastVerified]. *)
Lemma preSave_touch now loaded r :
  (forall e, loaded <> push_history e r) -> loaded <> r ->
  lastVerified (metadata (preSave now false loaded r)) = now.
Proof.
  intros H1 H2. unfold preSave. simpl.
  destruct (negb (bool_decide (verificationLevel loaded = verificationLevel r))).
  - rewrite bool_decide_eq_false_2 by apply H1. simpl.
    destruct (tags _); reflexivity.
  - rewrite bool_decide_eq_false_2 by exact H2. simpl.
    destruct (tags _); reflexivity.
Qed.

(** X12.  [updateVerificationLevel] writes its own entry to the audit
    log and then saves; the pre-save hook adds a second entry when the
    level really changed.  So a saved change of level adds two entries
    to the log, and a call with the level the record already has adds
    one; the stored record has the new level and [lastVerified] at the
    current time. *)
Theorem updateVerificationLevel_entries now i r newLevel updatedBy details (s : Store) :
  match updateVerificationLevel now i r newLevel updatedBy details s with
  | (Ok saved, s') =>
      s' !! i = Some (Some saved) /\
      verificationLevel saved = newLevel /\
      lastVerified (metadata saved) = now /\
      length (history saved) =
        (length (history r)
         + (if bool_decide (verificationLevel r = newLevel) then 1 else 2))%nat
  | (Throw _, s') => s' = s
  end.
Proof.
  unfold updateVerificationLevel.
  set (d := updateVerificationLevel_doc now newLevel updatedBy details r).
  pose proof (saveExisting_spec now i r d s) as H.
  destruct (saveExisting now i r d s) as [[saved|e] s']; [|exact H].
  destruct H as (_ & -> & Hsome & ->).
  assert (Hlen : length (history d) = S (length (history r))).
  { unfold d, history. simpl. rewrite length_app. simpl. lia. }
  assert (Hl : verificationLevel d = newLevel) by reflexivity.
  clearbody d.
  split.
  { apply list_lookup_insert_eq.
    destruct (s !! i) eqn:E; [|destruct Hsome; discriminate].
    eapply lookup_lt_Some; eauto. }
  split; [rewrite preSave_verificationLevel; exact Hl|].
  split.
  - apply preSave_touch.
    + intros e E. apply (f_equal (fun x => length (history x))) in E.
      change (history (push_history e d)) with (history d ++ [e]) in E.
      rewrite length_app in E. simpl in E. lia.
    + intros E. apply (f_equal (fun x => length (history x))) in E. lia.
  - unfold history in *. rewrite preSave_history. simpl.
    rewrite Hl. case_bool_decide; simpl; rewrite ?length_app; simpl; lia.
Qed.

(** X13.  [incrementViews] stores the record with one more view and,
    through the pre-save hook, with [lastVerified] at the current time;
    status, level and audit log are as before.  So a record that has
    just been viewed is not removed by a retention sweep whose
    three-month threshold is not later than the view. *)
Theorem incrementViews_refreshes now i r (s : Store) :
  match incrementViews now i r s with
  | (Ok saved, s') =>
      s' !! i = Some (Some saved) /\
      views (analytics saved) = S (views (analytics r)) /\
      lastVerified (metadata saved) = now /\
      status saved = status r /\ verificationLevel saved = verificationLevel r /\
      history saved = history r /\
      forall now', threeMonthsBefore now' <= now ->
        cleanupObsoleteData now' s' !! i = Some (Some saved)
  | (Throw _, s') => s' = s
  end.
Proof.
  unfold incrementViews.
  set (d := incrementViews_doc r).
  pose proof (saveExisting_spec now i r d s) as H.
  destruct (saveExisting now i r d s) as [[saved|e] s']; [|exact H].
  destruct H as (_ & Hsaved & Hsome & ->).
  assert (Hslot : <[i:=Some saved]> s !! i = Some (Some saved)).
  { apply list_lookup_insert_eq.
    destruct (s !! i) eqn:E; [|destruct Hsome; discriminate].
    eapply lookup_lt_Some; eauto. }
  assert (Hne : r <> d).
  { intros E. apply (f_equal (fun x => views (analytics x))) in E.
    unfold d in E. simpl in E. lia. }
  assert (Hlv : lastVerified (metadata saved) = now).
  { subst saved. unfold preSave.
    rewrite (bool_decide_eq_true_2 (verificationLevel r = verificationLevel d))
      by reflexivity. simpl.
    rewrite bool_decide_eq_false_2 by exact Hne. simpl.
    destruct (tags _); reflexivity. }
  destruct (preSave_frame now false r d)
    as (_ & _ & _ & _ & _ & _ & _ & _ & _ & _ & _ & _ & Fst & Fl & _ & _ & _ & _ & Fan).
  rewrite <- Hsaved in Fst, Fl, Fan.
  split; [exact Hslot|]. split; [rewrite Fan; reflexivity|]. split; [exact Hlv|].
  split; [exact Fst|]. split; [exact Fl|]. split.
  { subst saved. unfold history. rewrite preSave_history.
    rewrite (bool_decide_eq_true_2 (verificationLevel r = verificationLevel d))
      by reflexivity. reflexivity. }
  intros now' Hth. unfold cleanupObsoleteData. rewrite deleteMany_lookup, Hslot.
  assert (E : obsoleteQuery now' saved = false).
  { unfold obsoleteQuery. rewrite Hlv.
    rewrite (bool_decide_eq_false_2 (now < threeMonthsBefore now')) by lia.
    rewrite andb_false_r. reflexivity. }
  rewrite E. reflexivity.
Qed.

(** * What every operation preserves *)

(** From [s] to [s'] each record either was deleted or is related by
    [step] to what it was; an emptied slot stays empty. *)
Definition evolves (step : VerifiedAirdrop -> VerifiedAirdrop -> Prop)
  (s s' : Store) : Prop :=
  forall i,
    match s !! i with
    | Some (Some r) =>
        s' !! i = Some None \/ exists r', s' !! i = Some (Some r') /\ step r r'
    | Some None => s' !! i = Some None
    | None => True
    end.

(** The write of the routes [POST /:id/claim] and [POST /claim] of
    [routes/airdrops.ts] on the document in memory. *)
Definition registerClaim_doc (r : VerifiedAirdrop) : VerifiedAirdrop :=
  set_analytics
    (mkAnalytics (views (analytics r)) (S (claims (analytics r)))
       (S (successfulClaims (analytics r)))) r.

(** [VerifiedAirdropSchema.methods.recordClaim] on the document in
    memory, as far as the fields of the record here go: the counters.
    The list of top claimers and the claimed totals, which the method
    computes with floating point numbers, are not fields of this
    record. *)
Definition recordClaim_doc (successful : bool) (r : VerifiedAirdrop) : VerifiedAirdrop :=
  set_analytics
    (mkAnalytics (views (analytics r)) (S (claims (analytics r)))
       (if successful then S (successfulClaims (analytics r))
        else successfulClaims (analytics r))) r.

(** Everything that writes the collection: the operations of the
    services and of the schema, and the writing routes, for a request
    that passed the check of its parameters.  [GET /:id] adds a view
    and saves; the claim routes add a claim and a successful claim and
    save; [recordClaim] ends with [save()] like the other methods.  A
    failing [save()] is answered with status 500 and leaves the
    collection as it was. *)
Inductive Request :=
| Internal (op : Op)
| GetDetails (now : Z) (id : nat)
| PostClaim (now : Z) (id : nat)
| RecordClaim (now : Z) (id : nat) (successful : bool).

Definition handle (req : Request) (s : Store) : Store :=
  match req with
  | Internal op => applyOp op s
  | GetDetails now id =>
      withDocument id s (fun r => saveExisting now id r (incrementViews_doc r) s)
  | PostClaim now id =>
      withDocument id s (fun r => saveExisting now id r (registerClaim_doc r) s)
  | RecordClaim now id successful =>
      withDocument id s (fun r => saveExisting now id r (recordClaim_doc successful r) s)
  end.

Definition serve (reqs : list Request) (s : Store) : Store :=
  fold_left (fun st req => handle req st) reqs s.

Section Evolution.

Variable step : VerifiedAirdrop -> VerifiedAirdrop -> Prop.
Hypothesis step_refl : forall r, step r r.
Hypothesis step_trans : forall r1 r2 r3, step r1 r2 -> step r2 r3 -> step r1 r3.

Lemma evolves_refl (s : Store) : evolves step s s.
Proof.
  intros i. destruct (s !! i) as [[r|]|]; auto. right. exists r. auto.
Qed.

Lemma evolves_trans (s1 s2 s3 : Store) :
  evolves step s1 s2 -> evolves step s2 s3 -> evolves step s1 s3.
Proof.
  intros H12 H23 i. specialize (H12 i). specialize (H23 i).
  destruct (s1 !! i) as [[r|]|]; [| |exact I].
  - destruct H12 as [E|(r' & E & Hp)]; rewrite E in H23; [left; exact H23|].
    destruct H23 as [E3|(r'' & E3 & Hp')]; [left; exact E3|].
    right. exists r''. split; [exact E3|]. eapply step_trans; eauto.
  - rewrite H12 in H23. exact H23.
Qed.

Lemma updateOne_evolves q f (s : Store) :
  (forall r, q r = true -> step r (f r)) -> evolves step s (updateOne q f s).
Proof.
  intros Hf i. rewrite updateOne_lookup.
  destruct (s !! i) as [[r|]|] eqn:Hi; auto.
  right. eexists. split; [reflexivity|].
  case_bool_decide as E; [|apply step_refl].
  apply Hf. destruct (findOne q s) as [[j r0]|] eqn:Ef; simpl in E; [|discriminate].
  inversion E; subst j. apply findOne_spec in Ef as (Hj & Hq & _). congruence.
Qed.

Lemma deleteMany_evolves q (s : Store) : evolves step s (deleteMany q s).
Proof.
  intros i. rewrite deleteMany_lookup.
  destruct (s !! i) as [[r|]|]; auto.
  destruct (q r); [left; reflexivity|].
  right. exists r. auto.
Qed.

Lemma serve_evolves (allowed : Request -> bool) :
  (forall req (s : Store), allowed req = true -> evolves step s (handle req s)) ->
  forall reqs (s : Store),
    forallb allowed reqs = true -> evolves step s (serve reqs s).
Proof.
  intros H. unfold serve.
  induction reqs as [|req reqs IH]; intros s Hall; simpl; [apply evolves_refl|].
  simpl in Hall. apply andb_true_iff in Hall as [Ha Hall].
  eapply evolves_trans; [apply H; exact Ha|apply IH; exact Hall].
Qed.

Hypothesis step_save : forall now isNew loaded r, step r (preSave now isNew loaded r).

Lemma saveNew_evolves now r (s : Store) : evolves step s (snd (saveNew now r s)).
Proof.
  pose proof (saveNew_spec now r s) as H.
  destruct (saveNew now r s) as [[saved|e] s']; simpl;
    [|subst; apply evolves_refl].
  destruct H as (_ & _ & _ & ->). intros i.
  destruct (s !! i) as [[x|]|] eqn:E; [| |exact I].
  - right. exists x. split; [|apply step_refl].
    rewrite lookup_app_l; [exact E|]. eapply lookup_lt_Some; eauto.
  - rewrite lookup_app_l; [exact E|]. eapply lookup_lt_Some; eauto.
Qed.

Lemma createNewVerifiedAirdrop_evolves now c (s : Store) :
  evolves step s (snd (createNewVerifiedAirdrop now c s)).
Proof.
  unfold createNewVerifiedAirdrop.
  pose proof (saveNew_evolves now (newVerifiedAirdrop now c) s) as H.
  destruct (saveNew _ _ s) as [[saved|e] s']; exact H.
Qed.

Lemma saveExisting_evolves now i loaded r (s : Store) :
  s !! i = Some (Some loaded) -> step loaded r ->
  evolves step s (snd (saveExisting now i loaded r s)).
Proof.
  intros Hi Hp. pose proof (saveExisting_spec now i loaded r s) as H.
  destruct (saveExisting now i loaded r s) as [[saved|e] s']; simpl;
    [|subst; apply evolves_refl].
  destruct H as (_ & -> & _ & ->). intros j.
  destruct (decide (j = i)) as [->|Hne].
  - rewrite Hi. right. eexists. split.
    + apply list_lookup_insert_eq. eapply lookup_lt_Some; eauto.
    + eapply step_trans; [exact Hp|apply step_save].
  - rewrite list_lookup_insert_ne by congruence.
    destruct (s !! j) as [[x|]|]; auto.
    right. exists x. auto.
Qed.

(** A method or a route: it changes the document read from its slot
    and saves it. *)
Lemma withDocument_evolves now i doc (s : Store) :
  (forall r, step r (doc r)) ->
  evolves step s (withDocument i s (fun r => saveExisting now i r (doc r) s)).
Proof.
  intros Hd. unfold withDocument.
  destruct (s !! i) as [[r|]|] eqn:Hi; try apply evolves_refl.
  apply saveExisting_evolves; [exact Hi|apply Hd].
Qed.

Hypothesis step_merge : forall now r c, step r (mergeCandidate now r c).
Hypothesis step_info : forall now info r, step r (setContractInfo now info r).
Hypothesis step_raise :
  forall r, verificationLevel r = unverified -> step r (raiseToCommunity r).
Hypothesis step_expire : forall r, isOpen r = true -> step r (set_status ended r).

Lemma verifyAndUpdateContract_evolves now addr chain (s : Store) :
  evolves step s (verifyAndUpdateContract now addr chain s).
Proof.
  unfold verifyAndUpdateContract.
  destruct (verifyContract contractVerificationService addr chain) as [info|e];
    [|apply evolves_refl].
  destruct (ChainProbe.verified info && ChainProbe.isValid info)%bool.
  - eapply evolves_trans; apply updateOne_evolves.
    + intros r _. apply step_info.
    + intros r Hq. apply andb_true_iff in Hq as [_ Hq].
      apply bool_decide_eq_true in Hq. apply step_raise. exact Hq.
  - apply updateOne_evolves. intros r _. apply step_info.
Qed.

Lemma processAirdropData_evolves now c result (s : Store) :
  evolves step s (snd (processAirdropData now c result s)).
Proof.
  unfold processAirdropData.
  destruct (findOne (identityQuery c) s) as [[i existing]|] eqn:Ef.
  - apply findOne_spec in Ef as (Hi & _).
    unfold updateExistingAirdrop.
    pose proof (saveExisting_evolves now i existing (mergeCandidate now existing c) s Hi
                  (step_merge now existing c)) as H.
    destruct (saveExisting _ _ _ _ _) as [[saved|e] s']; simpl in *; [|exact H].
    destruct (truthy (c_contractAddress c)); simpl; [|exact H].
    eapply evolves_trans; [exact H|apply verifyAndUpdateContract_evolves].
  - pose proof (createNewVerifiedAirdrop_evolves now c s) as H.
    destruct (createNewVerifiedAirdrop now c s) as [[saved|] s']; simpl in *;
      (destruct (truthy (c_contractAddress c)); simpl; [|exact H];
       eapply evolves_trans; [exact H|apply verifyAndUpdateContract_evolves]).
Qed.

Lemma processCandidates_evolves now cands : forall result (s : Store),
  evolves step s (snd (processCandidates now cands result s)).
Proof.
  unfold processCandidates.
  induction cands as [|c cands IH]; intros result s; simpl; [apply evolves_refl|].
  pose proof (processAirdropData_evolves now c result s) as H.
  destruct (processAirdropData now c result s) as [[[u|e] result'] s']; simpl in *;
    (eapply evolves_trans; [exact H|apply IH]).
Qed.

Lemma updateExistingAirdrops_evolves now (s : Store) :
  evolves step s (updateExistingAirdrops now s).
Proof.
  intros i. pose proof (maintenance_lookup now s i) as H.
  destruct (s !! i) as [[r|]|] eqn:Hi; [|exact H|exact I].
  destruct H as (y & Hy & Hout). right. exists y. split; [exact Hy|].
  destruct (expiredQuery now r) eqn:Eq.
  - apply andb_true_iff in Eq as [Ho _].
    destruct Hout as [->|(_ & Hst & _)]; [apply step_expire; exact Ho|].
    discriminate Hst.
  - destruct Hout as [->|(_ & Hst & ->)]; [apply step_refl|].
    eapply step_trans; [|apply step_save].
    apply step_expire. unfold isOpen. rewrite Hst. reflexivity.
Qed.

Lemma syncTry_evolves now fetched result svc (s : Store) :
  evolves step s (snd (syncTry now fetched result svc s)).
Proof.
  unfold syncTry. destruct fetched as [cands|e]; simpl; [|apply evolves_refl].
  pose proof (processCandidates_evolves now cands result s) as H.
  destruct (processCandidates now cands result s) as [result1 s1]. simpl in *.
  eapply evolves_trans; [exact H|].
  eapply evolves_trans; [apply updateExistingAirdrops_evolves|].
  apply deleteMany_evolves.
Qed.

Lemma processDetectedAirdrop_evolves now event (s : Store) :
  (forall t r, step r (set_lastVerified now (set_lastActivity t r))) ->
  evolves step s (processDetectedAirdrop now event s).
Proof.
  intros Hseen. unfold processDetectedAirdrop.
  destruct (findOne _ s) as [[i existing]|] eqn:Ef.
  - apply findOne_spec in Ef as (Hi & _).
    apply saveExisting_evolves; [exact Hi|apply Hseen].
  - destruct (verifyContract _ _ _) as [info|e]; [|apply evolves_refl].
    destruct (negb (ChainProbe.isValid info)); [apply evolves_refl|].
    apply createNewVerifiedAirdrop_evolves.
Qed.

End Evolution.

Lemma forallb_all {A} (l : list A) : forallb (fun _ => true) l = true.
Proof. induction l; simpl; auto. Qed.

(** *** Fields that are written once *)

(** No write touches these fields; tags, once there, stay as they are. *)
Definition frozen (r r' : VerifiedAirdrop) : Prop :=
  name r' = name r /\ symbol r' = symbol r /\
  contractAddress r' = contractAddress r /\ tokenAddress r' = tokenAddress r /\
  blockchain r' = blockchain r /\ twitter r' = twitter r /\
  claimDeadline r' = claimDeadline r /\ requirements r' = requirements r /\
  distribution_method r' = distribution_method r /\
  addedBy (metadata r') = addedBy (metadata r) /\
  addedAt (metadata r') = addedAt (metadata r) /\
  (tags r <> [] -> tags r' = tags r).

Lemma frozen_refl r : frozen r r.
Proof. unfold frozen. repeat split; reflexivity. Qed.

Lemma frozen_trans r1 r2 r3 : frozen r1 r2 -> frozen r2 r3 -> frozen r1 r3.
Proof.
  unfold frozen.
  intros (A1 & A2 & A3 & A4 & A5 & A6 & A7 & A8 & A9 & A10 & A11 & A12)
         (B1 & B2 & B3 & B4 & B5 & B6 & B7 & B8 & B9 & B10 & B11 & B12).
  repeat split; try congruence.
  intros H. rewrite B12, A12; auto. rewrite A12; auto.
Qed.

Lemma frozen_save now isNew loaded r : frozen r (preSave now isNew loaded r).
Proof.
  unfold frozen, preSave.
  destruct (isNew || negb (bool_decide (verificationLevel loaded = verificationLevel r)))%bool;
    match goal with
    | |- context [ (isNew || negb (bool_decide (loaded = ?x)))%bool ] =>
        destruct (isNew || negb (bool_decide (loaded = x)))%bool
    end; simpl;
    destruct (tags r) eqn:E; simpl; repeat split; try reflexivity;
    try congruence; try (intros; exact E).
Qed.

Lemma frozen_merge now r c : frozen r (mergeCandidate now r c).
Proof.
  destruct (mergeCandidate_fields now r c _ eq_refl)
    as (_ & _ & _ & _ & _ & Hm & H).
  unfold frozen. rewrite Hm. simpl. intuition congruence.
Qed.

Lemma frozen_handle req (s : Store) : evolves frozen s (handle req s).
Proof.
  destruct req as [op|now id|now id|now id successful]; [destruct op|..]; simpl.
  - apply syncTry_evolves;
      first [exact frozen_refl | exact frozen_trans | exact frozen_save
            | exact frozen_merge
            | intros; unfold frozen; simpl; repeat split; reflexivity].
  - apply processDetectedAirdrop_evolves;
      first [exact frozen_refl | exact frozen_trans | exact frozen_save
            | intros; unfold frozen; simpl; repeat split; reflexivity].
  - apply updateOne_evolves; [exact frozen_refl|].
    intros; unfold frozen; simpl; repeat split; reflexivity.
  - apply (withDocument_evolves frozen frozen_refl frozen_trans frozen_save now i
             incrementViews_doc).
    intros; unfold frozen; simpl; repeat split; reflexivity.
  - apply (withDocument_evolves frozen frozen_refl frozen_trans frozen_save now i
             (updateVerificationLevel_doc now newLevel updatedBy details)).
    intros; unfold frozen; simpl; repeat split; reflexivity.
  - apply (withDocument_evolves frozen frozen_refl frozen_trans frozen_save now i
             (addRiskWarning_doc warning factor)).
    intros; unfold frozen; simpl; repeat split; reflexivity.
  - apply (withDocument_evolves frozen frozen_refl frozen_trans frozen_save now id
             incrementViews_doc).
    intros; unfold frozen; simpl; repeat split; reflexivity.
  - apply (withDocument_evolves frozen frozen_refl frozen_trans frozen_save now id
             registerClaim_doc).
    intros; unfold frozen; simpl; repeat split; reflexivity.
  - apply (withDocument_evolves frozen frozen_refl frozen_trans frozen_save now id
             (recordClaim_doc successful)).
    intros; unfold frozen; simpl; repeat split; reflexivity.
Qed.

(** X14.  Name, symbol, contract address, token address, blockchain,
    twitter, claim deadline, requirements, distribution method and the
    creation stamp of a record are written when it is created and never
    again: whatever sequence of syncs, detected events, claim-opened
    signals, schema methods and writing routes runs, a record that is
    still in the collection has them unchanged, and its tags, once
    generated, too. *)
Theorem written_once_fields reqs (s : Store) : evolves frozen s (serve reqs s).
Proof.
  apply (serve_evolves frozen frozen_refl frozen_trans (fun _ => true)).
  - intros req s0 _. apply frozen_handle.
  - apply forallb_all.
Qed.

(** A tactic for the side conditions of the lemmas on [evolves]: each
    is closed by one of the given facts or by computation. *)
Ltac step_facts refl trans save tac :=
  first [exact refl | exact trans | exact save | tac].

(** *** Sources and counters *)

Definition sourcesGrow (r r' : VerifiedAirdrop) : Prop :=
  sources r `prefix_of` sources r'.

Lemma sourcesGrow_refl r : sourcesGrow r r.
Proof. unfold sourcesGrow. reflexivity. Qed.

Lemma sourcesGrow_trans r1 r2 r3 :
  sourcesGrow r1 r2 -> sourcesGrow r2 r3 -> sourcesGrow r1 r3.
Proof. unfold sourcesGrow. intros H1 H2. etrans; eauto. Qed.

Lemma sourcesGrow_save now isNew loaded r : sourcesGrow r (preSave now isNew loaded r).
Proof.
  unfold sourcesGrow.
  destruct (preSave_frame now isNew loaded r)
    as (_ & _ & _ & _ & _ & _ & _ & _ & _ & _ & _ & _ & _ & _ & -> & _).
  reflexivity.
Qed.

Lemma sourcesGrow_merge now r c : sourcesGrow r (mergeCandidate now r c).
Proof.
  destruct (mergeCandidate_fields now r c _ eq_refl) as (_ & _ & _ & _ & Hs & _).
  unfold sourcesGrow. rewrite Hs.
  destruct (existsb _ _); [reflexivity|apply prefix_app_r; reflexivity].
Qed.

Lemma sourcesGrow_handle req (s : Store) : evolves sourcesGrow s (handle req s).
Proof.
  pose proof sourcesGrow_refl as R. pose proof sourcesGrow_trans as T.
  pose proof sourcesGrow_save as S.
  destruct req as [op|now id|now id|now id successful]; [destruct op|..]; simpl.
  - apply syncTry_evolves;
      step_facts R T S ltac:(first [exact sourcesGrow_merge | intros; unfold sourcesGrow; simpl; reflexivity]).
  - apply processDetectedAirdrop_evolves; step_facts R T S ltac:(intros; unfold sourcesGrow; simpl; reflexivity).
  - apply updateOne_evolves; [exact R|]. intros; unfold sourcesGrow; simpl; reflexivity.
  - apply (withDocument_evolves sourcesGrow R T S now i incrementViews_doc).
    intros; unfold sourcesGrow; simpl; reflexivity.
  - apply (withDocument_evolves sourcesGrow R T S now i
             (updateVerificationLevel_doc now newLevel updatedBy details)).
    intros; unfold sourcesGrow; simpl; reflexivity.
  - apply (withDocument_evolves sourcesGrow R T S now i
             (addRiskWarning_doc warning factor)).
    intros; unfold sourcesGrow; simpl; reflexivity.
  - apply (withDocument_evolves sourcesGrow R T S now id incrementViews_doc).
    intros; unfold sourcesGrow; simpl; reflexivity.
  - apply (withDocument_evolves sourcesGrow R T S now id registerClaim_doc).
    intros; unfold sourcesGrow; simpl; reflexivity.
  - apply (withDocument_evolves sourcesGrow R T S now id
             (recordClaim_doc successful)).
    intros; unfold sourcesGrow; simpl; reflexivity.
Qed.

(** X15.  The source list of a record is append-only: whatever
    sequence of syncs, detected events, claim-opened signals, schema
    methods and writing routes runs, a record that is still in the
    collection has its old sources, in their order and unchanged, as a
    prefix of its sources. *)
Theorem sources_append_only reqs (s : Store) : evolves sourcesGrow s (serve reqs s).
Proof.
  apply (serve_evolves sourcesGrow sourcesGrow_refl sourcesGrow_trans (fun _ => true)).
  - intros req s0 _. apply sourcesGrow_handle.
  - apply forallb_all.
Qed.









(** *** Level and status *)

(** The level is as it was, or it went from [unverified] to
    [community]. *)
Definition levelRaised (r r' : VerifiedAirdrop) : Prop :=
  verificationLevel r' = verificationLevel r \/
  (verificationLevel r = unverified /\ verificationLevel r' = community).

Lemma levelRaised_same r r' :
  verificationLevel r' = verificationLevel r -> levelRaised r r'.
Proof. left. assumption. Qed.

Lemma levelRaised_refl r : levelRaised r r.
Proof. left. reflexivity. Qed.

Lemma levelRaised_trans r1 r2 r3 :
  levelRaised r1 r2 -> levelRaised r2 r3 -> levelRaised r1 r3.
Proof.
  unfold levelRaised. intros [H1|[H1 H1']] [H2|[H2 H2']];
    first [left; congruence | right; split; congruence].
Qed.

Lemma levelRaised_save now isNew loaded r : levelRaised r (preSave now isNew loaded r).
Proof. left. apply preSave_verificationLevel. Qed.

Lemma levelRaised_merge now r c : levelRaised r (mergeCandidate now r c).
Proof.
  left. destruct (mergeCandidate_fields now r c _ eq_refl) as (_ & _ & _ & _ & _ & _ & H).
  apply H.
Qed.

Definition isLevelUpdate (req : Request) : bool :=
  match req with
  | Internal (OpUpdateVerificationLevel _ _ _ _ _) => true
  | _ => false
  end.

Lemma levelRaised_handle req (s : Store) :
  negb (isLevelUpdate req) = true -> evolves levelRaised s (handle req s).
Proof.
  pose proof levelRaised_refl as R. pose proof levelRaised_trans as T.
  pose proof levelRaised_save as S.
  destruct req as [op|now id|now id|now id successful]; [destruct op|..]; simpl; intros Hallowed;
    try discriminate.
  - apply syncTry_evolves;
      step_facts R T S
        ltac:(first [exact levelRaised_merge
                    | intros r Hr; right; split; [exact Hr|reflexivity]
                    | intros; left; reflexivity]).
  - apply processDetectedAirdrop_evolves; step_facts R T S ltac:(intros; left; reflexivity).
  - apply updateOne_evolves; [exact R|]. intros; left; reflexivity.
  - apply (withDocument_evolves levelRaised R T S now i incrementViews_doc).
    intros; left; reflexivity.
  - apply (withDocument_evolves levelRaised R T S now i
             (addRiskWarning_doc warning factor)).
    intros; left; reflexivity.
  - apply (withDocument_evolves levelRaised R T S now id incrementViews_doc).
    intros; left; reflexivity.
  - apply (withDocument_evolves levelRaised R T S now id registerClaim_doc).
    intros; left; reflexivity.
  - apply (withDocument_evolves levelRaised R T S now id
             (recordClaim_doc successful)).
    intros; left; reflexivity.
Qed.

(** X17.  Apart from a call of [updateVerificationLevel], nothing
    lowers a verification level or raises one above [community]: over
    every sequence of the other operations and the writing routes, a
    record that is still in the collection has the level it had, or it
    was [unverified] and is [community] now. *)
Theorem level_only_raised reqs (s : Store) :
  forallb (fun req => negb (isLevelUpdate req)) reqs = true ->
  evolves levelRaised s (serve reqs s).
Proof.
  apply (serve_evolves levelRaised levelRaised_refl levelRaised_trans).
  intros req s0. apply levelRaised_handle.
Qed.

(** The status is as it was, or the record was active or upcoming and
    is ended. *)
Definition statusEnds (r r' : VerifiedAirdrop) : Prop :=
  status r' = status r \/ (isOpen r = true /\ status r' = ended).

Lemma statusEnds_refl r : statusEnds r r.
Proof. left. reflexivity. Qed.

Lemma statusEnds_trans r1 r2 r3 :
  statusEnds r1 r2 -> statusEnds r2 r3 -> statusEnds r1 r3.
Proof.
  unfold statusEnds, isOpen. intros [H1|[H1 H1']] [H2|[H2 H2']].
  - left. congruence.
  - right. rewrite <- H1. auto.
  - right. split; [exact H1|congruence].
  - right. auto.
Qed.

Lemma statusEnds_save now isNew loaded r : statusEnds r (preSave now isNew loaded r).
Proof. left. apply preSave_status. Qed.

Lemma statusEnds_merge now r c : statusEnds r (mergeCandidate now r c).
Proof.
  left. destruct (mergeCandidate_fields now r c _ eq_refl) as (_ & _ & _ & _ & _ & _ & H).
  apply H.
Qed.

Definition isClaimOpened (req : Request) : bool :=
  match req with
  | Internal (OpClaimOpened _ _) => true
  | _ => false
  end.

Lemma statusEnds_handle req (s : Store) :
  negb (isClaimOpened req) = true -> evolves statusEnds s (handle req s).
Proof.
  pose proof statusEnds_refl as R. pose proof statusEnds_trans as T.
  pose proof statusEnds_save as S.
  destruct req as [op|now id|now id|now id successful]; [destruct op|..]; simpl; intros Hallowed;
    try discriminate.
  - apply syncTry_evolves;
      step_facts R T S
        ltac:(first [exact statusEnds_merge
                    | intros r Hr; right; split; [exact Hr|reflexivity]
                    | intros; left; reflexivity]).
  - apply processDetectedAirdrop_evolves; step_facts R T S ltac:(intros; left; reflexivity).
  - apply (withDocument_evolves statusEnds R T S now i incrementViews_doc).
    intros; left; reflexivity.
  - apply (withDocument_evolves statusEnds R T S now i
             (updateVerificationLevel_doc now newLevel updatedBy details)).
    intros; left; reflexivity.
  - apply (withDocument_evolves statusEnds R T S now i
             (addRiskWarning_doc warning factor)).
    intros; left; reflexivity.
  - apply (withDocument_evolves statusEnds R T S now id incrementViews_doc).
    intros; left; reflexivity.
  - apply (withDocument_evolves statusEnds R T S now id registerClaim_doc).
    intros; left; reflexivity.
  - apply (withDocument_evolves statusEnds R T S now id
             (recordClaim_doc successful)).
    intros; left; reflexivity.
Qed.

(** X18.  Apart from the claim-opened signal of the monitor, the only
    change of status is the end of an open record: over every sequence
    of the other operations and the writing routes, a record that is
    still in the collection has the status it had, or it was active or
    upcoming and is ended now.  So an ended, cancelled or suspended
    record keeps its status. *)
Theorem status_only_ends reqs (s : Store) :
  forallb (fun req => negb (isClaimOpened req)) reqs = true ->
  evolves statusEnds s (serve reqs s) /\
  forall i r, s !! i = Some (Some r) -> isOpen r = false ->
    serve reqs s !! i = Some None \/
    exists r', serve reqs s !! i = Some (Some r') /\ status r' = status r.
Proof.
  intros Hall.
  assert (H : evolves statusEnds s (serve reqs s)).
  { revert Hall. apply (serve_evolves statusEnds statusEnds_refl statusEnds_trans).
    intros req s0. apply statusEnds_handle. }
  split; [exact H|].
  intros i r Hi Hclosed. specialize (H i). rewrite Hi in H.
  destruct H as [H|(r' & Hr' & [E|[Ho _]])]; [left; exact H| |congruence].
  right. exists r'. auto.
Qed.

(** *** The liveness loop on a contract that is reported inactive *)

Lemma findAllFrom_complete q : forall (s : Store) k j a,
  s !! j = Some (Some a) -> q a = true -> ((k + j)%nat, a) ∈ findAllFrom q k s.
Proof.
  induction s as [|[x|] s IH]; intros k j a Hj Hq; [discriminate| |].
  - destruct j as [|j]; simpl in *.
    + inversion Hj; subst. rewrite Hq. replace (k + 0)%nat with k by lia. left.
    + replace (k + S j)%nat with (S k + j)%nat by lia.
      destruct (q x); [right|]; apply IH; assumption.
  - destruct j as [|j]; simpl in *; [discriminate|].
    replace (k + S j)%nat with (S k + j)%nat by lia. apply IH; assumption.
Qed.

Lemma findAll_complete q (s : Store) j a :
  s !! j = Some (Some a) -> q a = true -> (j, a) ∈ findAll q s.
Proof. intros Hj Hq. apply (findAllFrom_complete q s 0 j a Hj Hq). Qed.

(** One turn of the loop leaves a slot as it was or puts an ended
    record there. *)
Lemma livenessStep_slot now (st : Store) ja k :
  livenessStep now st ja !! k = st !! k \/
  exists y, livenessStep now st ja !! k = Some (Some y) /\ status y = ended /\
            is_Some (st !! k ≫= id).
Proof.
  destruct ja as [j a]. unfold livenessStep.
  destruct (isAirdropActive _ _ _) as [b|e]; [|left; reflexivity].
  destruct (negb b && bool_decide (status a = active))%bool; [|left; reflexivity].
  pose proof (saveExisting_spec now j a (set_status ended a) st) as H.
  destruct (saveExisting _ _ _ _ st) as [[saved|e] s']; simpl;
    [|subst; left; reflexivity].
  destruct H as (_ & -> & Hsome & ->).
  destruct (decide (k = j)) as [->|Hne].
  - right. eexists. split.
    + apply list_lookup_insert_eq.
      destruct (st !! j) eqn:E; [|destruct Hsome; discriminate].
      eapply lookup_lt_Some; eauto.
    + split; [rewrite preSave_status; reflexivity|exact Hsome].
  - left. apply list_lookup_insert_ne. congruence.
Qed.

Lemma liveness_fold_occupied now i : forall snapshot (st : Store),
  is_Some (st !! i ≫= id) ->
  is_Some (fold_left (livenessStep now) snapshot st !! i ≫= id).
Proof.
  induction snapshot as [|ja snapshot IH]; intros st H; simpl; [exact H|].
  apply IH. destruct (livenessStep_slot now st ja i) as [E|(y & E & _)]; rewrite E; eauto.
Qed.

Lemma liveness_fold_ended now i : forall snapshot (st : Store),
  (exists y, st !! i = Some (Some y) /\ status y = ended) ->
  exists y, fold_left (livenessStep now) snapshot st !! i = Some (Some y) /\
            status y = ended.
Proof.
  induction snapshot as [|ja snapshot IH]; intros st H; simpl; [exact H|].
  apply IH. destruct (livenessStep_slot now st ja i) as [E|(y & E & Hy & _)].
  - rewrite E. exact H.
  - exists y. auto.
Qed.

Lemma liveness_fold_ends now i a : forall snapshot (st : Store),
  (i, a) ∈ snapshot ->
  is_Some (st !! i ≫= id) ->
  isAirdropActive contractVerificationService (contractAddress a) (blockchain a)
    = Ok false ->
  status a = active -> validate (set_status ended a) = true ->
  exists y, fold_left (livenessStep now) snapshot st !! i = Some (Some y) /\
            status y = ended.
Proof.
  induction snapshot as [|ja snapshot IH]; intros st Hin Hocc Hprobe Hst Hval;
    [inversion Hin|].
  simpl. apply elem_of_cons in Hin as [<-|Hin].
  - apply liveness_fold_ended. unfold livenessStep. rewrite Hprobe, Hst.
    rewrite bool_decide_eq_true_2 by reflexivity. simpl.
    unfold saveExisting. rewrite Hval. simpl.
    destruct (st !! i) as [[x|]|] eqn:E; try (destruct Hocc; discriminate).
    simpl. eexists. split.
    + apply list_lookup_insert_eq. eapply lookup_lt_Some; eauto.
    + rewrite preSave_status. reflexivity.
  - apply IH; try assumption.
    destruct (livenessStep_slot now st ja i) as [E|(y & E & _)]; rewrite E; eauto.
Qed.

(** An active record with a contract address that the probe reports
    inactive is ended by the maintenance pass. *)
Lemma maintenance_ends_inactive now (s : Store) i r :
  s !! i = Some (Some r) -> status r = active -> contractAddress r <> "" ->
  isAirdropActive contractVerificationService (contractAddress r) (blockchain r)
    = Ok false ->
  validate (set_status ended r) = true ->
  exists r', updateExistingAirdrops now s !! i = Some (Some r') /\ status r' = ended.
Proof.
  intros Hi Hst Haddr Hprobe Hval. unfold updateExistingAirdrops.
  set (s1 := updateMany (expiredQuery now) (set_status ended) s).
  assert (H1 : s1 !! i = Some (Some (if expiredQuery now r then set_status ended r else r))).
  { unfold s1. rewrite updateMany_lookup, Hi. reflexivity. }
  destruct (expiredQuery now r).
  - apply liveness_fold_ended. eexists. split; [exact H1|reflexivity].
  - apply (liveness_fold_ends now i r); try assumption.
    + apply findAll_complete; [exact H1|].
      unfold livenessQuery, isOpen. rewrite Hst.
      rewrite (bool_decide_eq_true_2 (active = active)) by reflexivity.
      rewrite (bool_decide_eq_false_2 (contractAddress r = "")) by exact Haddr.
      reflexivity.
    + rewrite H1. simpl. eauto.
Qed.

End Reconciler.

(** ** Enrichment over a sequence of probe results *)

(** The enrichment step run once per probe, each with its own clock
    reading. *)
Definition enrichSequence (probes : list (ContractVerificationService * Z))
  (addr chain : string) (s : Store) : Store :=
  fold_left (fun st p => verifyAndUpdateContract (fst p) (snd p) addr chain st) probes s.

Lemma enrichment_sequence_monotone probes addr chain : forall (s : Store) i r,
  s !! i = Some (Some r) ->
  exists r', enrichSequence probes addr chain s !! i = Some (Some r') /\
    (level_rank (verificationLevel r) <= level_rank (verificationLevel r'))%nat.
Proof.
  unfold enrichSequence.
  induction probes as [|[svc now] probes IH]; intros s i r Hi; simpl.
  - exists r. split; [exact Hi|lia].
  - destruct (verifyAndUpdateContract_slot svc now addr chain s i r Hi)
      as (r1 & H1 & Hlev & _).
    destruct (IH _ i r1 H1) as (r' & Hr' & Hle).
    exists r'. split; [exact Hr'|].
    destruct Hlev as [E|(E1 & E2 & _)].
    + rewrite <- E. exact Hle.
    + rewrite E1. rewrite E2 in Hle. simpl in *. lia.
Qed.

(** ** ChainProbe and the event-driven path *)

Lemma verifyContract_total env addr chain :
  exists info, ChainProbe.verifyContract env addr chain = Ok info.
Proof.
  unfold ChainProbe.verifyContract, ChainProbe.verifyContractWith.
  destruct (ChainProbe.verifyContract_try _ addr chain); eauto.
Qed.



(** ** C8: the probe never raises and an invalid contract is never recorded *)


(** ** EventMonitor: what the reconnect logic schedules *)

Import EventMonitor.

(** Below the attempt limit a disconnect schedules exactly one timer,
    with the capped exponential delay of the counter read at that
    moment; at the limit it schedules none. *)
Lemma reconnectWebSocket_schedules cfg b st :
  let attempts := default 0%nat (reconnectAttempts st !! b) in
  scheduled (reconnectWebSocket cfg b st) =
    if (maxReconnectAttempts cfg <=? attempts)%nat then scheduled st
    else scheduled st ++
           [ {| t_blockchain := b; t_attempts := attempts;
                t_delay := Z.min (reconnectInterval cfg * 2 ^ Z.of_nat attempts) 600000 |} ].
Proof.
  simpl. unfold reconnectWebSocket.
  destruct (maxReconnectAttempts cfg <=? _)%nat; reflexivity.
Qed.

(** The continuation of the timer callback sets the counter to zero,
    whether or not any socket has opened. *)
Lemma timerResume_resets b st :
  reconnectAttempts (timerResume b st) !! b = Some 0%nat.
Proof. unfold timerResume, setAttempts. simpl. apply lookup_insert_eq. Qed.

(** One failed cycle, started with the counter at zero and nothing
    pending, schedules one reconnect with the base delay and ends with
    the counter at zero and nothing pending again. *)
Lemma failedCycle_effect cfg b st :
  (0 < maxReconnectAttempts cfg)%nat ->
  default 0%nat (reconnectAttempts st !! b) = 0%nat ->
  timers st = [] -> awaiting st = [] ->
  let st' := run cfg st (failedCycle b) in
  reconnectAttempts st' !! b = Some 0%nat /\
  timers st' = [] /\ awaiting st' = [] /\
  scheduled st' =
    scheduled st ++ [ {| t_blockchain := b; t_attempts := 0;
                         t_delay := backoffDelay cfg 0 |} ].
Proof.
  intros Hmax Hzero Ht Ha. destruct st as [ra ts aw so sc]. simpl in *. subst ts aw.
  unfold run, failedCycle. simpl. unfold reconnectWebSocket. simpl.
  rewrite Hzero.
  destruct (maxReconnectAttempts cfg <=? 0)%nat eqn:E.
  { apply Nat.leb_le in E. lia. }
  simpl. unfold timerCallback, timerResume, setAttempts. simpl.
  split; [apply lookup_insert_eq|]. auto.
Qed.

(** [n] failed cycles in a row. *)
Fixpoint failedCycles (n : nat) (b : string) : list Event :=
  match n with
  | O => []
  | S k => failedCycle b ++ failedCycles k b
  end.

(** So the limit never takes effect: [n] consecutive failed cycles
    schedule [n] reconnects, for every [n]. *)
Lemma failed_cycles_unbounded cfg b n :
  (0 < maxReconnectAttempts cfg)%nat ->
  length (scheduled (run cfg started (failedCycles n b))) = n.
Proof.
  intros Hmax.
  assert (G : forall st,
    default 0%nat (reconnectAttempts st !! b) = 0%nat ->
    timers st = [] -> awaiting st = [] ->
    length (scheduled (run cfg st (failedCycles n b)))
    = (length (scheduled st) + n)%nat).
  { induction n as [|n IH]; intros st H0 Ht Ha.
    - simpl. lia.
    - cbn [failedCycles]. unfold run. rewrite fold_left_app.
      destruct (failedCycle_effect cfg b st Hmax H0 Ht Ha) as (R0 & Rt & Ra & Rs).
      fold (run cfg st (failedCycle b)).
      fold (run cfg (run cfg st (failedCycle b)) (failedCycles n b)).
      rewrite IH; [|rewrite R0; reflexivity|exact Rt|exact Ra].
      rewrite Rs, length_app. simpl. lia. }
  rewrite G; [reflexivity|reflexivity|reflexivity|reflexivity].
Qed.

(** Four consecutive disconnects of one blockchain, each followed by the
    reconnect timer and a socket that fails again. *)
Definition fourDisconnects : list Event :=
  failedCycle "ethereum" ++ failedCycle "ethereum" ++
  failedCycle "ethereum" ++ failedCycle "ethereum".

(** ** C2: bounded reconnection *)

(** C2 (evaluation of the code).  With [maxReconnectAttempts = 3] and
    the base interval of 300000 ms, four consecutive failed connections
    of one blockchain, with no ['open'] event in between, leave four
    reconnects scheduled, each with the base delay, and the attempt
    counter at zero: the counter is reset after every reconnect attempt,
    so the limit is not reached and the delay does not grow. *)
Theorem four_disconnects_schedule_four_reconnects :
  let st := run defaultConfig started fourDisconnects in
  maxReconnectAttempts defaultConfig = 3%nat /\
  forallb (fun e => negb (opened e)) fourDisconnects = true /\
  length (scheduled st) = 4%nat /\
  t_delay <$> scheduled st = [300000; 300000; 300000; 300000] /\
  t_attempts <$> scheduled st = [0; 0; 0; 0]%nat /\
  reconnectAttempts st !! "ethereum" = Some 0%nat /\
  socketsOpened st = 5%nat.
Proof. vm_compute. repeat split; reflexivity. Qed.

(** ** Concrete runs *)

Definition acceptAll : VerifiedAirdrop -> bool := fun _ => true.
Definition neverGreater : string -> Z -> bool := fun _ _ => false.
Definition ninetyDaysBefore : Z -> Z := fun t => t - 90 * 24 * 60 * 60 * 1000.

(** A probe that reports every contract verified and code-valid, and one
    that reports none. *)
Definition confirmedInfo (addr chain : string) : ChainProbe.ContractInfo :=
  {| ChainProbe.address := addr; ChainProbe.blockchain := chain;
     ChainProbe.isValid := true; ChainProbe.isToken := false;
     ChainProbe.name := None; ChainProbe.symbol := None;
     ChainProbe.decimals := None; ChainProbe.totalSupply := None;
     ChainProbe.isAirdropContract := Some false;
     ChainProbe.hasClaimFunction := Some true;
     ChainProbe.owner := None; ChainProbe.lastActivity := None;
     ChainProbe.verified := true |}.

Definition probeConfirming : ContractVerificationService :=
  {| verifyContract := fun addr chain => Ok (confirmedInfo addr chain);
     isAirdropActive := fun _ _ => Ok true |}.

Definition probeDenying : ContractVerificationService :=
  {| verifyContract := fun addr chain => Ok (ChainProbe.blank addr chain);
     isAirdropActive := fun _ _ => Ok false |}.

(** A chain with no code at any address. *)
Definition emptyChain : ChainProbe.ChainEnv :=
  {| ChainProbe.ethers_isAddress := fun _ => Ok true;
     ChainProbe.hasProvider := fun _ => true;
     ChainProbe.getCode := fun _ _ => Ok "0x";
     ChainProbe.hasApiKey := fun _ => false;
     ChainProbe.explorer_sourceCode := fun _ _ => Ok None;
     ChainProbe.newContract := fun _ _ => Ok tt;
     ChainProbe.erc20_name := fun _ _ => Throw "call revert";
     ChainProbe.erc20_symbol := fun _ _ => Throw "call revert";
     ChainProbe.erc20_decimals := fun _ _ => Throw "call revert";
     ChainProbe.erc20_totalSupply := fun _ _ => Throw "call revert";
     ChainProbe.interface_getFunction := fun _ _ _ => Ok true;
     ChainProbe.call_owner := fun _ _ => Throw "call revert";
     ChainProbe.call_getOwner := fun _ _ => Throw "call revert";
     ChainProbe.explorer_lastTx := fun _ _ => Ok None;
     ChainProbe.log_result := fun _ => Ok tt |}.

(** An unverified, active record whose [endDate] is 1000. *)
Definition fooRecord : VerifiedAirdrop :=
  {| name := "Foo"; symbol := "FOO";
     contractAddress := "0xdef"; tokenAddress := "0xdef";
     blockchain := "ethereum"; description := "Foo token airdrop";
     website := Some "https://foo.example"; twitter := None;
     endDate := Some 1000; claimDeadline := None; totalValue := None;
     requirements := {| whitelistOnly := false; kyc := false |};
     status := active; verificationLevel := unverified;
     sources := [ {| src_type := api; url := "https://foo.example";
                     lastUpdated := 100; confidence := 50 |} ];
     contractInfo := {| ci_verified := false; ci_hasClaimFunction := false;
                        ci_owner := None; ci_lastActivity := None |};
     distribution_method := claim;
     risks := {| risk_level := medium; factors := []; warnings := [] |};
     tags := ["ethereum"; "claim"; "active"];
     metadata :=
       {| addedBy := "system"; addedAt := 100; lastVerified := 100;
          verificationHistory :=
            [ {| h_date := 100; h_action := "Airdrop created from external source";
                 h_by := "system"; h_details := Some "Source: github" |} ] |};
     analytics := {| views := 0; claims := 0; successfulClaims := 0 |} |}.

(** A record stored for a candidate that had no contract address. *)
Definition barRecord : VerifiedAirdrop :=
  {| name := "Bar"; symbol := "BAR";
     contractAddress := ""; tokenAddress := "";
     blockchain := "ethereum"; description := "Bar token airdrop";
     website := None; twitter := None;
     endDate := None; claimDeadline := None; totalValue := None;
     requirements := {| whitelistOnly := false; kyc := false |};
     status := active; verificationLevel := unverified;
     sources := [ {| src_type := scraping; url := "https://unknown.com";
                     lastUpdated := 100; confidence := 70 |} ];
     contractInfo := {| ci_verified := false; ci_hasClaimFunction := false;
                        ci_owner := None; ci_lastActivity := None |};
     distribution_method := claim;
     risks := {| risk_level := medium; factors := []; warnings := [] |};
     tags := ["ethereum"; "claim"; "active"];
     metadata :=
       {| addedBy := "system"; addedAt := 100; lastVerified := 100;
          verificationHistory :=
            [ {| h_date := 100; h_action := "Airdrop created from external source";
                 h_by := "system"; h_details := Some "Source: airdrop-alert" |} ] |};
     analytics := {| views := 0; claims := 0; successfulClaims := 0 |} |}.

(** A candidate with a contract address of its own, and the name and
    symbol of [fooRecord]. *)
Definition fooCandidate : Candidate :=
  {| c_name := "Foo"; c_symbol := "FOO";
     c_contractAddress := Some "0xabc"; c_tokenAddress := Some "0xabc";
     c_blockchain := Some "ethereum"; c_description := None;
     c_website := None; c_twitter := None; c_endDate := None; c_totalValue := None;
     c_status := Some active; c_source := "known-defi" |}.

(** A candidate that brings nothing new for [fooRecord]: same
    description, same website, no date, no value, status active. *)
Definition staleFooCandidate : Candidate :=
  {| c_name := "Foo"; c_symbol := "FOO";
     c_contractAddress := Some "0xdef"; c_tokenAddress := Some "0xdef";
     c_blockchain := Some "ethereum"; c_description := Some "Foo token airdrop";
     c_website := Some "https://foo.example"; c_twitter := None;
     c_endDate := None; c_totalValue := None;
     c_status := Some active; c_source := "github" |}.

(** A scraped candidate without a contract address. *)
Definition bazCandidate : Candidate :=
  {| c_name := "Baz"; c_symbol := "BAZ";
     c_contractAddress := None; c_tokenAddress := None;
     c_blockchain := Some "ethereum"; c_description := Some "Baz airdrop";
     c_website := None; c_twitter := None; c_endDate := None; c_totalValue := None;
     c_status := Some active; c_source := "airdrop-alert" |}.

Lemma uniqueIndex_foo : uniqueIndex [Some fooRecord].
Proof. unfold uniqueIndex. simpl. apply NoDup_singleton. Defined.


(** C1 at a concrete input: the unverified record is raised by a
    confirming probe. *)
Lemma enrichment_ratchet_witness :
  uniqueIndex [Some fooRecord] /\
  [Some fooRecord] !! 0%nat = Some (Some fooRecord) /\
  exists r',
    verifyAndUpdateContract probeConfirming 2000 "0xDEF" "ethereum" [Some fooRecord] !! 0%nat
      = Some (Some r') /\
    (level_rank (verificationLevel fooRecord) <= level_rank (verificationLevel r'))%nat /\
    verificationLevel r' = community /\ risk_level (risks r') = low.
Proof.
  split; [exact uniqueIndex_foo|]. split; [reflexivity|].
  exact (enrichment_ratchet probeConfirming 2000 "0xDEF" "ethereum" [Some fooRecord] 0%nat
           fooRecord uniqueIndex_foo eq_refl).
Defined.

(** A confirming probe followed by a denying one: the level stays at
    [community]. *)
Example verified_then_unverified :
  omap (fun o : option VerifiedAirdrop => verificationLevel <$> o)
    (enrichSequence [(probeConfirming, 2000); (probeDenying, 3000)] "0xDEF" "ethereum"
       [Some fooRecord])
  = [community].
Proof. vm_compute. reflexivity. Qed.

(** A service with a sync in flight. *)
Definition busySys : Sys :=
  {| service := {| isSyncing := true; lastSyncResult := None |};
     store := [Some fooRecord];
     running := [freshResult 1] |}.

(** C3 at a concrete input: an invocation during the sync is rejected
    and changes nothing; the sync settles on a failed fetch and the flag
    is cleared; the next invocation is accepted. *)
Lemma sync_single_flight_witness :
  isSyncing (service busySys) = true /\
  sysStep acceptAll neverGreater ninetyDaysBefore probeDenying busySys (Invoke 5)
    = (busySys, Some (Throw syncInProgressMessage)) /\
  isSyncing (service (fst (sysStep acceptAll neverGreater ninetyDaysBefore probeDenying
                             busySys (Settle 6 (Throw "network down"))))) = false /\
  snd (sysStep acceptAll neverGreater ninetyDaysBefore probeDenying
         (fst (sysStep acceptAll neverGreater ninetyDaysBefore probeDenying
                 busySys (Settle 6 (Throw "network down"))))
         (Invoke 7)) = None.
Proof.
  destruct (sync_single_flight acceptAll neverGreater ninetyDaysBefore probeDenying)
    as (H1 & _ & _ & H4 & H5).
  split; [reflexivity|].
  split; [apply H1; reflexivity|].
  split; [apply H4; discriminate|].
  rewrite H5; [reflexivity|].
  apply H4; discriminate.
Defined.



(** C5, the claim at a concrete input: a candidate that brings nothing
    new is merged at time 5000; description, website, endDate,
    totalValue, sources and status are as before, and
    [metadata.lastVerified], which is none of the four fields, is
    overwritten. *)
Lemma merge_overwrites_lastVerified :
  let m := mergeCandidate 5000 fooRecord staleFooCandidate in
  description m = description fooRecord /\ website m = website fooRecord /\
  endDate m = endDate fooRecord /\ totalValue m = totalValue fooRecord /\
  sources m = sources fooRecord /\ status m = status fooRecord /\
  lastVerified (metadata fooRecord) = 100 /\
  lastVerified (metadata m) = 5000 /\
  m <> fooRecord.
Proof.
  vm_compute. repeat split; try reflexivity. discriminate.
Qed.

(** C6 at a concrete input. *)
Lemma maintenance_expires_witness :
  [Some fooRecord] !! 0%nat = Some (Some fooRecord) /\
  expiredQuery 5000 fooRecord = true /\
  exists r',
    updateExistingAirdrops acceptAll neverGreater probeDenying 5000 [Some fooRecord] !! 0%nat
      = Some (Some r') /\
    status r' = ended /\
    forall now',
      updateExistingAirdrops acceptAll neverGreater probeDenying now'
        (updateExistingAirdrops acceptAll neverGreater probeDenying 5000 [Some fooRecord])
        !! 0%nat = Some (Some r').
Proof.
  split; [reflexivity|]. split; [reflexivity|].
  destruct (maintenance_expires acceptAll neverGreater probeDenying 5000
              [Some fooRecord] 0%nat fooRecord eq_refl) as (r' & H1 & H2 & _ & H4).
  exists r'. split; [exact H1|]. split; [apply H2; reflexivity|apply H4; reflexivity].
Defined.

(** C7 at a concrete input: the maintenance pass keeps the audit log,
    and a save that changes the level appends the entry of the hook. *)
Lemma history_append_only_witness :
  (exists r',
     updateExistingAirdrops acceptAll neverGreater probeDenying 5000 [Some fooRecord] !! 0%nat
       = Some (Some r') /\
     history r' = history fooRecord) /\
  length (history (preSave neverGreater 5000 false fooRecord
                     (set_verificationLevel community fooRecord))) = 2%nat.
Proof.
  destruct (history_append_only acceptAll neverGreater ninetyDaysBefore probeDenying)
    as (_ & _ & H3 & H4 & _).
  split.
  - apply (H4 5000 [Some fooRecord] 0%nat fooRecord). reflexivity.
  - rewrite H3; [reflexivity|discriminate].
Defined.

(** C7, the claim at a concrete input: the maintenance pass moves the
    status of the record from [active] to [ended], and the enrichment
    step moves its level from [unverified] to [community]; neither
    appends an entry to the audit log. *)
Lemma transitions_without_history_entry :
  (exists r',
     updateExistingAirdrops acceptAll neverGreater probeDenying 5000 [Some fooRecord] !! 0%nat
       = Some (Some r') /\
     status fooRecord = active /\ status r' = ended /\
     history r' = history fooRecord) /\
  (exists r',
     verifyAndUpdateContract probeConfirming 5000 "0xdef" "ethereum" [Some fooRecord] !! 0%nat
       = Some (Some r') /\
     verificationLevel fooRecord = unverified /\ verificationLevel r' = community /\
     history r' = history fooRecord).
Proof.
  split; eexists; (split; [vm_compute; reflexivity|]); repeat split; reflexivity.
Qed.



(** A scraped candidate whose contract address is the empty string, as
    the scrapers build it. *)
Definition quxCandidate : Candidate :=
  {| c_name := "Qux"; c_symbol := "QUX";
     c_contractAddress := Some ""; c_tokenAddress := Some "";
     c_blockchain := Some "ethereum"; c_description := Some "Qux airdrop";
     c_website := None; c_twitter := None; c_endDate := None; c_totalValue := None;
     c_status := Some active; c_source := "airdrop-alert" |}.

(** Such a candidate does not reach the create path once a record with
    an empty address exists: the [contractAddress] clause of the filter
    matches that record, and the candidate is merged into it. *)
Example empty_string_address_candidate_merged :
  findOne (identityQuery quxCandidate) [Some barRecord] = Some (0%nat, barRecord) /\
  fst (processAirdropData acceptAll neverGreater probeDenying 2000 quxCandidate
         (freshResult 2000) [Some barRecord])
    = (Ok tt, incUpdated (freshResult 2000)) /\
  length (snd (processAirdropData acceptAll neverGreater probeDenying 2000 quxCandidate
                 (freshResult 2000) [Some barRecord])) = 1%nat.
Proof. vm_compute. repeat split; reflexivity. Qed.

(** Under a validator that refuses an empty contractAddress, as a
    [required] string path may, no candidate without an address is ever
    stored: the first one is dropped as the later ones are. *)
Lemma no_address_candidate_refused validate parseFloat_gt now c (s : Store) :
  (forall r, contractAddress r = "" -> validate r = false) ->
  truthy (c_contractAddress c) = false ->
  createNewVerifiedAirdrop validate parseFloat_gt now c s = (None, s).
Proof.
  intros Hv Hc. unfold createNewVerifiedAirdrop, saveNew.
  rewrite (Hv _ (newVerifiedAirdrop_no_address now c Hc)). reflexivity.
Qed.

(** * Further properties of the probe *)

Lemma getExplorerInfo_key env addr chain v :
  ChainProbe.getExplorerInfo env addr chain = Ok (Some v) ->
  ChainProbe.hasApiKey env chain = true.
Proof.
  unfold ChainProbe.getExplorerInfo.
  destruct (ChainProbe.hasApiKey env chain); [reflexivity|discriminate].
Qed.

Lemma getLastActivity_key env addr chain t :
  ChainProbe.getLastActivity env addr chain = Ok (Some t) ->
  ChainProbe.hasApiKey env chain = true.
Proof.
  unfold ChainProbe.getLastActivity.
  destruct (ChainProbe.hasApiKey env chain); [reflexivity|discriminate].
Qed.

Lemma hasContractCode_provider env addr chain :
  ChainProbe.hasContractCode env addr chain = Ok true ->
  ChainProbe.hasProvider env chain = true /\
  exists code, ChainProbe.getCode env chain addr = Ok code /\ code <> "0x".
Proof.
  unfold ChainProbe.hasContractCode.
  destruct (ChainProbe.hasProvider env chain); simpl; [|discriminate].
  destruct (ChainProbe.getCode env chain addr) as [code|e]; [|discriminate].
  intros H. split; [reflexivity|]. exists code. split; [reflexivity|].
  intros E. rewrite (bool_decide_eq_true_2 _ E) in H. discriminate.
Qed.

(** X19.  What a report of [verifyContract] can say.  It always carries
    the address and the blockchain it was asked about.  A report that
    is not valid is the all-false report with nothing else in it.  A
    valid report is only made for a well-formed address on a blockchain
    with a provider whose node returned code other than ["0x"], and it
    always says whether there is a claim function.  A report is never
    [verified] without being valid, and [verified] and [lastActivity]
    only come from a blockchain with an explorer API key.  [isToken] is
    set exactly when name and symbol were read. *)
Theorem probe_report_consistent env addr chain :
  exists info, ChainProbe.verifyContract env addr chain = Ok info /\
    ChainProbe.address info = addr /\ ChainProbe.blockchain info = chain /\
    (ChainProbe.isValid info = false -> info = ChainProbe.blank addr chain) /\
    (ChainProbe.isValid info = true ->
       ChainProbe.isValidAddress env addr = true /\
       ChainProbe.hasProvider env chain = true /\
       (exists code, ChainProbe.getCode env chain addr = Ok code /\ code <> "0x") /\
       is_Some (ChainProbe.hasClaimFunction info)) /\
    (ChainProbe.verified info = true ->
       ChainProbe.isValid info = true /\ ChainProbe.hasApiKey env chain = true) /\
    (is_Some (ChainProbe.lastActivity info) -> ChainProbe.hasApiKey env chain = true) /\
    (ChainProbe.isToken info = true <->
       is_Some (ChainProbe.name info) /\ is_Some (ChainProbe.symbol info)).
Proof.
  assert (Hblank : forall info, info = ChainProbe.blank addr chain ->
    ChainProbe.address info = addr /\ ChainProbe.blockchain info = chain /\
    (ChainProbe.isValid info = false -> info = ChainProbe.blank addr chain) /\
    (ChainProbe.isValid info = true ->
       ChainProbe.isValidAddress env addr = true /\
       ChainProbe.hasProvider env chain = true /\
       (exists code, ChainProbe.getCode env chain addr = Ok code /\ code <> "0x") /\
       is_Some (ChainProbe.hasClaimFunction info)) /\
    (ChainProbe.verified info = true ->
       ChainProbe.isValid info = true /\ ChainProbe.hasApiKey env chain = true) /\
    (is_Some (ChainProbe.lastActivity info) -> ChainProbe.hasApiKey env chain = true) /\
    (ChainProbe.isToken info = true <->
       is_Some (ChainProbe.name info) /\ is_Some (ChainProbe.symbol info))).
  { intros info ->. simpl. repeat split; try discriminate; auto.
    - intros [x Hx]. discriminate.
    - intros [[x Hx] _]. discriminate. }
  unfold ChainProbe.verifyContract, ChainProbe.verifyContractWith,
    ChainProbe.verifyContract_try. simpl.
  destruct (ChainProbe.isValidAddress env addr) eqn:Ea; simpl;
    [|eexists; split; [reflexivity|apply Hblank; reflexivity]].
  destruct (ChainProbe.hasContractCode env addr chain) as [[|]|e] eqn:Ec; simpl;
    try (eexists; split; [reflexivity|apply Hblank; reflexivity]).
  destruct (hasContractCode_provider _ _ _ Ec) as (Hprov & Hcode).
  destruct (ChainProbe.getExplorerInfo env addr chain) as [ex|e] eqn:Ee; simpl;
    [|eexists; split; [reflexivity|apply Hblank; reflexivity]].
  destruct (ChainProbe.getTokenInfo env addr chain) as [tok|e] eqn:Et; simpl;
    [|eexists; split; [reflexivity|apply Hblank; reflexivity]].
  destruct (ChainProbe.checkAirdropFunctions env addr chain) as [fn|e] eqn:Ef; simpl;
    [|eexists; split; [reflexivity|apply Hblank; reflexivity]].
  destruct (ChainProbe.getContractOwner env addr chain) as [ow|e] eqn:Eo; simpl;
    [|eexists; split; [reflexivity|apply Hblank; reflexivity]].
  destruct (ChainProbe.getLastActivity env addr chain) as [la|e] eqn:El; simpl;
    [|eexists; split; [reflexivity|apply Hblank; reflexivity]].
  destruct (ChainProbe.log_result env _) as [u|e]; simpl;
    [|eexists; split; [reflexivity|apply Hblank; reflexivity]].
  eexists. split; [reflexivity|]. simpl.
  split; [reflexivity|]. split; [reflexivity|]. split; [discriminate|].
  split; [intros _; repeat split; eauto|].
  split.
  { intros Hv. split; [reflexivity|].
    destruct ex as [v|]; [|discriminate]. eapply getExplorerInfo_key; eauto. }
  split.
  { intros [t Ht]. subst la. eapply getLastActivity_key; eauto. }
  destruct tok as [t|]; simpl; split; try discriminate; eauto.
  intros [[x Hx] _]. discriminate.
Qed.

(** An RPC failure reads as "inactive": without a provider, with a
    node that raises, or with a node that returns no code, the probe
    answers [false]. *)
Lemma isAirdropActive_unreachable env clock addr chain :
  ChainProbe.hasProvider env chain = false \/
  raises (ChainProbe.getCode env chain addr) = true \/
  ChainProbe.getCode env chain addr = Ok "0x" ->
  ChainProbe.isAirdropActive env clock addr chain = Ok false.
Proof.
  intros H.
  assert (Hc : ChainProbe.isValidAddress env addr = false \/
               ChainProbe.hasContractCode env addr chain = Ok false).
  { right. unfold ChainProbe.hasContractCode.
    destruct (ChainProbe.hasProvider env chain); simpl; [|reflexivity].
    destruct H as [H|[H|H]]; [discriminate| |rewrite H; reflexivity].
    destruct (ChainProbe.getCode env chain addr); [discriminate|reflexivity]. }
  assert (Hv : ChainProbe.verifyContract env addr chain = Ok (ChainProbe.blank addr chain)).
  { unfold ChainProbe.verifyContract, ChainProbe.verifyContractWith,
      ChainProbe.verifyContract_try. simpl.
    destruct (ChainProbe.isValidAddress env addr); simpl; [|reflexivity].
    destruct Hc as [Hc|Hc]; [discriminate|]. rewrite Hc. reflexivity. }
  unfold ChainProbe.isAirdropActive. rewrite Hv. reflexivity.
Qed.

(** X20.  With the probe of [contractVerificationService.ts], an RPC
    outage ends the active records: when the blockchain of an active
    record with a contract address has no provider, or its node raises
    or returns no code, the maintenance pass leaves the record with
    status [ended] (given that the record passes validation). *)
Theorem rpc_failure_ends_active_record validate parseFloat_gt env clock now
    (s : Store) i r :
  s !! i = Some (Some r) -> status r = active -> contractAddress r <> "" ->
  validate (set_status ended r) = true ->
  ChainProbe.hasProvider env (blockchain r) = false \/
  raises (ChainProbe.getCode env (blockchain r) (contractAddress r)) = true \/
  ChainProbe.getCode env (blockchain r) (contractAddress r) = Ok "0x" ->
  exists r',
    updateExistingAirdrops validate parseFloat_gt (chainProbeService env clock) now s !! i
      = Some (Some r') /\
    status r' = ended.
Proof.
  intros Hi Hst Haddr Hval Hrpc.
  apply (maintenance_ends_inactive validate parseFloat_gt (chainProbeService env clock)
           now s i r Hi Hst Haddr); [|exact Hval].
  simpl. apply isAirdropActive_unreachable. exact Hrpc.
Qed.

(** ** [verifyMultipleContracts] *)

(** [Promise.all]: the values in order, or a rejection. *)
Fixpoint promiseAll {A} (l : list (exc A)) : exc (list A) :=
  match l with
  | [] => Ok []
  | Ok a :: rest =>
      match promiseAll rest with
      | Ok r => Ok (a :: r)
      | Throw e => Throw e
      end
  | Throw e :: _ => Throw e
  end.

Definition batchSize : nat := 5.

(** The [for] loop of [verifyMultipleContracts], from index [i] with
    the results gathered so far; [pauses] counts the one-second pauses.
    The loop advances by [batchSize], so [length addresses] turns are
    enough. *)
Fixpoint verifyBatches (fuel : nat) (env : ChainProbe.ChainEnv) (chain : string)
  (addresses : list string) (i : nat) (results : list ChainProbe.ContractInfo)
  (pauses : nat) : exc (list ChainProbe.ContractInfo * nat) :=
  match fuel with
  | O => Ok (results, pauses)
  | S fuel' =>
      if (i <? length addresses)%nat then
        let batch := take batchSize (drop i addresses) in
        match promiseAll ((fun a => ChainProbe.verifyContract env a chain) <$> batch) with
        | Throw e => Throw e
        | Ok batchResults =>
            verifyBatches fuel' env chain addresses (i + batchSize)
              (results ++ batchResults)
              (if (i + batchSize <? length addresses)%nat then S pauses else pauses)
        end
      else Ok (results, pauses)
  end.

(** [verifyMultipleContracts]: the results and the number of pauses. *)
Definition verifyMultipleContracts (env : ChainProbe.ChainEnv)
  (addresses : list string) (chain : string)
  : exc (list ChainProbe.ContractInfo * nat) :=
  verifyBatches (length addresses) env chain addresses 0 [] 0.

Lemma promiseAll_verify env chain : forall batch,
  exists infos,
    promiseAll ((fun a => ChainProbe.verifyContract env a chain) <$> batch) = Ok infos /\
    Forall2 (fun a info => ChainProbe.verifyContract env a chain = Ok info) batch infos.
Proof.
  induction batch as [|a batch (infos & E & F)].
  - exists []. split; [reflexivity|constructor].
  - destruct (verifyContract_total env a chain) as (info & Ea).
    rewrite fmap_cons. cbn [promiseAll]. rewrite Ea, E. exists (info :: infos). split; [reflexivity|].
    constructor; assumption.
Qed.

Lemma verifyBatches_spec env chain addresses : forall fuel i results pauses,
  (length addresses <= i + fuel)%nat ->
  Forall2 (fun a info => ChainProbe.verifyContract env a chain = Ok info)
    (take i addresses) results ->
  exists results' more,
    verifyBatches fuel env chain addresses i results pauses
      = Ok (results', (pauses + more)%nat) /\
    Forall2 (fun a info => ChainProbe.verifyContract env a chain = Ok info)
      addresses results' /\
    ((i < length addresses)%nat ->
     (5 * more < length addresses - i <= 5 * (more + 1))%nat) /\
    ((length addresses <= i)%nat -> more = 0%nat).
Proof.
  induction fuel as [|fuel IH]; intros i results pauses Hfuel Hres; simpl.
  - exists results, 0%nat. rewrite Nat.add_0_r.
    split; [reflexivity|]. split; [|split; [lia|reflexivity]].
    rewrite take_ge in Hres by lia. exact Hres.
  - destruct (i <? length addresses)%nat eqn:Ei.
    + apply Nat.ltb_lt in Ei.
      destruct (promiseAll_verify env chain (take batchSize (drop i addresses)))
        as (infos & -> & Hinfos).
      assert (Hres' : Forall2 (fun a info => ChainProbe.verifyContract env a chain = Ok info)
                        (take (i + batchSize) addresses) (results ++ infos)).
      { rewrite <- take_take_drop. apply Forall2_app; assumption. }
      destruct (IH (i + batchSize)%nat (results ++ infos)
                  (if (i + batchSize <? length addresses)%nat then S pauses else pauses)
                  ltac:(unfold batchSize; lia) Hres')
        as (results' & more & E & Hall & Hlt & Hge).
      rewrite E. unfold batchSize in *.
      destruct (i + 5 <? length addresses)%nat eqn:Ej.
      * apply Nat.ltb_lt in Ej. specialize (Hlt Ej).
        exists results', (S more). split; [f_equal; f_equal; lia|].
        split; [exact Hall|]. split; [intros _; lia|lia].
      * apply Nat.ltb_ge in Ej. specialize (Hge Ej). subst more.
        exists results', 0%nat. split; [reflexivity|].
        split; [exact Hall|]. split; [intros _; lia|lia].
    + apply Nat.ltb_ge in Ei. exists results, 0%nat. rewrite Nat.add_0_r.
      split; [reflexivity|]. split; [|split; [lia|reflexivity]].
      rewrite take_ge in Hres by lia. exact Hres.
Qed.

(** X21.  [verifyMultipleContracts] never rejects and batching does
    not show in its result: it returns, in the order of the addresses,
    exactly the report [verifyContract] gives for each.  It pauses once
    between two batches of five: not at all for up to five addresses,
    and otherwise one time less than the number of batches. *)
Theorem verifyMultipleContracts_in_order env addresses chain :
  exists results pauses,
    verifyMultipleContracts env addresses chain = Ok (results, pauses) /\
    Forall2 (fun a info => ChainProbe.verifyContract env a chain = Ok info)
      addresses results /\
    length results = length addresses /\
    (addresses = [] -> pauses = 0%nat) /\
    (addresses <> [] -> (5 * pauses < length addresses <= 5 * (pauses + 1))%nat).
Proof.
  unfold verifyMultipleContracts.
  destruct (verifyBatches_spec env chain addresses (length addresses) 0 [] 0
              ltac:(lia) ltac:(rewrite take_0; constructor))
    as (results & more & E & Hall & Hlt & Hge).
  exists results, more. split; [exact E|]. split; [exact Hall|].
  split; [symmetry; eapply Forall2_length; eauto|].
  split.
  - intros ->. apply Hge. simpl. lia.
  - intros Hne. destruct addresses; [congruence|].
    specialize (Hlt ltac:(simpl; lia)). simpl in *. lia.
Qed.

(** * Further properties of the monitor *)






(** X23.  The delay of a reconnect does not shrink as the attempt count
    grows, and it stays at ten minutes from the first count that reaches
    the cap. *)
Theorem backoffDelay_monotone cfg n m :
  0 <= reconnectInterval cfg -> (n <= m)%nat ->
  backoffDelay cfg n <= backoffDelay cfg m /\
  (backoffDelay cfg n = 600000 -> backoffDelay cfg m = 600000).
Proof.
  intros Hint Hnm. unfold backoffDelay.
  assert (0 < 2 ^ Z.of_nat n) by (apply Z.pow_pos_nonneg; lia).
  assert (2 ^ Z.of_nat n <= 2 ^ Z.of_nat m) by (apply Z.pow_le_mono_r; lia).
  split; [nia|]. intros E. nia.
Qed.

(** * The candidate feed: [realAirdropService] *)










(** * The further properties at concrete inputs *)

(** A detected event for a contract that is not in the collection. *)
Definition abcEvent : AirdropEvent :=
  {| e_contractAddress := "0xABC"; e_tokenAddress := None;
     e_blockchain := "ethereum"; e_timestamp := 4000 |}.

(** X1 at a concrete input: a sync, a detected event and a claim-opened
    signal on a collection of one record. *)
Lemma uniqueIndex_invariant_witness :
  uniqueIndex [Some fooRecord] /\
  uniqueIndex
    (fold_left
       (fun st op => applyOp acceptAll neverGreater ninetyDaysBefore probeConfirming op st)
       [OpSync 2000 (Ok [fooCandidate; bazCandidate]); OpDetected 3000 abcEvent;
        OpClaimOpened 4000 "0xDEF"]
       [Some fooRecord]).
Proof.
  split; [exact uniqueIndex_foo|].
  exact (uniqueIndex_invariant acceptAll neverGreater ninetyDaysBefore probeConfirming
           [OpSync 2000 (Ok [fooCandidate; bazCandidate]); OpDetected 3000 abcEvent;
            OpClaimOpened 4000 "0xDEF"]
           [Some fooRecord] uniqueIndex_foo).
Defined.


(** The outcome of processing [bazCandidate] on a collection that holds
    [fooRecord] only. *)
Definition bazOutcome : exc unit * SyncResult * Store :=
  processAirdropData acceptAll neverGreater probeDenying 2000 bazCandidate
    (freshResult 2000) [Some fooRecord].

(** X3 at a concrete input: the candidate is created, and offered again
    it is matched. *)
Lemma candidate_created_once_witness :
  trim (c_name bazCandidate) = c_name bazCandidate /\
  toUpperCase (trim (c_symbol bazCandidate)) = c_symbol bazCandidate /\
  bazOutcome = (Ok tt, snd (fst bazOutcome), snd bazOutcome) /\
  newAirdrops (snd (fst bazOutcome)) = S (newAirdrops (freshResult 2000)) /\
  length (snd bazOutcome) = S (length [Some fooRecord]) /\
  forall now' res',
    length (snd (processAirdropData acceptAll neverGreater probeDenying now' bazCandidate
                   res' (snd bazOutcome))) = length (snd bazOutcome) /\
    newAirdrops (snd (fst (processAirdropData acceptAll neverGreater probeDenying now'
                             bazCandidate res' (snd bazOutcome)))) = newAirdrops res'.
Proof.
  split; [reflexivity|]. split; [reflexivity|]. split; [reflexivity|].
  split; [reflexivity|].
  exact (candidate_created_once acceptAll neverGreater probeDenying 2000 bazCandidate
           (freshResult 2000) [Some fooRecord] (snd (fst bazOutcome)) (snd bazOutcome)
           eq_refl eq_refl eq_refl eq_refl).
Defined.

(** X4 at a concrete input: the record expired long ago, is unverified
    and was never viewed; one sync later it is gone. *)
Lemma expired_then_swept_witness :
  [Some fooRecord] !! 0%nat = Some (Some fooRecord) /\
  expiredQuery 10000000000 fooRecord = true /\
  verificationLevel fooRecord = unverified /\
  (views (analytics fooRecord) < 10)%nat /\
  lastVerified (metadata fooRecord) < ninetyDaysBefore 10000000000 /\
  cleanupObsoleteData ninetyDaysBefore 10000000000
    (updateExistingAirdrops acceptAll neverGreater probeDenying 10000000000
       [Some fooRecord]) !! 0%nat = Some None.
Proof.
  split; [reflexivity|]. split; [reflexivity|]. split; [reflexivity|].
  split; [simpl; lia|]. split; [reflexivity|].
  apply (proj1 (expired_then_swept acceptAll neverGreater ninetyDaysBefore probeDenying
                  10000000000 [Some fooRecord] 0%nat fooRecord eq_refl));
    [reflexivity|reflexivity|simpl; lia|reflexivity].
Defined.

(** X5 at a concrete input: the record, whose end date is past, is
    reactivated and ended again by the next pass. *)
Lemma claim_opened_until_next_pass_witness :
  findOne (hasAddress "0xDEF") [Some fooRecord] = Some (0%nat, fooRecord) /\
  (dateBefore (endDate fooRecord) 5000 || dateBefore (claimDeadline fooRecord) 5000)%bool
    = true /\
  exists r1 r2,
    updateAirdropStatus 4000 "0xDEF" active [Some fooRecord] !! 0%nat = Some (Some r1) /\
    status r1 = active /\ lastVerified (metadata r1) = 4000 /\
    updateExistingAirdrops acceptAll neverGreater probeConfirming 5000
      (updateAirdropStatus 4000 "0xDEF" active [Some fooRecord]) !! 0%nat
      = Some (Some r2) /\
    status r2 = ended.
Proof.
  split; [reflexivity|]. split; [reflexivity|].
  exact (claim_opened_until_next_pass acceptAll neverGreater probeConfirming 4000 5000
           "0xDEF" [Some fooRecord] 0%nat fooRecord eq_refl eq_refl).
Defined.

(** X6 at a concrete input: an event for a contract the probe reports
    valid. *)
Lemma detected_airdrop_record_witness :
  findOne (hasAddress (e_contractAddress abcEvent)) [Some fooRecord] = None /\
  ChainProbe.isValid (confirmedInfo "0xABC" "ethereum") = true /\
  exists saved,
    processDetectedAirdrop acceptAll neverGreater probeConfirming 5000 abcEvent
      [Some fooRecord] = [Some fooRecord] ++ [Some saved] /\
    contractAddress saved = toLowerCase (e_contractAddress abcEvent) /\
    status saved = active /\ verificationLevel saved = unverified /\
    risk_level (risks saved) = medium /\
    sources saved = [ {| src_type := api; url := "https://unknown.com";
                         lastUpdated := 5000; confidence := 50 |} ] /\
    contractInfo saved = {| ci_verified := false; ci_hasClaimFunction := false;
                            ci_owner := None; ci_lastActivity := None |}.
Proof.
  split; [reflexivity|]. split; [reflexivity|].
  exact (detected_airdrop_record acceptAll neverGreater probeConfirming 5000 abcEvent
           [Some fooRecord] (confirmedInfo "0xABC" "ethereum")
           eq_refl eq_refl eq_refl eq_refl).
Defined.

Lemma sources_foo_distinct : NoDup (url <$> sources fooRecord).
Proof. simpl. apply NoDup_singleton. Defined.

(** X8 at a concrete input: a candidate with a new URL is merged. *)
Lemma merge_sources_distinct_witness :
  NoDup (url <$> sources fooRecord) /\
  NoDup (url <$> sources (mergeCandidate 5000 fooRecord fooCandidate)) /\
  length (sources (mergeCandidate 5000 fooRecord fooCandidate)) = 2%nat.
Proof.
  split; [exact sources_foo_distinct|].
  split; [|reflexivity].
  exact (proj1 (merge_sources_distinct acceptAll neverGreater 5000 fooRecord fooCandidate
                  sources_foo_distinct)).
Defined.

(** Requests with no call of [updateVerificationLevel] and no
    claim-opened signal. *)
Definition quietRequests : list Request :=
  [Internal (OpSync 2000 (Ok [fooCandidate; bazCandidate]));
   GetDetails 2500 0; PostClaim 2600 0; RecordClaim 2700 0 false;
   Internal (OpDetected 3000 abcEvent);
   Internal (OpAddRiskWarning 3500 0 "unaudited" None);
   Internal (OpSync 10000000000 (Ok []))].

(** X17 at a concrete input. *)
Lemma level_only_raised_witness :
  forallb (fun req => negb (isLevelUpdate req)) quietRequests = true /\
  evolves levelRaised [Some fooRecord]
    (serve acceptAll neverGreater ninetyDaysBefore probeConfirming quietRequests
       [Some fooRecord]).
Proof.
  split; [reflexivity|].
  exact (level_only_raised acceptAll neverGreater ninetyDaysBefore probeConfirming
           quietRequests [Some fooRecord] eq_refl).
Defined.

(** X18 at a concrete input. *)
Lemma status_only_ends_witness :
  forallb (fun req => negb (isClaimOpened req)) quietRequests = true /\
  evolves statusEnds [Some fooRecord]
    (serve acceptAll neverGreater ninetyDaysBefore probeConfirming quietRequests
       [Some fooRecord]).
Proof.
  split; [reflexivity|].
  exact (proj1 (status_only_ends acceptAll neverGreater ninetyDaysBefore probeConfirming
                  quietRequests [Some fooRecord] eq_refl)).
Defined.

Lemma foo_has_address : contractAddress fooRecord <> "".
Proof. discriminate. Defined.

(** X20 at a concrete input: the chain returns no code, and the record,
    whose end date is still ahead, is ended. *)
Lemma rpc_failure_ends_active_record_witness :
  [Some fooRecord] !! 0%nat = Some (Some fooRecord) /\
  status fooRecord = active /\
  ChainProbe.getCode emptyChain (blockchain fooRecord) (contractAddress fooRecord)
    = Ok "0x" /\
  expiredQuery 500 fooRecord = false /\
  exists r',
    updateExistingAirdrops acceptAll neverGreater (chainProbeService emptyChain 500) 500
      [Some fooRecord] !! 0%nat = Some (Some r') /\
    status r' = ended.
Proof.
  split; [reflexivity|]. split; [reflexivity|]. split; [reflexivity|].
  split; [reflexivity|].
  exact (rpc_failure_ends_active_record acceptAll neverGreater emptyChain 500 500
           [Some fooRecord] 0%nat fooRecord eq_refl eq_refl foo_has_address eq_refl
           (or_intror (or_intror eq_refl))).
Defined.


(** X23 at a concrete input: the first two delays of the default
    configuration. *)
Lemma backoffDelay_monotone_witness :
  0 <= reconnectInterval defaultConfig /\ (0 <= 1)%nat /\
  backoffDelay defaultConfig 0 <= backoffDelay defaultConfig 1.
Proof.
  assert (H : 0 <= reconnectInterval defaultConfig) by (simpl; lia).
  assert (H' : (0 <= 1)%nat) by lia.
  split; [exact H|]. split; [exact H'|].
  exact (proj1 (backoffDelay_monotone defaultConfig 0 1 H H')).
Defined.

(** * The sync run on its feed *)




